(** * pySWATPlus: the TXTINOUT reader (src/pySWATPlus/TxtinoutReader.py)

    A shallow embedding of the class [TxtinoutReader] and of the Python
    library functions it calls, followed by the properties proved about it.

    Conventions of the embedding.
    - A Python [str] is a [list ascii]; a character is a code point below 256.
    - A text file holds the [str] that Python's text-mode [open] returns, so
      lines end in the single character [nl].
    - A path is the list of its components from the root of the file system.
      [os.path.join] with a name the file system listed, and
      [Path.__truediv__] with a literal file name of the source, append a
      component; [Path.__truediv__] with a string of the caller is [truediv],
      and the path it gives is opened with [open_read] and [open_write].
    - Methods that touch the file system, the process table or the console are
      functions in the monad [M]: they take a [World] and return either a
      value or a raised exception, together with the new [World]. *)

From Stdlib Require Import ZArith Ascii String List DecimalString Lia.
From stdpp Require Import gmap strings list.

Local Open Scope Z_scope.
Local Open Scope nat_scope.
Local Open Scope list_scope.

(* ===================================================================== *)
(** * Part I.  The model                                                  *)
(* ===================================================================== *)

(** ** Python built-ins and standard-library functions used by the source *)

Module Py.

(** A string literal of the source. *)
Definition lit (s : string) : list ascii := list_ascii_of_string s.

Definition nl : ascii := ascii_of_nat 10.
Definition sp : ascii := ascii_of_nat 32.
Arguments nl : simpl never.
Arguments sp : simpl never.

(** [str.isspace] on one character (code points below 256). *)
Definition isspace (c : ascii) : bool :=
  let n := nat_of_ascii c in
  ((9 <=? n) && (n <=? 13)) || ((28 <=? n) && (n <=? 32))
  || (n =? 133) || (n =? 160).

(** [s.ljust(w)] and the format specification [{: >w}] applied to a string. *)
Definition ljust (w : nat) (s : list ascii) : list ascii :=
  s ++ repeat sp (w - length s).

Definition rjust (w : nat) (s : list ascii) : list ascii :=
  repeat sp (w - length s) ++ s.

(** [s.rstrip()], [s.lstrip()], [s.strip()]. *)
Fixpoint rstrip (s : list ascii) : list ascii :=
  match s with
  | [] => []
  | c :: s' =>
      match rstrip s' with
      | [] => if isspace c then [] else [c]
      | r => c :: r
      end
  end.

Fixpoint lstrip (s : list ascii) : list ascii :=
  match s with
  | [] => []
  | c :: s' => if isspace c then lstrip s' else s
  end.

Definition strip (s : list ascii) : list ascii := rstrip (lstrip s).

(** [s.startswith(p)] and [s.endswith(p)]. *)
Fixpoint startswith (p s : list ascii) : bool :=
  match p, s with
  | [], _ => true
  | _ :: _, [] => false
  | a :: p', b :: s' => Ascii.eqb a b && startswith p' s'
  end.

Definition endswith (p s : list ascii) : bool :=
  startswith (rev p) (rev s).

(** [s.split()]: the maximal runs of non-whitespace characters.  [cur] is
    the run being read, last character first. *)
Fixpoint split_from (cur : list ascii) (s : list ascii) : list (list ascii) :=
  match s with
  | [] => match cur with [] => [] | _ => [rev cur] end
  | c :: s' =>
      if isspace c
      then match cur with
           | [] => split_from [] s'
           | _ => rev cur :: split_from [] s'
           end
      else split_from (c :: cur) s'
  end.

Definition split (s : list ascii) : list (list ascii) := split_from [] s.

(** [s.rsplit(sep, 1)[0]] for a one-character separator: what stands before
    the last [sep], or all of [s] when there is none. *)
Fixpoint before_last (sep : ascii) (s : list ascii) : option (list ascii) :=
  match s with
  | [] => None
  | c :: s' =>
      match before_last sep s' with
      | Some h => Some (c :: h)
      | None => if Ascii.eqb c sep then Some [] else None
      end
  end.

Definition rsplit1_head (sep : ascii) (s : list ascii) : list ascii :=
  match before_last sep s with
  | Some h => h
  | None => s
  end.

(** [s.split(sep)] for a one-character separator: the pieces between the
    separators, empty ones included. *)
Fixpoint split_on (sep : ascii) (s : list ascii) : list (list ascii) :=
  match s with
  | [] => [[]]
  | c :: s' =>
      if Ascii.eqb c sep then [] :: split_on sep s'
      else match split_on sep s' with
           | [] => [[c]]
           | piece :: pieces => (c :: piece) :: pieces
           end
  end.

(** [s.rfind(c)] for one character: the last index, or -1. *)
Fixpoint rfind_from (i : Z) (c : ascii) (s : list ascii) : Z :=
  match s with
  | [] => (-1)%Z
  | a :: s' =>
      let r := rfind_from (i + 1)%Z c s' in
      if (0 <=? r)%Z then r else if Ascii.eqb a c then i else (-1)%Z
  end.

Definition rfind (c : ascii) (s : list ascii) : Z := rfind_from 0%Z c s.

(** [os.path.splitext] (posixpath: separator [/], extension separator [.];
    leading dots of the last component are no extension). *)
Definition splitext (p : list ascii) : list ascii * list ascii :=
  let sepIndex := rfind (ascii_of_nat 47) p in
  let dotIndex := rfind (ascii_of_nat 46) p in
  if (sepIndex <? dotIndex)%Z then
    let filenameIndex := Z.to_nat (sepIndex + 1) in
    let stem := firstn (Z.to_nat dotIndex - filenameIndex) (skipn filenameIndex p) in
    if existsb (fun ch => negb (Ascii.eqb ch (ascii_of_nat 46))) stem
    then (firstn (Z.to_nat dotIndex) p, skipn (Z.to_nat dotIndex) p)
    else (p, [])
  else (p, []).

(** Iterating over a text file, and [file.readlines()]: the lines, each with
    its terminating [nl] (the last one may have none). *)
Fixpoint readlines (s : list ascii) : list (list ascii) :=
  match s with
  | [] => []
  | c :: s' =>
      if Ascii.eqb c nl then [c] :: readlines s'
      else match readlines s' with
           | [] => [[c]]
           | l :: ls => (c :: l) :: ls
           end
  end.

(** [file.writelines(lines)] and [file.write(text)] both store the
    concatenation. *)
Definition writelines (lines : list (list ascii)) : list ascii := concat lines.

(** [str(n)] for an [int]. *)
Definition str_of_int (n : Z) : list ascii :=
  lit (NilZero.string_of_int (Z.to_int n)).

(** [re.sub(pattern, repl, text)].  The fragment modelled here: a pattern
    whose characters are ordinary ones or the wildcard [.] (any character
    but a newline), and a replacement without a backslash.  Such a pattern
    matches exactly [length pattern] characters, so the scan is: at each
    position, left to right, replace a match and resume after it, else copy
    one character.  Outside the fragment the library is left abstract (the
    argument [general]). *)
Definition is_meta (c : ascii) : bool :=
  existsb (Ascii.eqb c) (lit "^$*+?{}[]\|()").

Definition pattern_modelled (pat : list ascii) : bool :=
  negb (existsb is_meta pat) && negb (Nat.eqb (length pat) 0).

Definition repl_modelled (repl : list ascii) : bool :=
  negb (existsb (Ascii.eqb (ascii_of_nat 92)) repl).

Fixpoint match_here (pat s : list ascii) : bool :=
  match pat, s with
  | [], _ => true
  | _ :: _, [] => false
  | p :: pat', c :: s' =>
      (if Ascii.eqb p (ascii_of_nat 46) then negb (Ascii.eqb c nl) else Ascii.eqb p c)
      && match_here pat' s'
  end.

(** [skip] counts the characters of a match still to be dropped. *)
Fixpoint sub_scan (pat repl : list ascii) (skip : nat) (s : list ascii) : list ascii :=
  match s with
  | [] => []
  | c :: s' =>
      match skip with
      | S k => sub_scan pat repl k s'
      | O =>
          if match_here pat s
          then repl ++ sub_scan pat repl (length pat - 1) s'
          else c :: sub_scan pat repl 0 s'
      end
  end.

Definition re_sub (general : list ascii -> list ascii -> list ascii -> list ascii)
    (pat repl s : list ascii) : list ascii :=
  if pattern_modelled pat && repl_modelled repl
  then sub_scan pat repl 0 s
  else general pat repl s.

(** [datetime.datetime.strptime(s, "%Y-%m-%d")]: the regular expression the
    library builds for this format is
    [(\d\d\d\d)-(1[0-2]|0[1-9]|[1-9])-(3[0-1]|[1-2]\d|0[1-9]|[1-9]| [1-9])],
    matched at the start; text left over, and a day the month does not
    have, raise [ValueError].  [None] stands for that exception. *)
Definition digit (c : ascii) : option Z :=
  let n := nat_of_ascii c in
  if (48 <=? n) && (n <=? 57) then Some (Z.of_nat (n - 48)) else None.

Definition in_range (lo hi : Z) (d : option Z) : option Z :=
  match d with
  | Some v => if (lo <=? v)%Z && (v <=? hi)%Z then Some v else None
  | None => None
  end.

(** The month group: its value and the text after it. *)
Definition parse_month (s : list ascii) : option (Z * list ascii) :=
  match s with
  | a :: b :: r =>
      match digit a, digit b with
      | Some 1%Z, Some v => if (v <=? 2)%Z then Some (10 + v, r)%Z else Some (1%Z, b :: r)
      | Some 0%Z, Some v => if (1 <=? v)%Z then Some (v, r) else None
      | Some u, _ => if (1 <=? u)%Z then Some (u, b :: r) else None
      | None, _ => None
      end
  | [a] => match in_range 1 9 (digit a) with Some u => Some (u, []) | None => None end
  | [] => None
  end.

(** The day group, the alternatives in the order the library tries them. *)
Definition parse_day (s : list ascii) : option (Z * list ascii) :=
  let one :=
    match s with
    | a :: r => match in_range 1 9 (digit a) with Some u => Some (u, r) | None => None end
    | [] => None
    end in
  match s with
  | a :: b :: r =>
      match digit a, digit b with
      | Some 3%Z, Some v => if (v <=? 1)%Z then Some (30 + v, r)%Z else one
      | Some 1%Z, Some v => Some (10 + v, r)%Z
      | Some 2%Z, Some v => Some (20 + v, r)%Z
      | Some 0%Z, Some v => if (1 <=? v)%Z then Some (v, r) else one
      | Some _, _ => one
      | None, Some v => if Ascii.eqb a sp && (1 <=? v)%Z then Some (v, r) else None
      | None, None => None
      end
  | _ => one
  end.

Definition is_leap (y : Z) : bool :=
  (y mod 4 =? 0)%Z && (negb (y mod 100 =? 0)%Z || (y mod 400 =? 0)%Z).

Definition days_in_month (y m : Z) : Z :=
  if (m =? 2)%Z then (if is_leap y then 29 else 28)%Z
  else if (m =? 4)%Z || (m =? 6)%Z || (m =? 9)%Z || (m =? 11)%Z then 30%Z
  else 31%Z.

Fixpoint days_before_month (y : Z) (m : nat) : Z :=
  match m with
  | O => 0%Z
  | S k => (days_before_month y k + days_in_month y (Z.of_nat m))%Z
  end.

Record date := { tm_year : Z; tm_mon : Z; tm_mday : Z }.

Definition strptime_ymd (s : list ascii) : option date :=
  match s with
  | y1 :: y2 :: y3 :: y4 :: dash1 :: r1 =>
      match digit y1, digit y2, digit y3, digit y4 with
      | Some a, Some b, Some c, Some d =>
          let y := (1000 * a + 100 * b + 10 * c + d)%Z in
          if negb (Ascii.eqb dash1 (ascii_of_nat 45)) then None else
          match parse_month r1 with
          | Some (m, dash2 :: r2) =>
              if negb (Ascii.eqb dash2 (ascii_of_nat 45)) then None else
              match parse_day r2 with
              | Some (dd, []) =>
                  if (1 <=? y)%Z && (dd <=? days_in_month y m)%Z
                  then Some {| tm_year := y; tm_mon := m; tm_mday := dd |}
                  else None
              | _ => None
              end
          | _ => None
          end
      | _, _, _, _ => None
      end
  | _ => None
  end.

(** [d.timetuple().tm_yday]. *)
Definition tm_yday (d : date) : Z :=
  (days_before_month (tm_year d) (Z.to_nat (tm_mon d) - 1) + tm_mday d)%Z.

End Py.

(** ** The world a method runs in: exceptions, the file system, the monad *)

Module Os.
Import Py.

(** The exceptions the source raises or lets through.  [TypeError] carries
    the message of the source; [ExternalError] is whatever a collaborator
    outside this file raises. *)
Inductive exn :=
| TypeError (msg : string)
| FileNotFoundError
| FileExistsError
| NotADirectoryError
| IsADirectoryError
| IndexError
| ValueError
| AttributeError
| ExternalError (code : nat).

Inductive result (A : Type) :=
| Ok (a : A)
| Raise (e : exn).
Arguments Ok {A} a.
Arguments Raise {A} e.

Inductive node :=
| File (content : list ascii)
| Dir.

(** [fs]: the entries of the file system by path (the root [[]] is a
    directory and is not stored); [rng]: how many names [tempfile] has
    drawn; [cwd]: the working directory; [stdout]: the lines printed. *)
Record World := mkWorld {
  fs : gmap (list (list ascii)) node;
  rng : nat;
  cwd : list (list ascii);
  stdout : list (list ascii)
}.

Definition M (A : Type) : Type := World -> result A * World.

Definition ret {A} (a : A) : M A := fun w => (Ok a, w).

Definition raise {A} (e : exn) : M A := fun w => (Raise e, w).

Definition bind {A B} (m : M A) (k : A -> M B) : M B :=
  fun w =>
    match m w with
    | (Ok a, w') => k a w'
    | (Raise e, w') => (Raise e, w')
    end.

Notation "'do' x <- m ; k" := (bind m (fun x => k))
  (at level 10, x name, m at level 100, k at level 200).
Notation "m ;; k" := (bind m (fun _ => k))
  (at level 100, k at level 200, right associativity).

(** [try: m except E: h]: [handler e] is [Some h] when the clause catches
    [e]. *)
Definition try_except {A} (m : M A) (handler : exn -> option (M A)) : M A :=
  fun w =>
    match m w with
    | (Ok a, w') => (Ok a, w')
    | (Raise e, w') =>
        match handler e with
        | Some h => h w'
        | None => (Raise e, w')
        end
    end.

(** A [for] loop whose body returns nothing, and one that updates local
    variables [s]. *)
Fixpoint for_each {A} (l : list A) (body : A -> M unit) : M unit :=
  match l with
  | [] => ret tt
  | x :: l' => body x ;; for_each l' body
  end.

Fixpoint for_fold {A S} (l : list A) (s : S) (body : S -> A -> M S) : M S :=
  match l with
  | [] => ret s
  | x :: l' => do s' <- body s x ; for_fold l' s' body
  end.

Definition get_fs : M (gmap (list (list ascii)) node) := fun w => (Ok (fs w), w).

Definition put_fs (f : gmap (list (list ascii)) node) : M unit :=
  fun w => (Ok tt, mkWorld f (rng w) (cwd w) (stdout w)).

Definition print (line : list ascii) : M unit :=
  fun w => (Ok tt, mkWorld (fs w) (rng w) (cwd w) (stdout w ++ [line])).

(** *** Paths and lookups *)

Definition stat (f : gmap (list (list ascii)) node) (p : list (list ascii)) : option node :=
  match p with
  | [] => Some Dir
  | _ => f !! p
  end.

Definition isdir (f : gmap (list (list ascii)) node) (p : list (list ascii)) : bool :=
  match stat f p with Some Dir => true | _ => false end.

Definition isfile (f : gmap (list (list ascii)) node) (p : list (list ascii)) : bool :=
  match stat f p with Some (File _) => true | _ => false end.

Definition exists_ (f : gmap (list (list ascii)) node) (p : list (list ascii)) : bool :=
  match stat f p with Some _ => true | None => false end.

(** The error of resolving the directories [pre/n1], [pre/n1/n2], ... that
    lead to an entry: a missing one is [FileNotFoundError], a regular file
    in the way is [NotADirectoryError]. *)
Fixpoint check_dirs (f : gmap (list (list ascii)) node) (pre rest : list (list ascii))
  : option exn :=
  match rest with
  | [] => None
  | n :: rest' =>
      match f !! (pre ++ [n]) with
      | None => Some FileNotFoundError
      | Some (File _) => Some NotADirectoryError
      | Some Dir => check_dirs f (pre ++ [n]) rest'
      end
  end.

Definition parent (p : list (list ascii)) : list (list ascii) := removelast p.

(** The name [n] when [q] is [p/n]. *)
Fixpoint child_name (p q : list (list ascii)) : option (list ascii) :=
  match p, q with
  | [], [n] => Some n
  | a :: p', b :: q' => if decide (a = b) then child_name p' q' else None
  | _, _ => None
  end.

(** *** os and shutil *)

(** [os.listdir(p)], in the order the file system yields the entries. *)
Definition listdir (p : list (list ascii)) : M (list (list ascii)) :=
  do f <- get_fs ;
  match check_dirs f [] p with
  | Some e => raise e
  | None => ret (omap (fun '(q, _) => child_name p q) (map_to_list f))
  end.

(** [os.mkdir(p)]. *)
Definition mkdir (p : list (list ascii)) : M unit :=
  do f <- get_fs ;
  match check_dirs f [] (parent p) with
  | Some e => raise e
  | None => if exists_ f p then raise FileExistsError else put_fs (<[p := Dir]> f)
  end.

(** [os.makedirs(name, exist_ok=True)], by recursion on the reversed path as
    the library recurses on [head]:
    [[
      head, tail = path.split(name)
      if head and tail and not path.exists(head):
          try: makedirs(head, exist_ok=exist_ok)
          except FileExistsError: pass
      try: mkdir(name, mode)
      except OSError:
          if not exist_ok or not path.isdir(name): raise
    ]] *)
Fixpoint makedirs_rev (rname : list (list ascii)) : M unit :=
  let name := rev rname in
  (match rname with
   | [] => ret tt
   | _ :: rhead =>
       do f <- get_fs ;
       if negb (exists_ f (rev rhead))
       then try_except (makedirs_rev rhead)
              (fun e => match e with FileExistsError => Some (ret tt) | _ => None end)
       else ret tt
   end) ;;
  try_except (mkdir name)
    (fun e => Some (do f <- get_fs ; if isdir f name then ret tt else raise e)).

Definition makedirs (name : list (list ascii)) : M unit := makedirs_rev (rev name).

(** [os.remove(p)]. *)
Definition remove (p : list (list ascii)) : M unit :=
  do f <- get_fs ;
  match check_dirs f [] (parent p) with
  | Some e => raise e
  | None =>
      match stat f p with
      | None => raise FileNotFoundError
      | Some Dir => raise IsADirectoryError
      | Some (File _) => put_fs (delete p f)
      end
  end.

(** Reading and writing a whole text file: [open(p).read()] and
    [open(p, "w").write(text)]. *)
Definition read_text (p : list (list ascii)) : M (list ascii) :=
  do f <- get_fs ;
  match check_dirs f [] (parent p) with
  | Some e => raise e
  | None =>
      match stat f p with
      | None => raise FileNotFoundError
      | Some Dir => raise IsADirectoryError
      | Some (File c) => ret c
      end
  end.

Definition write_text (p : list (list ascii)) (text : list ascii) : M unit :=
  do f <- get_fs ;
  match check_dirs f [] (parent p) with
  | Some e => raise e
  | None =>
      match stat f p with
      | Some Dir => raise IsADirectoryError
      | _ => put_fs (<[p := File text]> f)
      end
  end.

(** [PurePosixPath(p) / s] for a string [s]: the components of [s], cut at
    [/] and without the empty ones and the [.] ones, are appended to those
    of [p]; a string that starts with [/] is absolute and replaces [p] (two
    leading slashes, which the system may read in its own way, are read as
    one).  A component [..] is kept. *)
Definition path_parts (s : list ascii) : list (list ascii) :=
  List.filter
    (fun c => negb (Nat.eqb (length c) 0)
              && negb (if decide (c = lit ".") then true else false))
    (split_on (ascii_of_nat 47) s).

Definition truediv (p : list (list ascii)) (s : list ascii) : list (list ascii) :=
  if startswith (lit "/") s then path_parts s else p ++ path_parts s.

(** The entry that the components [rest] lead to from the directory [cur],
    as the system follows them when it opens a path: [..] leaves the
    directory reached (the root is its own parent), and every other
    component but the last must name a directory. *)
Fixpoint resolve (f : gmap (list (list ascii)) node) (cur rest : list (list ascii))
  : result (list (list ascii)) :=
  match rest with
  | [] => Ok cur
  | c :: rest' =>
      if decide (c = lit "..") then resolve f (parent cur) rest'
      else
        match rest' with
        | [] => Ok (cur ++ [c])
        | _ :: _ =>
            match f !! (cur ++ [c]) with
            | None => Raise FileNotFoundError
            | Some (File _) => Raise NotADirectoryError
            | Some Dir => resolve f (cur ++ [c]) rest'
            end
        end
  end.

(** [open(p).read()] and [open(p, "w").write(text)] for a path made from a
    string of the caller, which may hold [..] components. *)
Definition open_read (p : list (list ascii)) : M (list ascii) :=
  do f <- get_fs ;
  match resolve f [] p with
  | Raise e => raise e
  | Ok q => read_text q
  end.

Definition open_write (p : list (list ascii)) (text : list ascii) : M unit :=
  do f <- get_fs ;
  match resolve f [] p with
  | Raise e => raise e
  | Ok q => write_text q text
  end.

(** [shutil.copy2(src, dst)]: into [dst/basename(src)] when [dst] is a
    directory. *)
Definition copy2 (src dst : list (list ascii)) : M unit :=
  do f <- get_fs ;
  let dst' := if isdir f dst then dst ++ [List.last src []] else dst in
  do text <- read_text src ;
  write_text dst' text.

(** [tempfile.mkdtemp(dir=d)]: up to [TMP_MAX] candidate names
    [tmp<random>], the first that [os.mkdir] accepts wins; an existing name
    is skipped, any other error is raised.  [candidate k] is the [k]-th name
    the generator draws. *)
Definition TMP_MAX : nat := 100 * 100.

Definition next_name (candidate : nat -> list ascii) : M (list ascii) :=
  fun w => (Ok (lit "tmp" ++ candidate (rng w)),
            mkWorld (fs w) (S (rng w)) (cwd w) (stdout w)).

Fixpoint mkdtemp_loop (candidate : nat -> list ascii) (tries : nat)
    (d : list (list ascii)) : M (list (list ascii)) :=
  match tries with
  | O => raise FileExistsError
  | S tries' =>
      do name <- next_name candidate ;
      let file := d ++ [name] in
      try_except (mkdir file ;; ret file)
        (fun e => match e with
                  | FileExistsError => Some (mkdtemp_loop candidate tries' d)
                  | _ => None
                  end)
  end.

Definition mkdtemp (candidate : nat -> list ascii) (tempdir : list (list ascii))
    (d : option (list (list ascii))) : M (list (list ascii)) :=
  mkdtemp_loop candidate TMP_MAX (match d with Some p => p | None => tempdir end).

(** [os.chdir(p)]. *)
Definition chdir (p : list (list ascii)) : M unit :=
  fun w =>
    match check_dirs (fs w) [] p with
    | Some e => (Raise e, w)
    | None => (Ok tt, mkWorld (fs w) (rng w) p (stdout w))
    end.

End Os.

(** ** The class [TxtinoutReader] *)

Module TxtinoutReader.
Import Py Os.

(** What the class uses and this file does not define: the values a
    parameter edit or a template token carries and their [str()], the part
    of [re.sub] outside the modelled fragment, the names [tempfile] draws
    and its default directory, [multiprocessing.cpu_count()], the tabular
    file reader [pySWATPlus.FileReader] with the data-frame assignments the
    source performs on it, and the simulation executable started by
    [subprocess.Popen], which yields the lines it writes to its output. *)
Class Externals := {
  Value : Type;
  py_str : Value -> list ascii;
  re_general : list ascii -> list ascii -> list ascii -> list ascii;
  tmp_candidate : nat -> list ascii;
  gettempdir : list (list ascii);
  cpu_count : Z;
  Table : Type;
  FileReader : list (list ascii) -> bool -> list ascii -> M Table;
  df_setitem : Table -> list ascii -> Value -> M Table;
  df_loc_setitem : Table -> list ascii -> list ascii -> Value -> M Table;
  overwrite_file : Table -> M unit;
  Popen : list (list ascii) -> M (list (list ascii))
}.

(** The attributes of an instance. *)
Record reader := mkReader {
  root_folder : list (list ascii);
  swat_exe_path : list (list ascii)
}.

(** An element of the list [elements] of [set_simulation_time]: the fields
    read are strings, the values stored are integers. *)
Inductive pyval :=
| PStr (s : list ascii)
| PInt (n : Z).

Definition format_value (v : pyval) : list ascii :=
  match v with
  | PStr s => s
  | PInt n => str_of_int n
  end.

(** [l[i] = v] on a list: [IndexError] out of range. *)
Definition setitem {A} (l : list A) (i : nat) (v : A) : M (list A) :=
  if i <? length l then ret (<[i := v]> l) else raise IndexError.

(** [l[i]] on a list. *)
Definition getitem {A} (l : list A) (i : nat) : M A :=
  match l !! i with
  | Some x => ret x
  | None => raise IndexError
  end.

(** The argument [tpl_params] of [run_swat]: a dictionary from template file
    names to token dictionaries, or the boolean that [copy_and_run_star]
    passes in that position. *)
Inductive tpl_arg {V : Type} :=
| TplDict (d : list (list ascii * list (list ascii * V)))
| TplBool (b : bool).
Arguments tpl_arg V : clear implicits.

Definition truthy {V} (t : tpl_arg V) : bool :=
  match t with
  | TplDict d => negb (Nat.eqb (length d) 0)
  | TplBool b => b
  end.

(** Modelled from the spec: the distributed executor ([dask.distributed.Client]
    in the source), whose contract is [map(fn, taskList) -> FutureList] and
    [gather(FutureList) -> OrderedResultList].  A client is given by the
    order in which its workers take the [n] submitted tasks, [completion n];
    a task runs to its end before the next one starts. *)
Record Client := mkClient { completion : nat -> list nat }.

(** A future: the outcome of its task once the task has run. *)
Definition client_map {T R} (c : Client) (fn : T -> M R) (items : list T)
  : M (list (option (result R))) :=
  do done <- for_fold (completion c (length items)) []
      (fun (done : list (nat * result R)) (i : nat) =>
         match items !! i with
         | None => ret done
         | Some t =>
             fun w => let '(r, w') := fn t w in (Ok (done ++ [(i, r)]), w')
         end) ;
  ret (map (fun i => snd <$> List.find (fun d => Nat.eqb (fst d) i) done)
           (seq 0 (length items))).

(** [gather] hands the results back in the order of the futures, and raises
    the exception of the first task that failed. *)
Definition client_gather {R} (futures : list (option (result R))) : M (list R) :=
  for_fold futures []
    (fun (results : list R) (future : option (result R)) =>
       match future with
       | Some (Ok r) => ret (results ++ [r])
       | Some (Raise e) => raise e
       | None => raise (ExternalError 0)
       end).

Section Methods.
Context `{Externals}.

(** [__init__(self, path)] *)
Definition __init__ (path : list (list ascii)) : M reader :=
  do f <- get_fs ;
  if negb (isdir f path) then raise FileNotFoundError else
  do files <- listdir path ;
  do found <- for_fold files (0, None)
      (fun '(count, swat_exe) file =>
         if endswith (lit ".exe") file then
           (if count =? 0 then ret (S count, Some file)
            else raise (TypeError "More than one .exe file found in the parent folder"))
         else ret (count, swat_exe)) ;
  let '(count, swat_exe) := found in
  if count =? 0 then raise (TypeError ".exe not found in parent folder") else
  match swat_exe with
  | Some exe => ret (mkReader path (path ++ [exe]))
  | None => raise (TypeError "unsupported operand type(s) for /")
  end.

(** [_build_line_to_add(self, obj, daily, monthly, yearly, avann)] *)
Definition _build_line_to_add (obj : list ascii) (daily monthly yearly avann : bool)
  : list ascii :=
  let print_periodicity :=
    [(lit "daily", daily); (lit "monthly", monthly);
     (lit "yearly", yearly); (lit "avann", avann)] in
  let arg_to_add :=
    fold_left
      (fun arg_to_add value =>
         let periodicity := if (value : bool) then lit "y" else lit "n" in
         arg_to_add ++ ljust 14 periodicity)
      (map snd print_periodicity) (ljust 29 obj) in
  rstrip arg_to_add ++ [nl].

(** The object named by [obj]: [obj] itself, or what stands before its last
    underscore when [obj] is a file name. *)
Definition object_name (obj : list ascii) : list ascii :=
  match snd (splitext obj) with
  | [] => obj
  | _ => rsplit1_head (ascii_of_nat 95) obj
  end.

(** The loop of [enable_object_in_print_prt] over the lines of the file,
    with its variables [new_print_prt] and [found]. *)
Definition scan_print_prt (arg_to_add : list ascii) (daily monthly yearly avann : bool)
    (lines : list (list ascii)) : list ascii * bool :=
  fold_left
    (fun '(new_print_prt, found) line =>
       if negb (startswith (arg_to_add ++ [sp]) line)
       then (new_print_prt ++ line, found)
       else (new_print_prt ++ _build_line_to_add arg_to_add daily monthly yearly avann,
             true))
    lines ([], false).

(** [enable_object_in_print_prt(self, obj, daily, monthly, yearly, avann)] *)
Definition enable_object_in_print_prt (self : reader) (obj : list ascii)
    (daily monthly yearly avann : bool) : M unit :=
  let arg_to_add := object_name obj in
  let print_prt_path := root_folder self ++ [lit "print.prt"] in
  do text <- read_text print_prt_path ;
  let '(new_print_prt, found) :=
    scan_print_prt arg_to_add daily monthly yearly avann (readlines text) in
  let new_print_prt :=
    if negb found
    then new_print_prt ++ _build_line_to_add arg_to_add daily monthly yearly avann
    else new_print_prt in
  write_text print_prt_path new_print_prt.

(** The format string of [set_simulation_time] applied to [elements]. *)
Definition format_time_sim (elements : list pyval) : M (list ascii) :=
  match elements with
  | e0 :: e1 :: e2 :: e3 :: e4 :: _ =>
      ret (rjust 8 (format_value e0) ++ [sp] ++ rjust 10 (format_value e1) ++ [sp]
           ++ rjust 10 (format_value e2) ++ [sp] ++ rjust 10 (format_value e3) ++ [sp]
           ++ rjust 10 (format_value e4) ++ [sp] ++ [nl])
  | _ => raise IndexError
  end.

Definition strptime (s : list ascii) : M date :=
  match strptime_ymd s with
  | Some d => ret d
  | None => raise ValueError
  end.

(** [set_simulation_time(self, start_date, end_date, step)] *)
Definition set_simulation_time (self : reader) (start_date end_date : list ascii)
    (step : Z) : M unit :=
  let nth_line := 3 in
  let time_sim_path := root_folder self ++ [lit "time.sim"] in
  do start <- strptime start_date ;
  do end_ <- strptime end_date ;
  let day_start := tm_yday start in
  let year_start := tm_year start in
  let day_end := tm_yday end_ in
  let year_end := tm_year end_ in
  do text <- read_text time_sim_path ;
  let lines := readlines text in
  do year_line <- getitem lines (nth_line - 1) ;
  let elements := map PStr (split year_line) in
  do elements <- setitem elements 0 (PInt day_start) ;
  do elements <- setitem elements 1 (PInt year_start) ;
  do elements <- setitem elements 2 (PInt day_end) ;
  do elements <- setitem elements 3 (PInt year_end) ;
  do elements <- setitem elements 4 (PInt step) ;
  do result_string <- format_time_sim elements ;
  do lines <- setitem lines (nth_line - 1) result_string ;
  write_text time_sim_path (writelines lines).

(** The format string of [set_print_time] applied to [elements]. *)
Definition format_print_time (elements : list pyval) : M (list ascii) :=
  match elements with
  | e0 :: e1 :: e2 :: e3 :: e4 :: e5 :: _ =>
      ret (ljust 12 (format_value e0) ++ [sp] ++ ljust 11 (format_value e1) ++ [sp]
           ++ ljust 11 (format_value e2) ++ [sp] ++ ljust 10 (format_value e3) ++ [sp]
           ++ ljust 10 (format_value e4) ++ [sp] ++ ljust 10 (format_value e5) ++ [sp]
           ++ [nl])
  | _ => raise IndexError
  end.

(** The truth value of an optional string: [None] and [""] are false. *)
Definition str_truthy (s : option (list ascii)) : bool :=
  match s with
  | Some (_ :: _) => true
  | _ => false
  end.

Definition str_or_empty (s : option (list ascii)) : list ascii :=
  match s with
  | Some t => t
  | None => []
  end.

(** [set_print_time(self, start_date, end_date, warmup, interval)] *)
Definition set_print_time (self : reader) (start_date end_date : option (list ascii))
    (warmup interval : Z) : M unit :=
  let time_sim_path := root_folder self ++ [lit "print.prt"] in
  do text <- read_text time_sim_path ;
  let lines := readlines text in
  let nth_line := 3 in
  do year_line <- getitem lines (nth_line - 1) ;
  let elements := map PStr (split year_line) in
  do elements <- setitem elements 0 (PInt warmup) ;
  do elements <- setitem elements 5 (PInt interval) ;
  do elements <-
    (if str_truthy start_date && str_truthy end_date then
       do start <- strptime (str_or_empty start_date) ;
       do end_ <- strptime (str_or_empty end_date) ;
       let day_start := tm_yday start in
       let year_start := tm_year start in
       let day_end := tm_yday end_ in
       let year_end := tm_year end_ in
       do elements <- setitem elements 1 (PInt day_start) ;
       do elements <- setitem elements 2 (PInt year_start) ;
       do elements <- setitem elements 3 (PInt day_end) ;
       setitem elements 4 (PInt year_end)
     else
       do elements <- setitem elements 1 (PInt 0) ;
       do elements <- setitem elements 2 (PInt 0) ;
       do elements <- setitem elements 3 (PInt 0) ;
       setitem elements 4 (PInt 0)) ;
  do result_string <- format_print_time elements ;
  do lines <- setitem lines (nth_line - 1) result_string ;
  write_text time_sim_path (writelines lines).

(** [change_params(self, tpl_filename, params)] *)
Definition change_params (self : reader) (tpl_filename : list ascii)
    (params : list (list ascii * Value)) : M unit :=
  let new_filename := rsplit1_head (ascii_of_nat 46) tpl_filename in
  let tpl_path := truediv (root_folder self) tpl_filename in
  let new_path := truediv (root_folder self) new_filename in
  do text <- open_read tpl_path ;
  let lines := readlines text in
  let new_lines := concat lines in
  let new_lines :=
    fold_left
      (fun new_lines '(k, v) =>
         re_sub re_general (lit "#" ++ k ++ lit "#") (py_str v) new_lines)
      params new_lines in
  open_write new_path new_lines.

(** [_enable_disable_csv_print(self, enable)] *)
Definition _enable_disable_csv_print (self : reader) (enable : bool) : M unit :=
  let nth_line := 7 in
  let print_prt_path := root_folder self ++ [lit "print.prt"] in
  do text <- read_text print_prt_path ;
  let lines := readlines text in
  do lines <-
    (if enable
     then do line <- getitem lines (nth_line - 1) ;
          setitem lines (nth_line - 1) (lit "y" ++ drop 1 line)
     else do line <- getitem lines (nth_line - 1) ;
          setitem lines (nth_line - 1) (lit "n" ++ drop 1 line)) ;
  write_text print_prt_path (writelines lines).

Definition enable_csv_print (self : reader) : M unit :=
  _enable_disable_csv_print self true.

Definition disable_csv_print (self : reader) : M unit :=
  _enable_disable_csv_print self false.

(** [register_file(self, filename, has_units, index)] *)
Definition register_file (self : reader) (filename : list ascii) (has_units : bool)
    (index : list ascii) : M Table :=
  let file_path := truediv (root_folder self) filename in
  FileReader file_path has_units index.

(** The file names [copy_swat] leaves behind. *)
Definition is_output_file (file : list ascii) : bool :=
  endswith (lit "_aa.txt") file || endswith (lit "_aa.csv") file
  || endswith (lit "_yr.txt") file || endswith (lit "_yr.csv") file
  || endswith (lit "_day.txt") file || endswith (lit "_day.csv") file
  || endswith (lit "_mon.csv") file || endswith (lit "_mon.txt") file.

(** [str(e)] for an exception caught by [copy_swat]: the text it prints. *)
Definition str_of_exn (e : exn) : list ascii :=
  match e with
  | TypeError msg => lit msg
  | FileNotFoundError => lit "No such file or directory"
  | FileExistsError => lit "File exists"
  | NotADirectoryError => lit "Not a directory"
  | IsADirectoryError => lit "Is a directory"
  | IndexError => lit "list index out of range"
  | ValueError => lit "invalid value"
  | AttributeError => lit "object has no attribute"
  | ExternalError _ => lit "error"
  end.

(** A path argument that may be [None], where the library needs a path. *)
Definition as_path (dir : option (list (list ascii))) : M (list (list ascii)) :=
  match dir with
  | Some d => ret d
  | None => raise (TypeError "expected str, bytes or os.PathLike object, not NoneType")
  end.

Definition is_None {A} (o : option A) : bool :=
  match o with None => true | Some _ => false end.

(** [copy_swat(self, dir, overwrite)] *)
Definition copy_swat (self : reader) (dir : option (list (list ascii)))
    (overwrite : bool) : M (list (list ascii)) :=
  do temp_folder_path <-
    (if is_None dir || (negb overwrite && negb (is_None dir)) then
       try_except (mkdtemp tmp_candidate gettempdir dir)
         (fun e =>
            match e with
            | FileNotFoundError =>
                Some (do d <- as_path dir ;
                      makedirs d ;;
                      mkdtemp tmp_candidate gettempdir dir)
            | _ => None
            end)
     else if overwrite then
       do d <- as_path dir ;
       do f <- get_fs ;
       if isdir f d then
         do files <- listdir d ;
         for_each files
           (fun file =>
              let file_path := d ++ [file] in
              try_except
                (do f <- get_fs ;
                 if isfile f file_path then remove file_path else ret tt)
                (fun e => Some (print (str_of_exn e)))) ;;
         ret d
       else
         makedirs d ;;
         ret d
     else
       do d <- as_path dir ;
       do f <- get_fs ;
       if negb (isdir f d) then
         (if isfile f d then raise (TypeError "dir must be a folder") else ret tt) ;;
         makedirs d ;;
         ret d
       else raise (TypeError "option not recognized")) ;
  let source_folder := root_folder self in
  do files <- listdir source_folder ;
  for_each files
    (fun file =>
       if negb (is_output_file file) then
         let source_file := source_folder ++ [file] in
         let destination_file := temp_folder_path ++ [file] in
         copy2 source_file destination_file
       else ret tt) ;;
  ret temp_folder_path.

(** [_run_swat(self, show_output)]: the lines of the process are decoded as
    latin-1 (every byte decodes), stripped, and printed when not empty. *)
Definition _run_swat (self : reader) (show_output : bool) : M unit :=
  let swat_exe_path := swat_exe_path self in
  chdir (root_folder self) ;;
  do output_lines <- Popen swat_exe_path ;
  for_each output_lines
    (fun raw_output =>
       let output := strip raw_output in
       if negb (Nat.eqb (length output) 0) && show_output then print output else ret tt).

(** [run_swat(self, params, tpl_params, show_output)]; [params] maps a file
    name to [(id_col, [(id, col_name, value); ...])]. *)
Definition run_swat (self : reader)
    (params : list (list ascii * (list ascii * list (option (list ascii) * list ascii * Value))))
    (tpl_params : tpl_arg Value) (show_output : bool) : M (list (list ascii)) :=
  do aux_txtinout <- __init__ (root_folder self) ;
  for_each params
    (fun '(filename, (id_col, file_mods)) =>
       do file <- register_file aux_txtinout filename false id_col ;
       do file <- for_fold file_mods file
           (fun file '(id, col_name, value) =>
              match id with
              | None => df_setitem file col_name value
              | Some i => df_loc_setitem file i col_name value
              end) ;
       overwrite_file file) ;;
  (if truthy tpl_params then
     match tpl_params with
     | TplDict d =>
         for_each d (fun '(tpl_file, tpl_par) => change_params self tpl_file tpl_par)
     | TplBool _ => raise AttributeError
     end
   else ret tt) ;;
  _run_swat aux_txtinout show_output ;;
  ret (root_folder self).

(** [run_swat_star(self, args)] is [self.run_swat( *args)]: the two elements
    of [args] are bound to [params] and [tpl_params]; [show_output] keeps
    its default, [True]. *)
Definition run_swat_star (self : reader)
    (args : list (list ascii * (list ascii * list (option (list ascii) * list ascii * Value)))
            * bool) : M (list (list ascii)) :=
  let '(a0, a1) := args in
  run_swat self a0 (TplBool a1) true.

(** [copy_and_run(self, dir, overwrite, params, tpl_params, show_output)] *)
Definition copy_and_run (self : reader) (dir : option (list (list ascii)))
    (overwrite : bool)
    (params : list (list ascii * (list ascii * list (option (list ascii) * list ascii * Value))))
    (tpl_params : tpl_arg Value) (show_output : bool) : M (list (list ascii)) :=
  do tmp_path <- copy_swat self dir overwrite ;
  do reader <- __init__ tmp_path ;
  run_swat reader params tpl_params show_output.

(** [copy_and_run_star(self, args)] is [self.copy_and_run( *args)]: the four
    elements of [args] are bound to the first four parameters, [dir],
    [overwrite], [params] and [tpl_params]; [show_output] keeps its default,
    [True]. *)
Definition copy_and_run_star (self : reader)
    (args : option (list (list ascii)) * bool
            * list (list ascii * (list ascii * list (option (list ascii) * list ascii * Value)))
            * bool) : M (list (list ascii)) :=
  let '(a0, a1, a2, a3) := args in
  copy_and_run self a0 a1 a2 (TplBool a3) true.

(** [run_parallel_swat(self, params, n_workers, dir, client)].  The progress
    bar of the local loop writes to the error stream, which is not part of
    the world.  The executor path builds [items] twice, as the source does. *)
Definition run_parallel_swat (self : reader)
    (params : list (list (list ascii * (list ascii * list (option (list ascii) * list ascii * Value)))))
    (n_workers : Z) (dir : option (list (list ascii))) (client : option Client)
  : M (list (list (list ascii))) :=
  let max_treads := cpu_count in
  let threads := Z.max (Z.min n_workers max_treads) 1 in
  match client with
  | None =>
      for_fold (seq 0 (length params)) []
        (fun results_ret i =>
           do p <- getitem params i ;
           do r <- copy_and_run self dir false p (TplDict []) false ;
           ret (results_ret ++ [r]))
  | Some c =>
      do items <- for_fold (seq 0 (length params)) []
          (fun items i => do p <- getitem params i ; ret (items ++ [(dir, false, p, false)])) ;
      do items <- for_fold (seq 0 (length params)) []
          (fun items i => do p <- getitem params i ; ret (items ++ [(dir, false, p, false)])) ;
      do futures <- client_map c (copy_and_run_star self) items ;
      do results <- client_gather futures ;
      ret results
  end.

End Methods.

End TxtinoutReader.

(** ** Vocabulary of the statements *)

Import Py Os TxtinoutReader.

(** The flag character of a print line. *)
Definition yn (b : bool) : ascii :=
  if b then ascii_of_nat 121 else ascii_of_nat 110.

(** [p] is a regular file of [w] that can be opened, and holds [text]. *)
Definition holds_text (w : World) (p : list (list ascii)) (text : list ascii) : Prop :=
  check_dirs (fs w) [] (parent p) = None /\ stat (fs w) p = Some (File text).

(** The world after [text] has been written to the file [p]. *)
Definition set_file (p : list (list ascii)) (text : list ascii) (w : World) : World :=
  mkWorld (<[p := File text]> (fs w)) (rng w) (cwd w) (stdout w).

Definition print_prt_path (self : reader) : list (list ascii) :=
  root_folder self ++ [lit "print.prt"].

Definition time_sim_path (self : reader) : list (list ascii) :=
  root_folder self ++ [lit "time.sim"].

(** A line of the print configuration carries the object [o]: the test of
    the source. *)
Definition carries (o line : list ascii) : bool :=
  startswith (o ++ [sp]) line.

(** A line that ends in its newline, and a last line that has none. *)
Definition complete (l : list ascii) : Prop :=
  exists b, l = b ++ [nl] /\ nl ∉ b.

Definition unterminated (l : list ascii) : Prop :=
  l <> [] /\ nl ∉ l.

(** The lines of a text file: all complete, but possibly the last. *)
Inductive proper : list (list ascii) -> Prop :=
| proper_nil : proper []
| proper_last l : unterminated l -> proper [l]
| proper_cons l ls : complete l -> proper ls -> proper (l :: ls).

(** What [enable_object_in_print_prt] writes, line by line. *)
Definition patched_lines (o : list ascii) (daily monthly yearly avann : bool)
    (lines : list (list ascii)) : list (list ascii) :=
  map (fun l => if carries o l then _build_line_to_add o daily monthly yearly avann else l)
      lines
  ++ (if existsb (carries o) lines then []
      else [_build_line_to_add o daily monthly yearly avann]).

(** The indices, counted from [k], of the lines that carry [o]. *)
Fixpoint carriers_from (k : nat) (o : list ascii) (lines : list (list ascii)) : list nat :=
  match lines with
  | [] => []
  | l :: lines' =>
      if carries o l then k :: carriers_from (S k) o lines'
      else carriers_from (S k) o lines'
  end.

(** A workspace [/ws] for the examples: the executable and the given text
    files. *)
Definition ex_self : reader := mkReader [lit "ws"] [lit "ws"; lit "swat.exe"].

Definition ex_fs (files : list (list ascii * list ascii)) : gmap (list (list ascii)) node :=
  list_to_map
    (([lit "ws"], Dir) :: ([lit "ws"; lit "swat.exe"], File (lit "MZ"))
     :: map (fun '(n, t) => ([lit "ws"; n], File t)) files).

Definition ex_world (files : list (list ascii * list ascii)) : World :=
  mkWorld (ex_fs files) 0 [] [].

(** Lines joined with newlines, for writing example files. *)
Definition unlines (ls : list string) : list ascii :=
  concat (map (fun l => lit l ++ [nl]) ls).

(** The collaborators of the examples: a value is given by its [str()],
    the tabular reader and the executable do nothing but succeed. *)
Definition ex_externals : Externals := {|
  Value := list ascii;
  py_str := fun v => v;
  re_general := fun _ _ s => s;
  tmp_candidate := fun k => str_of_int (Z.of_nat k);
  gettempdir := [lit "tmp"];
  cpu_count := 4%Z;
  Table := unit;
  FileReader := fun _ _ _ => ret tt;
  df_setitem := fun t _ _ => ret t;
  df_loc_setitem := fun t _ _ _ => ret t;
  overwrite_file := fun _ => ret tt;
  Popen := fun _ => ret [lit "Execution successfully completed"]
|}.

(** [pat] occurs in [s]. *)
Definition occurs (pat s : list ascii) : Prop :=
  exists a b, s = a ++ pat ++ b.

(** [Replaced pat repl s s']: [s'] is [s] with the occurrences of [pat],
    taken from left to right, each replaced by [repl], and nothing else
    changed.  In [Replaced_first] the occurrence after [pre] is the
    leftmost one of [pre ++ pat ++ rest]. *)
Inductive Replaced (pat repl : list ascii) : list ascii -> list ascii -> Prop :=
| Replaced_none s : ~ occurs pat s -> Replaced pat repl s s
| Replaced_first pre rest rest' :
    ~ occurs pat (pre ++ removelast pat) ->
    Replaced pat repl rest rest' ->
    Replaced pat repl (pre ++ pat ++ rest) (pre ++ repl ++ rest').

(** The tokens of a mapping replaced one after the other, in the order of
    the mapping. *)
Inductive Replaced_in_order {V} (to_str : V -> list ascii)
  : list (list ascii * V) -> list ascii -> list ascii -> Prop :=
| Replaced_done s : Replaced_in_order to_str [] s s
| Replaced_next k v params s s1 s2 :
    Replaced (lit "#" ++ k ++ lit "#") (to_str v) s s1 ->
    Replaced_in_order to_str params s1 s2 ->
    Replaced_in_order to_str ((k, v) :: params) s s2.

Definition dot : ascii := ascii_of_nat 46.

(** A token name without a character that [re] reads as an operator. *)
Definition token_plain (k : list ascii) : bool :=
  forallb (fun c => negb (is_meta c) && negb (Ascii.eqb c dot)) k.

(** The runs of a batch one after the other, in the order of the list: the
    next starts in the world the previous one left. *)
Fixpoint run_in_order {P R} (run : P -> M R) (ps : list P) : M (list R) :=
  match ps with
  | [] => ret []
  | p :: ps' =>
      do r <- run p ;
      do rs <- run_in_order run ps' ;
      ret (r :: rs)
  end.

(** One run of a batch, as the backend makes it: the local loop calls
    [copy_and_run], the executor calls [copy_and_run_star] on the task. *)
Definition run_one `{Externals} (client : option Client) (self : reader)
    (dir : option (list (list ascii)))
    (p : list (list ascii * (list ascii * list (option (list ascii) * list ascii * Value))))
  : M (list (list ascii)) :=
  match client with
  | None => copy_and_run self dir false p (TplDict []) false
  | Some _ => copy_and_run_star self (dir, false, p, false)
  end.

(** What [client_gather] returns for a list of futures. *)
Fixpoint gathered {R} (futures : list (option (result R))) : result (list R) :=
  match futures with
  | [] => Ok []
  | Some (Ok r) :: futures' =>
      match gathered futures' with
      | Ok rs => Ok (r :: rs)
      | Raise e => Raise e
      end
  | Some (Raise e) :: _ => Raise e
  | None :: _ => Raise (ExternalError 0)
  end.

(** Every entry of the file system lies in a directory. *)
Definition wf_fs (f : gmap (list (list ascii)) node) : bool :=
  forallb (fun '(p, _) => match p with [] => false | _ => isdir f (parent p) end)
          (map_to_list f).

(** No regular file stands at [d] or above it. *)
Definition no_file_on_path (f : gmap (list (list ascii)) node) (d : list (list ascii))
  : bool :=
  forallb (fun k => negb (isfile f (take k d))) (seq 0 (S (length d))).

(** The directory [root] holds regular files only. *)
Definition only_files (f : gmap (list (list ascii)) node) (root : list (list ascii))
  : bool :=
  forallb (fun '(q, n) =>
             match child_name root q, n with
             | Some _, Dir => false
             | _, _ => true
             end)
          (map_to_list f).

(** [p] is [q] or lies above it. *)
Fixpoint path_prefix (p q : list (list ascii)) : bool :=
  match p, q with
  | [], _ => true
  | a :: p', b :: q' => if decide (a = b) then path_prefix p' q' else false
  | _ :: _, [] => false
  end.

(** [m] never raises a [TypeError]. *)
Definition no_TypeError {A} (m : M A) : Prop :=
  forall w msg w', m w <> (Raise (TypeError msg), w').

(** The third line of [time.sim] as [set_simulation_time] formats it. *)
Definition time_sim_line (start end_ : date) (step : Z) : list ascii :=
  rjust 8 (str_of_int (tm_yday start)) ++ [sp] ++ rjust 10 (str_of_int (tm_year start)) ++ [sp]
  ++ rjust 10 (str_of_int (tm_yday end_)) ++ [sp] ++ rjust 10 (str_of_int (tm_year end_)) ++ [sp]
  ++ rjust 10 (str_of_int step) ++ [sp] ++ [nl].

(** The third line of [print.prt] as [set_print_time] formats it, from the
    six numbers it holds. *)
Definition print_time_line (warmup day_start year_start day_end year_end interval : Z)
  : list ascii :=
  ljust 12 (str_of_int warmup) ++ [sp] ++ ljust 11 (str_of_int day_start) ++ [sp]
  ++ ljust 11 (str_of_int year_start) ++ [sp] ++ ljust 10 (str_of_int day_end) ++ [sp]
  ++ ljust 10 (str_of_int year_end) ++ [sp] ++ ljust 10 (str_of_int interval) ++ [sp]
  ++ [nl].

(** A word: not empty, without whitespace. *)
Definition word (s : list ascii) : Prop :=
  s <> [] /\ Forall (fun c => isspace c = false) s.

(** The four numbers [set_print_time] stores between the warm-up and the
    interval. *)
Inductive print_window (start_date end_date : option (list ascii)) : Z * Z * Z * Z -> Prop :=
| window_dates d1 d2 :
    str_truthy start_date && str_truthy end_date = true ->
    strptime_ymd (str_or_empty start_date) = Some d1 ->
    strptime_ymd (str_or_empty end_date) = Some d2 ->
    print_window start_date end_date (tm_yday d1, tm_year d1, tm_yday d2, tm_year d2)
| window_zero :
    str_truthy start_date && str_truthy end_date = false ->
    print_window start_date end_date (0, 0, 0, 0)%Z.

(** The collaborators of the examples, with an executable that writes the
    lines [out]. *)
Definition ex_externals_with (out : list (list ascii)) : Externals := {|
  Value := list ascii;
  py_str := fun v => v;
  re_general := fun _ _ s => s;
  tmp_candidate := fun k => str_of_int (Z.of_nat k);
  gettempdir := [lit "tmp"];
  cpu_count := 4%Z;
  Table := unit;
  FileReader := fun _ _ _ => ret tt;
  df_setitem := fun t _ _ => ret t;
  df_loc_setitem := fun t _ _ _ => ret t;
  overwrite_file := fun _ => ret tt;
  Popen := fun _ => ret out
|}.

(** A file name proper: not empty, without a slash, and neither [.] nor
    [..]. *)
Definition plain_name (n : list ascii) : bool :=
  negb (Nat.eqb (length n) 0)
  && negb (existsb (Ascii.eqb (ascii_of_nat 47)) n)
  && negb (if decide (n = lit ".") then true else false)
  && negb (if decide (n = lit "..") then true else false).

(** The runs of a batch as they are made.  [order] lists the indices of the
    parameter sets in the order in which their runs are made; each run
    starts in the world that the run before it left.  The trace holds, for
    each run, the index of its parameter set, the world it started in and
    its outcome.  With [stop] set, no run is made after one that raised. *)
Fixpoint batch_trace {P R} (stop : bool) (run : P -> M R) (ps : list P)
    (order : list nat) (w : World) : list (nat * World * result R) * World :=
  match order with
  | [] => ([], w)
  | i :: order' =>
      match ps !! i with
      | None => batch_trace stop run ps order' w
      | Some p =>
          let '(r, w1) := run p w in
          match r, stop with
          | Raise _, true => ([(i, w, r)], w1)
          | _, _ =>
              let '(tr, w2) := batch_trace stop run ps order' w1 in
              ((i, w, r) :: tr, w2)
          end
      end
  end.

(** The first run of the parameter set [i] in a trace: the world it
    started in and its outcome. *)
Definition first_run {R} (i : nat) (tr : list (nat * World * result R))
  : option (World * result R) :=
  (fun e => (snd (fst e), snd e)) <$> List.find (fun e => Nat.eqb (fst (fst e)) i) tr.

(** The order in which a backend makes the runs of [n] parameter sets: the
    local loop in the order of the list, an executor in the order in which
    its workers take the tasks. *)
Definition run_order (client : option Client) (n : nat) : list nat :=
  match client with
  | None => seq 0 n
  | Some c => completion c n
  end.

(* ===================================================================== *)
(** * Part II.  Properties                                                *)
(* ===================================================================== *)

(** ** The monad and the file system *)

Lemma bind_ok {A B} (m : M A) (k : A -> M B) w a w' :
  m w = (Ok a, w') -> bind m k w = k a w'.
Proof. intros E. unfold bind. now rewrite E. Qed.

Lemma bind_raise {A B} (m : M A) (k : A -> M B) w e w' :
  m w = (Raise e, w') -> bind m k w = (Raise e, w').
Proof. intros E. unfold bind. now rewrite E. Qed.

Lemma world_eta w : mkWorld (fs w) (rng w) (cwd w) (stdout w) = w.
Proof. now destruct w. Qed.

Lemma read_text_holds w p text :
  holds_text w p text -> read_text p w = (Ok text, w).
Proof.
  intros [Hd Hs]. unfold read_text, bind, get_fs. now rewrite Hd, Hs.
Qed.

Lemma write_text_holds w p text text' :
  holds_text w p text -> write_text p text' w = (Ok tt, set_file p text' w).
Proof.
  intros [Hd Hs]. unfold write_text, bind, get_fs. now rewrite Hd, Hs.
Qed.

Lemma parent_snoc (p : list (list ascii)) n : parent (p ++ [n]) = p.
Proof. apply removelast_last. Qed.

(** Resolving directories only reads the entries on the way. *)
Lemma check_dirs_ext f g pre rest :
  (forall k, k <= length rest -> k <> 0 ->
     g !! (pre ++ take k rest) = f !! (pre ++ take k rest)) ->
  check_dirs g pre rest = check_dirs f pre rest.
Proof.
  revert pre. induction rest as [|n rest IH]; intros pre Hk; [reflexivity|].
  simpl. pose proof (Hk 1 ltac:(simpl; lia) ltac:(lia)) as H1.
  rewrite firstn_cons, take_0 in H1. rewrite H1.
  destruct (f !! (pre ++ [n])) as [[|]|]; try reflexivity.
  apply IH. intros k Hle Hne.
  specialize (Hk (S k)). simpl in Hk. rewrite <- !app_assoc. simpl.
  apply Hk; lia.
Qed.

Lemma check_dirs_insert_snoc f p n x :
  check_dirs (<[p ++ [n] := x]> f) [] p = check_dirs f [] p.
Proof.
  apply check_dirs_ext. intros k Hle Hne. simpl.
  apply lookup_insert_ne. intros E.
  apply (f_equal length) in E. rewrite length_app, length_take in E. simpl in E. lia.
Qed.

Lemma holds_text_set_file w p n text text' :
  holds_text w (p ++ [n]) text -> holds_text (set_file (p ++ [n]) text' w) (p ++ [n]) text'.
Proof.
  intros [Hd Hs]. rewrite parent_snoc in Hd. split; simpl.
  - rewrite parent_snoc, check_dirs_insert_snoc. exact Hd.
  - unfold stat. destruct (p ++ [n]) eqn:E.
    + now destruct p.
    + apply lookup_insert_eq.
Qed.

(** ** Lines of a text file *)

Lemma readlines_concat s : concat (readlines s) = s.
Proof.
  induction s as [|c s IH]; [reflexivity|]. simpl.
  destruct (Ascii.eqb c nl) eqn:E.
  - simpl. now rewrite IH.
  - destruct (readlines s) as [|l ls]; simpl in *; now rewrite <- IH.
Qed.

Lemma readlines_nil_inv s : readlines s = [] -> s = [].
Proof. intros E. rewrite <- (readlines_concat s), E. reflexivity. Qed.

Lemma readlines_complete_app b s :
  nl ∉ b -> readlines (b ++ nl :: s) = (b ++ [nl]) :: readlines s.
Proof.
  induction b as [|c b IH]; intros Hb; simpl.
  - reflexivity.
  - apply not_elem_of_cons in Hb as [Hc Hb].
    destruct (Ascii.eqb_spec c nl) as [->|_]; [congruence|].
    now rewrite IH.
Qed.

Lemma readlines_unterminated l : unterminated l -> readlines l = [l].
Proof.
  intros [Hne Hl]. induction l as [|c l IH]; [congruence|]. simpl.
  apply not_elem_of_cons in Hl as [Hc Hl].
  destruct (Ascii.eqb_spec c nl) as [->|_]; [congruence|].
  destruct l as [|d l]; [reflexivity|].
  rewrite IH; [reflexivity|discriminate|exact Hl].
Qed.

Lemma complete_cons c l : c <> nl -> complete l -> complete (c :: l).
Proof.
  intros Hc (b & -> & Hb). exists (c :: b). split; [reflexivity|].
  apply not_elem_of_cons. split; [congruence|exact Hb].
Qed.

Lemma unterminated_cons c l : c <> nl -> unterminated l -> unterminated (c :: l).
Proof.
  intros Hc [_ Hl]. split; [discriminate|].
  apply not_elem_of_cons. split; [congruence|exact Hl].
Qed.

Lemma complete_nl : complete [nl].
Proof. exists []. split; [reflexivity|apply not_elem_of_nil]. Qed.

Lemma readlines_proper s : proper (readlines s).
Proof.
  induction s as [|c s IH]; simpl; [constructor|].
  destruct (Ascii.eqb_spec c nl) as [->|Hc].
  - apply proper_cons; [apply complete_nl|exact IH].
  - destruct (readlines s) as [|l ls] eqn:E.
    + apply proper_last. split; [discriminate|].
      apply not_elem_of_cons. split; [congruence|apply not_elem_of_nil].
    + inversion IH; subst.
      * apply proper_last. now apply unterminated_cons.
      * apply proper_cons; [now apply complete_cons|assumption].
Qed.

Lemma readlines_of_concat ls : proper ls -> readlines (concat ls) = ls.
Proof.
  induction 1 as [|l Hl|l ls (b & -> & Hb) _ IH]; simpl.
  - reflexivity.
  - rewrite app_nil_r. now apply readlines_unterminated.
  - rewrite <- app_assoc. simpl. rewrite readlines_complete_app by exact Hb.
    now rewrite IH.
Qed.

Lemma proper_insert ls i l :
  proper ls -> i < length ls -> complete l -> proper (<[i := l]> ls).
Proof.
  intros Hp. revert i. induction Hp as [|l0 Hl0|l0 ls Hc Hp IH]; intros i Hi Hl; simpl in *.
  - lia.
  - destruct i as [|i]; [|lia]. simpl. apply proper_cons; [exact Hl|constructor].
  - destruct i as [|i]; simpl.
    + now apply proper_cons.
    + apply proper_cons; [exact Hc|]. apply IH; [lia|exact Hl].
Qed.

Lemma proper_snoc ls l : Forall complete ls -> complete l -> proper (ls ++ [l]).
Proof.
  induction 1 as [|l0 ls Hc _ IH]; intros Hl; simpl.
  - apply proper_cons; [exact Hl|constructor].
  - apply proper_cons; [exact Hc|now apply IH].
Qed.

Lemma proper_lookup_nonempty ls i l : proper ls -> ls !! i = Some l -> l <> [].
Proof.
  intros Hp. revert i. induction Hp as [|l0 [Hne _]|l0 ls (b & -> & _) _ IH]; intros i Hi.
  - discriminate.
  - destruct i; simpl in Hi; [congruence|discriminate].
  - destruct i; simpl in Hi.
    + injection Hi as <-. now destruct b.
    + eapply IH, Hi.
Qed.

(** A file that is empty or ends in a newline has complete lines only. *)
Lemma readlines_terminated t : Forall complete (readlines (t ++ [nl])).
Proof.
  induction t as [|c t IH]; simpl.
  - repeat constructor. apply complete_nl.
  - destruct (Ascii.eqb_spec c nl) as [->|Hc].
    + constructor; [apply complete_nl|exact IH].
    + destruct (readlines (t ++ [nl])) as [|l ls] eqn:E.
      * apply readlines_nil_inv in E. now destruct t.
      * inversion IH; subst. constructor; [now apply complete_cons|assumption].
Qed.

(** ** The print configuration: [enable_object_in_print_prt] *)

Lemma rstrip_spaces (ws : list ascii) : Forall (fun x => isspace x = true) ws -> rstrip ws = [].
Proof.
  induction 1 as [|x ws Hx _ IH]; simpl; [reflexivity|]. now rewrite IH, Hx.
Qed.

Lemma rstrip_app_keep s r : rstrip r <> [] -> rstrip (s ++ r) = s ++ rstrip r.
Proof.
  intros Hr. induction s as [|a s IH]; simpl; [reflexivity|].
  rewrite IH. destruct (s ++ rstrip r) eqn:E; [|reflexivity].
  apply app_eq_nil in E as [_ E]. contradiction.
Qed.

Lemma rstrip_snoc_nonspace s c (ws : list ascii) :
  isspace c = false -> Forall (fun x => isspace x = true) ws ->
  rstrip (s ++ c :: ws) = s ++ [c].
Proof.
  intros Hc Hws.
  assert (E : rstrip (c :: ws) = [c]) by (simpl; now rewrite rstrip_spaces, Hc).
  rewrite rstrip_app_keep; rewrite E; [reflexivity|discriminate].
Qed.

Lemma isspace_yn b : isspace (yn b) = false.
Proof. now destruct b. Qed.

Lemma ljust_flag (b : bool) :
  ljust 14 (if b then lit "y" else lit "n") = yn b :: repeat sp 13.
Proof. now destruct b. Qed.

(** The line built for an object, column by column. *)
Lemma build_line_columns o daily monthly yearly avann :
  _build_line_to_add o daily monthly yearly avann
  = ljust 29 o ++ yn daily :: repeat sp 13 ++ yn monthly :: repeat sp 13
    ++ yn yearly :: repeat sp 13 ++ [yn avann; nl].
Proof.
  unfold _build_line_to_add. cbn [map snd fold_left]. rewrite !ljust_flag.
  replace (((((ljust 29 o ++ yn daily :: repeat sp 13) ++ yn monthly :: repeat sp 13)
             ++ yn yearly :: repeat sp 13) ++ yn avann :: repeat sp 13))
    with ((ljust 29 o ++ yn daily :: repeat sp 13 ++ yn monthly :: repeat sp 13
             ++ yn yearly :: repeat sp 13) ++ yn avann :: repeat sp 13)
    by (rewrite <- !app_assoc; reflexivity).
  rewrite rstrip_snoc_nonspace.
  - rewrite <- !app_assoc. reflexivity.
  - apply isspace_yn.
  - apply Forall_forall. intros x Hx. apply list_elem_of_In, repeat_spec in Hx. now subst.
Qed.

Lemma scan_print_prt_fold o d m y a lines acc fnd :
  fold_left
    (fun '(new_print_prt, found) line =>
       if negb (startswith (o ++ [sp]) line)
       then (new_print_prt ++ line, found)
       else (new_print_prt ++ _build_line_to_add o d m y a, true))
    lines (acc, fnd)
  = (acc ++ concat (map (fun l => if carries o l then _build_line_to_add o d m y a else l)
                        lines),
     fnd || existsb (carries o) lines).
Proof.
  revert acc fnd. induction lines as [|l lines IH]; intros acc fnd; simpl.
  - now rewrite app_nil_r, orb_false_r.
  - unfold carries at 1 3. destruct (startswith (o ++ [sp]) l); simpl; rewrite IH.
    + now rewrite <- app_assoc, orb_true_r.
    + now rewrite <- app_assoc.
Qed.

(** The method rewrites the file with the patched lines. *)
Lemma enable_object_in_print_prt_spec self obj d m y a w text :
  holds_text w (print_prt_path self) text ->
  enable_object_in_print_prt self obj d m y a w
  = (Ok tt, set_file (print_prt_path self)
              (concat (patched_lines (object_name obj) d m y a (readlines text))) w).
Proof.
  intros Ht. unfold enable_object_in_print_prt.
  fold (print_prt_path self).
  rewrite (bind_ok _ _ _ _ _ (read_text_holds _ _ _ Ht)).
  unfold scan_print_prt. rewrite scan_print_prt_fold. simpl.
  rewrite (write_text_holds _ _ _ _ Ht). unfold patched_lines.
  destruct (existsb (carries (object_name obj)) (readlines text)); simpl.
  - now rewrite app_nil_r.
  - rewrite concat_app. simpl. now rewrite app_nil_r.
Qed.

Lemma startswith_app p r : startswith p (p ++ r) = true.
Proof.
  induction p as [|a p IH]; simpl; [reflexivity|]. now rewrite Ascii.eqb_refl.
Qed.

Lemma startswith_inv p s : startswith p s = true -> exists r, s = p ++ r.
Proof.
  revert s. induction p as [|a p IH]; intros s Hs; simpl in *.
  - now exists s.
  - destruct s as [|b s]; [discriminate|].
    apply andb_true_iff in Hs as [Hab Hs]. apply Ascii.eqb_eq in Hab as ->.
    destruct (IH _ Hs) as [r ->]. now exists r.
Qed.

Lemma proper_lookup ls i l :
  proper ls -> ls !! i = Some l -> complete l \/ unterminated l.
Proof.
  intros Hp. revert i. induction Hp as [|l0 Hl0|l0 ls Hc _ IH]; intros i Hi.
  - discriminate.
  - destruct i; simpl in Hi; [|discriminate]. injection Hi as <-. now right.
  - destruct i; simpl in Hi.
    + injection Hi as <-. now left.
    + eapply IH, Hi.
Qed.

(** Every line but the last is complete. *)
Lemma proper_take_complete ls i :
  proper ls -> i < length ls -> Forall complete (take i ls).
Proof.
  intros Hp. revert i. induction Hp as [|l0 Hl0|l0 ls Hc _ IH]; intros i Hi; simpl in *.
  - lia.
  - destruct i; [constructor|lia].
  - destruct i; simpl; [constructor|]. destruct ls as [|l1 ls].
    + rewrite take_nil. repeat constructor. exact Hc.
    + constructor; [exact Hc|]. apply IH. simpl in *. lia.
Qed.

Lemma readlines_complete_prefix ls s :
  Forall complete ls -> readlines (concat ls ++ s) = ls ++ readlines s.
Proof.
  induction 1 as [|l ls (b & -> & Hb) _ IH]; simpl; [reflexivity|].
  rewrite <- !app_assoc. simpl. rewrite readlines_complete_app by exact Hb.
  now rewrite IH.
Qed.

(** A line of a file that carries [o] shows that [o] holds no newline. *)
Lemma carries_no_newline o ls i line :
  proper ls -> ls !! i = Some line -> carries o line = true -> nl ∉ o.
Proof.
  intros Hp Hi Hc. apply startswith_inv in Hc as [rest ->].
  destruct (proper_lookup _ _ _ Hp Hi) as [(b & E & Hb)|[_ Hn]].
  - destruct rest as [|x rest _] using rev_ind.
    + rewrite app_nil_r in E. apply app_inj_tail in E as [_ E]. discriminate.
    + rewrite !app_assoc in E. apply app_inj_tail in E as [<- _].
      rewrite <- app_assoc in Hb. now apply not_elem_of_app in Hb as [Hb _].
  - rewrite <- app_assoc in Hn. now apply not_elem_of_app in Hn as [Hn _].
Qed.

Lemma nl_notin_spaces n : nl ∉ repeat sp n.
Proof. intros Hx. apply list_elem_of_In, repeat_spec in Hx. discriminate. Qed.

Lemma yn_not_nl b : yn b <> nl.
Proof. now destruct b. Qed.

Lemma build_line_complete o d m y a :
  nl ∉ o -> complete (_build_line_to_add o d m y a).
Proof.
  intros Ho. rewrite build_line_columns.
  exists (ljust 29 o ++ yn d :: repeat sp 13 ++ yn m :: repeat sp 13
          ++ yn y :: repeat sp 13 ++ [yn a]).
  split.
  - repeat (rewrite <- app_assoc || rewrite <- app_comm_cons). reflexivity.
  - unfold ljust.
    repeat first
      [ apply not_elem_of_nil
      | apply nl_notin_spaces
      | exact Ho
      | apply not_elem_of_app; split
      | apply not_elem_of_cons; split
      | (intros E; symmetry in E; revert E; apply yn_not_nl) ].
Qed.

Lemma carriers_from_spec o ls k j :
  j ∈ carriers_from k o ls
  <-> exists l, k <= j /\ ls !! (j - k) = Some l /\ carries o l = true.
Proof.
  revert k. induction ls as [|l0 ls IH]; intros k; simpl.
  - split; [intros Hj; now apply elem_of_nil in Hj|intros (l & _ & Hl & _); discriminate].
  - assert (Hrest : j ∈ carriers_from (S k) o ls
                    <-> exists l, S k <= j /\ (l0 :: ls) !! (j - k) = Some l
                                  /\ carries o l = true).
    { rewrite IH. split; intros (l & Hk & Hl & Hc); exists l; (split; [lia|]);
        (split; [|exact Hc]).
      - replace (j - k) with (S (j - S k)) by lia. exact Hl.
      - replace (j - k) with (S (j - S k)) in Hl by lia. exact Hl. }
    destruct (carries o l0) eqn:E0.
    + rewrite elem_of_cons, Hrest. split.
      * intros [->|(l & Hk & Hl & Hc)].
        -- exists l0. rewrite Nat.sub_diag. auto.
        -- exists l. split; [lia|auto].
      * intros (l & Hk & Hl & Hc). destruct (decide (j = k)) as [->|Hne]; [now left|].
        right. exists l. split; [lia|auto].
    + rewrite Hrest. split.
      * intros (l & Hk & Hl & Hc). exists l. split; [lia|auto].
      * intros (l & Hk & Hl & Hc). exists l. split; [|auto].
        destruct (decide (j = k)) as [->|Hne]; [|lia].
        rewrite Nat.sub_diag in Hl. simpl in Hl. congruence.
Qed.

Lemma existsb_carries o (ls : list (list ascii)) i l :
  ls !! i = Some l -> carries o l = true -> existsb (carries o) ls = true.
Proof.
  intros Hi Hc. apply existsb_exists. exists l. split; [|exact Hc].
  apply list_elem_of_In. eapply list_elem_of_lookup_2, Hi.
Qed.

(** With one carrier, at [i], patching the lines is an update at [i]. *)
Lemma patched_lines_unique o d m y a ls i :
  carriers_from 0 o ls = [i] ->
  patched_lines o d m y a ls = <[i := _build_line_to_add o d m y a]> ls
  /\ exists line, ls !! i = Some line /\ carries o line = true.
Proof.
  intros Hu.
  assert (Hi : exists line, ls !! i = Some line /\ carries o line = true).
  { assert (Hin : i ∈ carriers_from 0 o ls) by (rewrite Hu; apply list_elem_of_here).
    apply carriers_from_spec in Hin as (l & _ & Hl & Hc).
    rewrite Nat.sub_0_r in Hl. eauto. }
  split; [|exact Hi]. destruct Hi as (line & Hi & Hc).
  unfold patched_lines. rewrite (existsb_carries _ _ _ _ Hi Hc), app_nil_r.
  apply list_eq. intros j. rewrite list_lookup_fmap.
  destruct (decide (j = i)) as [->|Hne].
  - rewrite Hi. simpl. rewrite Hc.
    rewrite list_lookup_insert_eq; [reflexivity|]. eapply lookup_lt_Some, Hi.
  - rewrite list_lookup_insert_ne by congruence.
    destruct (ls !! j) as [l|] eqn:Hj; [|reflexivity]. simpl.
    destruct (carries o l) eqn:Hcl; [|reflexivity].
    exfalso. apply Hne.
    assert (Hin : j ∈ carriers_from 0 o ls).
    { apply carriers_from_spec. exists l. rewrite Nat.sub_0_r. split; [lia|auto]. }
    rewrite Hu in Hin. now apply list_elem_of_singleton in Hin.
Qed.

Lemma patched_lines_lookup_other o d m y a (ls : list (list ascii)) i line :
  ls !! i = Some line -> carries o line = false ->
  patched_lines o d m y a ls !! i = Some line.
Proof.
  intros Hi Hc. unfold patched_lines.
  rewrite lookup_app_l by (rewrite length_map; eapply lookup_lt_Some, Hi).
  rewrite list_lookup_fmap, Hi. simpl. now rewrite Hc.
Qed.

Lemma patched_lines_reread o d m y a ls i line :
  nl ∉ o -> proper ls -> ls !! i = Some line -> carries o line = false ->
  complete line ->
  readlines (concat (patched_lines o d m y a ls)) !! i = Some line.
Proof.
  intros Ho Hp Hi Hc Hl. unfold patched_lines.
  rewrite <- (take_drop_middle _ _ _ Hi) at 1.
  rewrite map_app. simpl. rewrite Hc.
  set (pre := map _ (take i ls)). set (post := map _ (drop (S i) ls)).
  set (tail := if existsb _ _ then _ else _).
  replace ((pre ++ line :: post) ++ tail) with ((pre ++ [line]) ++ post ++ tail)
    by (rewrite <- !app_assoc; reflexivity).
  rewrite concat_app.
  assert (Hpre : Forall complete (pre ++ [line])).
  { apply Forall_app. split; [|now repeat constructor].
    subst pre. apply Forall_fmap.
    eapply Forall_impl; [apply (proper_take_complete _ _ Hp); eapply lookup_lt_Some, Hi|].
    intros l Hcl. simpl. destruct (carries o l); [now apply build_line_complete|exact Hcl]. }
  rewrite readlines_complete_prefix by exact Hpre.
  assert (Hlen : length pre = i).
  { subst pre. rewrite length_map, length_take. apply lookup_lt_Some in Hi. lia. }
  rewrite <- app_assoc. rewrite lookup_app_r by lia.
  rewrite Hlen, Nat.sub_diag. reflexivity.
Qed.

Lemma proper_map_patch (P : list ascii -> bool) (b : list ascii) ls :
  proper ls -> complete b -> proper (map (fun l => if P l then b else l) ls).
Proof.
  intros Hp Hb. induction Hp as [|l Hl|l ls Hl _ IH]; cbn [map].
  - constructor.
  - destruct (P l); [apply proper_cons; [exact Hb|constructor]|now apply proper_last].
  - apply proper_cons; [destruct (P l); assumption|exact IH].
Qed.

(** C3, as the code has it.  When no line of a print configuration whose
    lines all end in a newline carries the object named by [obj], and the
    name holds no newline, [enable_object_in_print_prt] rewrites the file
    as its old text followed by one line: the name left-justified in 29
    columns, the four flags [y]/[n] each left-justified in 14 columns, the
    trailing blanks trimmed, and a newline.  Read again line by line, the
    file has its old lines, unchanged, and then the new one. *)
Theorem enable_object_appends_new_line (self : reader) (obj : list ascii)
    (daily monthly yearly avann : bool) (w : World) (text : list ascii) :
  holds_text w (print_prt_path self) text ->
  existsb (carries (object_name obj)) (readlines text) = false ->
  Forall complete (readlines text) ->
  nl ∉ object_name obj ->
  enable_object_in_print_prt self obj daily monthly yearly avann w
  = (Ok tt,
     set_file (print_prt_path self)
       (text ++ _build_line_to_add (object_name obj) daily monthly yearly avann) w)
  /\ _build_line_to_add (object_name obj) daily monthly yearly avann
     = ljust 29 (object_name obj) ++ yn daily :: repeat sp 13 ++ yn monthly :: repeat sp 13
       ++ yn yearly :: repeat sp 13 ++ [yn avann; nl]
  /\ readlines (text ++ _build_line_to_add (object_name obj) daily monthly yearly avann)
     = readlines text
       ++ [_build_line_to_add (object_name obj) daily monthly yearly avann].
Proof.
  intros Ht Habs Hall Ho. split; [|split].
  - rewrite (enable_object_in_print_prt_spec _ _ _ _ _ _ _ _ Ht).
    unfold patched_lines. rewrite Habs.
    replace (map _ (readlines text)) with (readlines text).
    + rewrite concat_app, readlines_concat. simpl. now rewrite app_nil_r.
    + rewrite <- (map_id (readlines text)) at 1. apply map_ext_in.
      intros l Hl. destruct (carries (object_name obj) l) eqn:E; [|reflexivity].
      assert (existsb (carries (object_name obj)) (readlines text) = true)
        by (apply existsb_exists; eauto).
      congruence.
  - apply build_line_columns.
  - rewrite <- (readlines_concat text) at 1.
    replace (concat (readlines text) ++ _build_line_to_add _ daily monthly yearly avann)
      with (concat (readlines text
                    ++ [_build_line_to_add (object_name obj) daily monthly yearly avann]))
      by (rewrite concat_app; simpl; now rewrite app_nil_r).
    apply readlines_of_concat, proper_snoc; [exact Hall|].
    now apply build_line_complete.
Qed.

Lemma enable_object_appends_new_line_witness :
  enable_object_in_print_prt ex_self (lit "basin") true false true false
    (ex_world [(lit "print.prt", unlines ["name  daily"; "basin_sub  y  n  y  n"])])
  = (Ok tt,
     set_file (print_prt_path ex_self)
       (unlines ["name  daily"; "basin_sub  y  n  y  n"]
        ++ _build_line_to_add (object_name (lit "basin")) true false true false)
       (ex_world [(lit "print.prt", unlines ["name  daily"; "basin_sub  y  n  y  n"])]))
  /\ readlines
       (unlines ["name  daily"; "basin_sub  y  n  y  n"]
        ++ _build_line_to_add (object_name (lit "basin")) true false true false)
     = readlines (unlines ["name  daily"; "basin_sub  y  n  y  n"])
       ++ [_build_line_to_add (object_name (lit "basin")) true false true false].
Proof.
  destruct (enable_object_appends_new_line ex_self (lit "basin") true false true false
              (ex_world [(lit "print.prt",
                          unlines ["name  daily"; "basin_sub  y  n  y  n"])])
              (unlines ["name  daily"; "basin_sub  y  n  y  n"])) as (Hrun & _ & Hlines).
  - split; vm_compute; reflexivity.
  - vm_compute. reflexivity.
  - apply (readlines_terminated (lit "name  daily" ++ [nl] ++ lit "basin_sub  y  n  y  n")).
  - vm_compute. intros Hin.
    repeat (apply elem_of_cons in Hin as [Hin|Hin]; [discriminate Hin|]).
    inversion Hin.
  - split; [exact Hrun|exact Hlines].
Defined.

(** C3, as stated, fails.  On a file whose last line has no newline the
    built line continues that line: no line is added and the last line is
    not what it was.  And a name that holds a newline adds two lines. *)
Lemma enable_object_appends_new_line_counterexample :
  (existsb (carries (object_name (lit "basin_wb")))
     (readlines (lit "name  daily" ++ [nl] ++ lit "lsunit_wb  n")) = false
   /\ enable_object_in_print_prt ex_self (lit "basin_wb") true false true false
        (ex_world [(lit "print.prt", lit "name  daily" ++ [nl] ++ lit "lsunit_wb  n")])
      = (Ok tt,
         set_file (print_prt_path ex_self)
           ((lit "name  daily" ++ [nl] ++ lit "lsunit_wb  n")
            ++ _build_line_to_add (lit "basin_wb") true false true false)
           (ex_world [(lit "print.prt", lit "name  daily" ++ [nl] ++ lit "lsunit_wb  n")]))
   /\ length (readlines ((lit "name  daily" ++ [nl] ++ lit "lsunit_wb  n")
                         ++ _build_line_to_add (lit "basin_wb") true false true false))
      = length (readlines (lit "name  daily" ++ [nl] ++ lit "lsunit_wb  n"))
   /\ readlines ((lit "name  daily" ++ [nl] ++ lit "lsunit_wb  n")
                 ++ _build_line_to_add (lit "basin_wb") true false true false) !! 1
      <> readlines (lit "name  daily" ++ [nl] ++ lit "lsunit_wb  n") !! 1)
  /\ (existsb (carries (object_name (lit "a" ++ [nl] ++ lit "b")))
        (readlines (lit "name  daily" ++ [nl])) = false
      /\ enable_object_in_print_prt ex_self (lit "a" ++ [nl] ++ lit "b") true false true false
           (ex_world [(lit "print.prt", lit "name  daily" ++ [nl])])
         = (Ok tt,
            set_file (print_prt_path ex_self)
              ((lit "name  daily" ++ [nl])
               ++ _build_line_to_add (lit "a" ++ [nl] ++ lit "b") true false true false)
              (ex_world [(lit "print.prt", lit "name  daily" ++ [nl])]))
      /\ length (readlines ((lit "name  daily" ++ [nl])
                            ++ _build_line_to_add (lit "a" ++ [nl] ++ lit "b")
                                 true false true false))
         = length (readlines (lit "name  daily" ++ [nl])) + 2).
Proof.
  repeat split; try (vm_compute; reflexivity).
  vm_compute. discriminate.
Qed.

(** C4.  When exactly one line of the print configuration carries the
    object, the line at index [i], [enable_object_in_print_prt] puts the
    built line in its place: the file read again has the same number of
    lines, the built line at [i], and every other line as it was. *)
Theorem enable_object_replaces_in_place (self : reader) (obj : list ascii)
    (daily monthly yearly avann : bool) (w : World) (text : list ascii) (i : nat) :
  holds_text w (print_prt_path self) text ->
  carriers_from 0 (object_name obj) (readlines text) = [i] ->
  exists text',
    enable_object_in_print_prt self obj daily monthly yearly avann w
    = (Ok tt, set_file (print_prt_path self) text' w)
    /\ readlines text'
       = <[i := _build_line_to_add (object_name obj) daily monthly yearly avann]>
           (readlines text)
    /\ length (readlines text') = length (readlines text)
    /\ forall j, j <> i -> readlines text' !! j = readlines text !! j.
Proof.
  intros Ht Hu.
  destruct (patched_lines_unique _ daily monthly yearly avann _ _ Hu)
    as (Hpatch & line & Hi & Hc).
  exists (concat (patched_lines (object_name obj) daily monthly yearly avann
                    (readlines text))).
  split; [now apply enable_object_in_print_prt_spec|].
  assert (Hre : readlines (concat (patched_lines (object_name obj) daily monthly yearly
                                     avann (readlines text)))
                = <[i := _build_line_to_add (object_name obj) daily monthly yearly avann]>
                    (readlines text)).
  { rewrite Hpatch. apply readlines_of_concat, proper_insert.
    - apply readlines_proper.
    - eapply lookup_lt_Some, Hi.
    - apply build_line_complete.
      eapply carries_no_newline; [apply readlines_proper|exact Hi|exact Hc]. }
  rewrite Hre. split; [reflexivity|]. split.
  - apply length_insert.
  - intros j Hj. apply list_lookup_insert_ne. congruence.
Qed.

Lemma enable_object_replaces_in_place_witness :
  exists text',
    enable_object_in_print_prt ex_self (lit "basin_wb_day.txt") false true false true
      (ex_world [(lit "print.prt", unlines ["basin_wb  y  n"; "lsunit_wb  n y"])])
    = (Ok tt, set_file (print_prt_path ex_self) text'
                (ex_world [(lit "print.prt", unlines ["basin_wb  y  n"; "lsunit_wb  n y"])]))
    /\ readlines text'
       = <[0 := _build_line_to_add (object_name (lit "basin_wb_day.txt"))
                  false true false true]>
           (readlines (unlines ["basin_wb  y  n"; "lsunit_wb  n y"]))
    /\ length (readlines text')
       = length (readlines (unlines ["basin_wb  y  n"; "lsunit_wb  n y"]))
    /\ forall j, j <> 0 ->
         readlines text' !! j
         = readlines (unlines ["basin_wb  y  n"; "lsunit_wb  n y"]) !! j.
Proof.
  apply (enable_object_replaces_in_place ex_self (lit "basin_wb_day.txt")
           false true false true
           (ex_world [(lit "print.prt", unlines ["basin_wb  y  n"; "lsunit_wb  n y"])])
           (unlines ["basin_wb  y  n"; "lsunit_wb  n y"]) 0).
  - split; vm_compute; reflexivity.
  - vm_compute. reflexivity.
Defined.

(** C5, as the code has it.  A line that begins with [basin_sub] is never
    taken for the object [basin]: the test of the source fails on it.  The
    method leaves it as line [i] of the file whenever the line ends in a
    newline or some line of the file carries [basin], so that nothing is
    appended.  In general a line is taken for an object only if it begins
    with the name followed by a whitespace character. *)
Theorem basin_never_touches_basin_sub (self : reader)
    (daily monthly yearly avann : bool) (w : World) (text : list ascii)
    (i : nat) (line : list ascii) :
  holds_text w (print_prt_path self) text ->
  readlines text !! i = Some line ->
  startswith (lit "basin_sub") line = true ->
  complete line \/ existsb (carries (lit "basin")) (readlines text) = true ->
  carries (object_name (lit "basin")) line = false
  /\ (exists text',
        enable_object_in_print_prt self (lit "basin") daily monthly yearly avann w
        = (Ok tt, set_file (print_prt_path self) text' w)
        /\ readlines text' !! i = Some line)
  /\ (forall o l, carries o l = true ->
        exists c rest, l = o ++ c :: rest /\ isspace c = true).
Proof.
  intros Ht Hi Hsub Hcase.
  assert (Hc : carries (lit "basin") line = false).
  { apply startswith_inv in Hsub as [r ->]. reflexivity. }
  assert (Hnl : nl ∉ lit "basin").
  { intros Hin. vm_compute in Hin.
    repeat (apply elem_of_cons in Hin as [Hin|Hin]; [discriminate|]).
    now apply elem_of_nil in Hin. }
  split; [exact Hc|]. split.
  - eexists. split.
    + exact (enable_object_in_print_prt_spec self (lit "basin") _ _ _ _ _ _ Ht).
    + change (object_name (lit "basin")) with (lit "basin").
      destruct Hcase as [Hl|Hfound].
      * apply patched_lines_reread; auto using readlines_proper.
      * unfold patched_lines. rewrite Hfound, app_nil_r.
        rewrite readlines_of_concat.
        -- rewrite list_lookup_fmap, Hi. cbn [fmap option_fmap option_map]. now rewrite Hc.
        -- apply proper_map_patch; [apply readlines_proper|].
           now apply build_line_complete.
  - intros o l Hcl. apply startswith_inv in Hcl as [rest ->].
    exists sp, rest. split; [now rewrite <- app_assoc|reflexivity].
Qed.

Lemma basin_never_touches_basin_sub_witness :
  carries (object_name (lit "basin")) (lit "basin_sub  y  n  y  n" ++ [nl]) = false
  /\ exists text',
       enable_object_in_print_prt ex_self (lit "basin") true false true false
         (ex_world [(lit "print.prt", unlines ["name  daily"; "basin_sub  y  n  y  n"])])
       = (Ok tt,
          set_file (print_prt_path ex_self) text'
            (ex_world [(lit "print.prt",
                        unlines ["name  daily"; "basin_sub  y  n  y  n"])]))
       /\ readlines text' !! 1 = Some (lit "basin_sub  y  n  y  n" ++ [nl]).
Proof.
  destruct (basin_never_touches_basin_sub ex_self true false true false
              (ex_world [(lit "print.prt",
                          unlines ["name  daily"; "basin_sub  y  n  y  n"])])
              (unlines ["name  daily"; "basin_sub  y  n  y  n"])
              1 (lit "basin_sub  y  n  y  n" ++ [nl])) as (Hc & Hrun & _).
  - split; vm_compute; reflexivity.
  - vm_compute. reflexivity.
  - vm_compute. reflexivity.
  - left. exists (lit "basin_sub  y  n  y  n"). split; [reflexivity|].
    vm_compute. intros Hin.
    repeat (apply elem_of_cons in Hin as [Hin|Hin]; [discriminate Hin|]).
    inversion Hin.
  - split; [exact Hc|exact Hrun].
Defined.

(** C5, as stated, fails: when the [basin_sub] line is the last line of the
    file and has no newline, and no line carries [basin], the line built
    for [basin] is appended to it, and line [i] is no longer what it was. *)
Lemma basin_never_touches_basin_sub_counterexample :
  readlines (lit "name  daily" ++ [nl] ++ lit "basin_sub  y  n") !! 1
  = Some (lit "basin_sub  y  n")
  /\ startswith (lit "basin_sub") (lit "basin_sub  y  n") = true
  /\ enable_object_in_print_prt ex_self (lit "basin") true false true false
       (ex_world [(lit "print.prt", lit "name  daily" ++ [nl] ++ lit "basin_sub  y  n")])
     = (Ok tt,
        set_file (print_prt_path ex_self)
          ((lit "name  daily" ++ [nl] ++ lit "basin_sub  y  n")
           ++ _build_line_to_add (lit "basin") true false true false)
          (ex_world [(lit "print.prt", lit "name  daily" ++ [nl] ++ lit "basin_sub  y  n")]))
  /\ readlines ((lit "name  daily" ++ [nl] ++ lit "basin_sub  y  n")
                ++ _build_line_to_add (lit "basin") true false true false) !! 1
     = Some (lit "basin_sub  y  n" ++ _build_line_to_add (lit "basin") true false true false)
  /\ readlines ((lit "name  daily" ++ [nl] ++ lit "basin_sub  y  n")
                ++ _build_line_to_add (lit "basin") true false true false) !! 1
     <> Some (lit "basin_sub  y  n").
Proof.
  repeat split; try (vm_compute; reflexivity).
  vm_compute. discriminate.
Qed.

(** ** The simulation window: [set_simulation_time] *)

Lemma setitem_ok {A} (l : list A) i v :
  i < length l -> setitem l i v = ret (<[i := v]> l).
Proof.
  intros Hi. unfold setitem. apply Nat.ltb_lt in Hi. now rewrite Hi.
Qed.

Lemma getitem_ok {A} (l : list A) i x : l !! i = Some x -> getitem l i = ret x.
Proof. intros Hi. unfold getitem. now rewrite Hi. Qed.

(** C6.  On a time configuration whose third line has at least five
    whitespace-separated fields, [set_simulation_time] with the dates
    2010-01-01 and 2010-12-31 and step 0 makes the third line the five
    right-justified fields 1, 2010, 365, 2010, 0 (widths 8, 10, 10, 10,
    10), each followed by a blank, and a newline; the other lines stay. *)
Theorem set_simulation_time_2010 (self : reader) (w : World) (text line3 : list ascii) :
  holds_text w (time_sim_path self) text ->
  readlines text !! 2 = Some line3 ->
  5 <= length (split line3) ->
  exists text',
    set_simulation_time self (lit "2010-01-01") (lit "2010-12-31") 0 w
    = (Ok tt, set_file (time_sim_path self) text' w)
    /\ readlines text'
       = <[2 := lit "       1       2010        365       2010          0 " ++ [nl]]>
           (readlines text)
    /\ forall j, j <> 2 -> readlines text' !! j = readlines text !! j.
Proof.
  intros Ht H3 Hlen.
  exists (concat (<[2 := lit "       1       2010        365       2010          0 "
                         ++ [nl]]> (readlines text))).
  assert (Hre : readlines
                  (concat (<[2 := lit "       1       2010        365       2010          0 "
                                  ++ [nl]]> (readlines text)))
                = <[2 := lit "       1       2010        365       2010          0 "
                         ++ [nl]]> (readlines text)).
  { apply readlines_of_concat, proper_insert.
    - apply readlines_proper.
    - eapply lookup_lt_Some, H3.
    - eexists. split; [reflexivity|]. intros Hin. vm_compute in Hin.
      repeat (apply elem_of_cons in Hin as [Hin|Hin]; [discriminate|]).
      now apply elem_of_nil in Hin. }
  split; [|split].
  - unfold set_simulation_time. fold (time_sim_path self).
    change (strptime (lit "2010-01-01"))
      with (@ret date {| tm_year := 2010; tm_mon := 1; tm_mday := 1 |}).
    change (strptime (lit "2010-12-31"))
      with (@ret date {| tm_year := 2010; tm_mon := 12; tm_mday := 31 |}).
    unfold bind at 1 2. unfold ret at 1 2.
    rewrite (bind_ok _ _ _ _ _ (read_text_holds _ _ _ Ht)).
    change (3 - 1) with 2.
    rewrite (getitem_ok _ _ _ H3). unfold bind at 1, ret at 1.
    destruct (split line3) as [|e0 [|e1 [|e2 [|e3 [|e4 rest]]]]]; simpl in Hlen; try lia.
    repeat (rewrite setitem_ok by (simpl; lia); unfold bind at 1, ret at 1).
    cbn [map list_insert insert format_time_sim].
    unfold bind at 1, ret at 1.
    rewrite setitem_ok by (eapply lookup_lt_Some, H3).
    unfold bind at 1, ret at 1.
    rewrite (write_text_holds _ _ _ _ Ht). reflexivity.
  - exact Hre.
  - intros j Hj. rewrite Hre. apply list_lookup_insert_ne. congruence.
Qed.

Lemma set_simulation_time_2010_witness :
  exists text',
    set_simulation_time ex_self (lit "2010-01-01") (lit "2010-12-31") 0
      (ex_world [(lit "time.sim",
                  unlines ["time.sim: written by editor"; "day_start  yrc_start  day_end  yrc_end  step";
                           "       0       2001         0      2020         0"])])
    = (Ok tt,
       set_file (time_sim_path ex_self) text'
         (ex_world [(lit "time.sim",
                     unlines ["time.sim: written by editor"; "day_start  yrc_start  day_end  yrc_end  step";
                              "       0       2001         0      2020         0"])]))
    /\ readlines text'
       = <[2 := lit "       1       2010        365       2010          0 " ++ [nl]]>
           (readlines
              (unlines ["time.sim: written by editor"; "day_start  yrc_start  day_end  yrc_end  step";
                        "       0       2001         0      2020         0"]))
    /\ forall j, j <> 2 ->
         readlines text' !! j
         = readlines
             (unlines ["time.sim: written by editor"; "day_start  yrc_start  day_end  yrc_end  step";
                       "       0       2001         0      2020         0"]) !! j.
Proof.
  apply (set_simulation_time_2010 ex_self
           (ex_world [(lit "time.sim",
                       unlines ["time.sim: written by editor"; "day_start  yrc_start  day_end  yrc_end  step";
                                "       0       2001         0      2020         0"])])
           (unlines ["time.sim: written by editor"; "day_start  yrc_start  day_end  yrc_end  step";
                     "       0       2001         0      2020         0"])
           (lit "       0       2001         0      2020         0" ++ [nl])).
  - split; vm_compute; reflexivity.
  - vm_compute. reflexivity.
  - vm_compute. lia.
Defined.

(** ** The CSV switch: [_enable_disable_csv_print] *)

Lemma readlines_cons_inv x r :
  exists t ls, readlines (x :: r) = (x :: t) :: ls /\ t ++ concat ls = r.
Proof.
  simpl. destruct (Ascii.eqb x nl).
  - exists [], (readlines r). split; [reflexivity|apply readlines_concat].
  - destruct (readlines r) as [|l ls] eqn:E.
    + exists [], []. split; [reflexivity|]. symmetry. now apply readlines_nil_inv.
    + exists l, ls. split; [reflexivity|]. rewrite <- (readlines_concat r), E. reflexivity.
Qed.

(** The switch replaces the character that opens the seventh line, and
    nothing else of the text. *)
Lemma csv_print_spec self enable w (pre : list (list ascii)) x r :
  holds_text w (print_prt_path self) (concat pre ++ x :: r) ->
  length pre = 6 -> Forall complete pre ->
  _enable_disable_csv_print self enable w
  = (Ok tt, set_file (print_prt_path self) (concat pre ++ yn enable :: r) w).
Proof.
  intros Ht Hlen Hpre. unfold _enable_disable_csv_print. fold (print_prt_path self).
  rewrite (bind_ok _ _ _ _ _ (read_text_holds _ _ _ Ht)).
  rewrite readlines_complete_prefix by exact Hpre.
  destruct (readlines_cons_inv x r) as (t & ls & -> & <-).
  change (7 - 1) with 6.
  assert (Hget : (pre ++ (x :: t) :: ls) !! 6 = Some (x :: t)).
  { rewrite lookup_app_r by lia. now rewrite Hlen. }
  assert (Hset : forall v, <[6 := v]> (pre ++ (x :: t) :: ls) = pre ++ v :: ls).
  { intros v. rewrite insert_app_r_alt by lia. now rewrite Hlen. }
  assert (Hlt : 6 < length (pre ++ (x :: t) :: ls)) by (eapply lookup_lt_Some, Hget).
  destruct enable;
    rewrite (getitem_ok _ _ _ Hget); unfold bind at 2, ret at 1;
    rewrite setitem_ok by exact Hlt; unfold bind at 1, ret at 1;
    rewrite Hset, (write_text_holds _ _ _ _ Ht);
    unfold writelines; rewrite concat_app; reflexivity.
Qed.

Lemma set_file_twice p t1 t2 w : set_file p t2 (set_file p t1 w) = set_file p t2 w.
Proof. unfold set_file. simpl. now rewrite insert_insert_eq. Qed.

(** The text of a file with at least seven lines, cut at the character
    that opens the seventh. *)
Lemma seventh_line_split text l7 :
  readlines text !! 6 = Some l7 ->
  exists x t,
    l7 = x :: t
    /\ text = concat (take 6 (readlines text)) ++ x :: t ++ concat (drop 7 (readlines text))
    /\ length (take 6 (readlines text)) = 6
    /\ Forall complete (take 6 (readlines text)).
Proof.
  intros H7. pose proof (readlines_proper text) as Hp.
  destruct l7 as [|x t]; [now apply (proper_lookup_nonempty _ _ _ Hp) in H7|].
  exists x, t. pose proof (lookup_lt_Some _ _ _ H7) as Hlt.
  split; [reflexivity|]. split; [|split].
  - rewrite <- (readlines_concat text) at 1.
    rewrite <- (take_drop_middle _ _ _ H7) at 1.
    rewrite concat_app. reflexivity.
  - rewrite length_take. lia.
  - now apply proper_take_complete.
Qed.

(** C7, as the code has it.  On a print configuration with at least seven
    lines, [enable_csv_print] followed by [disable_csv_print] leaves the
    text of the file unchanged except for the character that opens line 7,
    which is [n]; each call rewrites that one character.  The file is what
    it was exactly when line 7 began with [n]. *)
Theorem csv_toggle_round_trip (self : reader) (w : World) (text l7 : list ascii) :
  holds_text w (print_prt_path self) text ->
  readlines text !! 6 = Some l7 ->
  exists x t,
    l7 = x :: t
    /\ text = concat (take 6 (readlines text)) ++ x :: t ++ concat (drop 7 (readlines text))
    /\ enable_csv_print self w
       = (Ok tt,
          set_file (print_prt_path self)
            (concat (take 6 (readlines text)) ++ yn true :: t
             ++ concat (drop 7 (readlines text))) w)
    /\ (enable_csv_print self ;; disable_csv_print self) w
       = (Ok tt,
          set_file (print_prt_path self)
            (concat (take 6 (readlines text)) ++ yn false :: t
             ++ concat (drop 7 (readlines text))) w)
    /\ (concat (take 6 (readlines text)) ++ yn false :: t
          ++ concat (drop 7 (readlines text)) = text
        <-> x = yn false).
Proof.
  intros Ht H7.
  destruct (seventh_line_split _ _ H7) as (x & t & -> & Etext & Hlen & Hpre).
  exists x, t. split; [reflexivity|]. split; [exact Etext|].
  assert (Hen : enable_csv_print self w
                = (Ok tt,
                   set_file (print_prt_path self)
                     (concat (take 6 (readlines text)) ++ yn true :: t
                      ++ concat (drop 7 (readlines text))) w)).
  { unfold enable_csv_print.
    apply (csv_print_spec self true w _ x); [|exact Hlen|exact Hpre].
    now rewrite <- Etext. }
  split; [exact Hen|]. split.
  - rewrite (bind_ok _ _ _ _ _ Hen). unfold disable_csv_print.
    rewrite (csv_print_spec self false _ (take 6 (readlines text)) (yn true)
               (t ++ concat (drop 7 (readlines text)))); [|  |exact Hlen|exact Hpre].
    + now rewrite set_file_twice.
    + unfold print_prt_path in *. eapply holds_text_set_file, Ht.
  - split.
    + intros E. rewrite Etext in E at 3. apply app_inv_head in E. congruence.
    + intros ->. now rewrite Etext at 3.
Qed.

Lemma csv_toggle_round_trip_witness :
  (enable_csv_print ex_self ;; disable_csv_print ex_self)
    (ex_world [(lit "print.prt",
                unlines ["print.prt"; "nyskip"; "1"; "aa_int_cnt"; "0"; "csvout  dbout"; "n  n"])])
  = (Ok tt,
     set_file (print_prt_path ex_self)
       (unlines ["print.prt"; "nyskip"; "1"; "aa_int_cnt"; "0"; "csvout  dbout"; "n  n"])
       (ex_world [(lit "print.prt",
                   unlines ["print.prt"; "nyskip"; "1"; "aa_int_cnt"; "0"; "csvout  dbout";
                            "n  n"])])).
Proof.
  destruct (csv_toggle_round_trip ex_self
              (ex_world [(lit "print.prt",
                          unlines ["print.prt"; "nyskip"; "1"; "aa_int_cnt"; "0";
                                   "csvout  dbout"; "n  n"])])
              (unlines ["print.prt"; "nyskip"; "1"; "aa_int_cnt"; "0"; "csvout  dbout"; "n  n"])
              (lit "n  n" ++ [nl]))
    as (x & t & E7 & _ & _ & Hrt & _).
  - split; vm_compute; reflexivity.
  - vm_compute. reflexivity.
  - injection E7 as <- <-. exact Hrt.
Defined.

(** C7, as stated, fails: a seventh line that begins with [y] begins with
    [n] after the round trip. *)
Lemma csv_toggle_round_trip_counterexample :
  (enable_csv_print ex_self ;; disable_csv_print ex_self)
    (ex_world [(lit "print.prt",
                unlines ["print.prt"; "nyskip"; "1"; "aa_int_cnt"; "0"; "csvout  dbout"; "y  n"])])
  = (Ok tt,
     set_file (print_prt_path ex_self)
       (unlines ["print.prt"; "nyskip"; "1"; "aa_int_cnt"; "0"; "csvout  dbout"; "n  n"])
       (ex_world [(lit "print.prt",
                   unlines ["print.prt"; "nyskip"; "1"; "aa_int_cnt"; "0"; "csvout  dbout";
                            "y  n"])]))
  /\ readlines
       (unlines ["print.prt"; "nyskip"; "1"; "aa_int_cnt"; "0"; "csvout  dbout"; "n  n"]) !! 6
     <> readlines
          (unlines ["print.prt"; "nyskip"; "1"; "aa_int_cnt"; "0"; "csvout  dbout"; "y  n"]) !! 6.
Proof.
  split.
  - vm_compute. reflexivity.
  - vm_compute. discriminate.
Qed.

(** ** Templates: [change_params] *)

Lemma match_here_plain pat s :
  forallb (fun c => negb (Ascii.eqb c dot)) pat = true ->
  match_here pat s = startswith pat s.
Proof.
  revert s. induction pat as [|p pat IH]; intros s Hp; simpl in *; [reflexivity|].
  apply andb_true_iff in Hp as [Hd Hp]. destruct s as [|c s]; [reflexivity|].
  fold dot. apply negb_true_iff in Hd. rewrite Hd. now rewrite IH.
Qed.

Lemma sub_scan_skip pat repl k s :
  sub_scan pat repl k s = sub_scan pat repl 0 (drop k s).
Proof.
  revert k. induction s as [|c s IH]; intros k.
  - now rewrite drop_nil.
  - destruct k as [|k]; [reflexivity|]. simpl. apply IH.
Qed.

Lemma occurs_cons_inv pat c s :
  occurs pat (c :: s) -> startswith pat (c :: s) = true \/ occurs pat s.
Proof.
  intros (a & b & E). destruct a as [|x a]; simpl in E.
  - left. rewrite E. apply startswith_app.
  - right. injection E as _ ->. now exists a, b.
Qed.

Lemma occurs_too_short pat s : length s < length pat -> ~ occurs pat s.
Proof.
  intros Hlen (a & b & ->). rewrite !length_app in Hlen. lia.
Qed.

Lemma startswith_app_l p s r : startswith p s = true -> startswith p (s ++ r) = true.
Proof.
  intros Hs. apply startswith_inv in Hs as [q ->]. rewrite <- app_assoc.
  apply startswith_app.
Qed.

(** Copying a character that opens no occurrence. *)
Lemma Replaced_cons pat repl c s s' :
  pat <> [] -> startswith pat (c :: s) = false ->
  Replaced pat repl s s' -> Replaced pat repl (c :: s) (c :: s').
Proof.
  intros Hne Hc Hr. destruct Hr as [s Hno|pre rest rest' Hleft Hr].
  - apply Replaced_none. intros Ho.
    apply occurs_cons_inv in Ho as [Ho|Ho]; [congruence|contradiction].
  - apply (Replaced_first pat repl (c :: pre)); [|exact Hr].
    intros Ho. apply occurs_cons_inv in Ho as [Ho|Ho]; [|contradiction].
    assert (Hs : startswith pat (c :: pre ++ pat ++ rest) = true).
    { pose proof (app_removelast_last c Hne) as E.
      remember (removelast pat) as rl. remember (List.last pat c) as la.
      rewrite E at 2.
      replace (c :: pre ++ (rl ++ [la]) ++ rest) with ((c :: pre ++ rl) ++ [la] ++ rest)
        by (simpl; now rewrite <- !app_assoc).
      now apply startswith_app_l. }
    congruence.
Qed.

Lemma sub_scan_Replaced pat repl :
  pat <> [] ->
  forallb (fun c => negb (Ascii.eqb c dot)) pat = true ->
  forall n s, length s <= n -> Replaced pat repl s (sub_scan pat repl 0 s).
Proof.
  intros Hne Hplain. induction n as [|n IH]; intros s Hn.
  - destruct s; [|simpl in Hn; lia]. apply Replaced_none, occurs_too_short.
    destruct pat; [congruence|simpl; lia].
  - destruct s as [|c s]. 
    { apply Replaced_none, occurs_too_short. destruct pat; [congruence|simpl; lia]. }
    cbn [sub_scan]. rewrite match_here_plain by exact Hplain.
    destruct (startswith pat (c :: s)) eqn:Hs.
    + apply startswith_inv in Hs as [rest Hs].
      rewrite sub_scan_skip.
      assert (Hd : drop (length pat - 1) s = rest).
      { destruct pat as [|p pat]; [congruence|]. simpl in Hs. injection Hs as _ ->.
        simpl. rewrite Nat.sub_0_r. apply drop_app_length. }
      rewrite Hd, Hs.
      apply (Replaced_first pat repl [] rest).
      * apply occurs_too_short. rewrite app_nil_l, removelast_firstn_len, length_take.
        destruct pat as [|p pat]; [congruence|simpl; lia].
      * apply IH. apply (f_equal length) in Hs. rewrite length_app in Hs. simpl in *.
        destruct pat; [congruence|simpl in *; lia].
    + apply Replaced_cons; [exact Hne|exact Hs|]. apply IH. simpl in Hn. lia.
Qed.

Lemma token_pattern_modelled k :
  token_plain k = true ->
  pattern_modelled (lit "#" ++ k ++ lit "#") = true
  /\ forallb (fun c => negb (Ascii.eqb c dot)) (lit "#" ++ k ++ lit "#") = true.
Proof.
  intros Hk. unfold token_plain in Hk. rewrite forallb_forall in Hk. split.
  - unfold pattern_modelled. simpl. rewrite andb_true_r.
    apply negb_true_iff. rewrite existsb_app. simpl.
    rewrite orb_false_r. apply not_true_is_false. intros Hex.
    apply existsb_exists in Hex as (c & Hin & Hm).
    specialize (Hk c Hin). rewrite Hm in Hk. discriminate.
  - simpl. rewrite forallb_app. simpl. rewrite andb_true_r.
    apply forallb_forall. intros c Hin. specialize (Hk c Hin).
    now apply andb_true_iff in Hk as [_ Hk].
Qed.

Lemma re_sub_plain general k repl s :
  token_plain k = true -> repl_modelled repl = true ->
  Replaced (lit "#" ++ k ++ lit "#") repl s
    (re_sub general (lit "#" ++ k ++ lit "#") repl s).
Proof.
  intros Hk Hr. destruct (token_pattern_modelled k Hk) as [Hm Hp].
  unfold re_sub. rewrite Hm, Hr. simpl andb. cbv iota.
  assert (Hne : lit "#" ++ k ++ lit "#" <> []) by (cbn; discriminate).
  apply (sub_scan_Replaced _ _ Hne Hp (length s)). lia.
Qed.

Lemma write_text_ok w p text :
  check_dirs (fs w) [] (parent p) = None -> isdir (fs w) p = false ->
  write_text p text w = (Ok tt, set_file p text w).
Proof.
  intros Hd Hp. unfold write_text, bind, get_fs. rewrite Hd.
  unfold isdir in Hp. destruct (stat (fs w) p) as [[|]|]; [reflexivity|discriminate|reflexivity].
Qed.

Lemma rsplit1_head_last_sep sep stem ext :
  sep ∉ ext -> rsplit1_head sep (stem ++ sep :: ext) = stem.
Proof.
  intros Hext. unfold rsplit1_head.
  assert (Hnone : before_last sep ext = None).
  { induction ext as [|c ext IH]; [reflexivity|]. simpl.
    apply not_elem_of_cons in Hext as [Hc Hext]. rewrite (IH Hext).
    destruct (Ascii.eqb_spec c sep); [congruence|reflexivity]. }
  assert (Hsome : before_last sep (stem ++ sep :: ext) = Some stem).
  { induction stem as [|c stem IH]; simpl.
    - now rewrite Hnone, Ascii.eqb_refl.
    - now rewrite IH. }
  now rewrite Hsome.
Qed.

Lemma change_params_fold `{Externals} (params : list (list ascii * Value)) s :
  forallb (fun '(k, v) => token_plain k && repl_modelled (py_str v)) params = true ->
  Replaced_in_order py_str params s
    (fold_left
       (fun new_lines '(k, v) =>
          re_sub re_general (lit "#" ++ k ++ lit "#") (py_str v) new_lines)
       params s).
Proof.
  revert s. induction params as [|[k v] params IH]; intros s Hall; simpl.
  - constructor.
  - simpl in Hall. apply andb_true_iff in Hall as [Hkv Hall].
    apply andb_true_iff in Hkv as [Hk Hv].
    eapply Replaced_next; [now apply re_sub_plain|now apply IH].
Qed.

(** Opening a path made from a string of the caller. *)
Lemma check_dirs_prefix f (a b : list (list ascii)) :
  check_dirs f [] (a ++ b) = None -> check_dirs f [] a = None.
Proof.
  assert (forall pre rest rest', check_dirs f pre (rest ++ rest') = None ->
            check_dirs f pre rest = None) as Hgen.
  { intros pre rest. revert pre. induction rest as [|n rest IH]; intros pre rest' Hc;
      [reflexivity|].
    cbn [app check_dirs] in *. destruct (f !! (pre ++ [n])) as [[c|]|]; try discriminate Hc.
    now apply (IH _ rest'). }
  apply Hgen.
Qed.

Lemma check_dirs_parent f (p : list (list ascii)) :
  check_dirs f [] p = None -> check_dirs f [] (parent p) = None.
Proof.
  induction p as [|n q _] using rev_ind; [intros _; reflexivity|].
  rewrite parent_snoc. apply check_dirs_prefix.
Qed.

Lemma check_dirs_snoc_dir f (p : list (list ascii)) n :
  check_dirs f [] p = None -> f !! (p ++ [n]) = Some Dir -> check_dirs f [] (p ++ [n]) = None.
Proof.
  assert (forall pre rest, check_dirs f pre rest = None ->
            f !! ((pre ++ rest) ++ [n]) = Some Dir ->
            check_dirs f pre (rest ++ [n]) = None) as Hgen.
  { intros pre rest. revert pre. induction rest as [|m rest IH]; intros pre Hc Hn.
    - cbn [app check_dirs]. rewrite app_nil_r in Hn. now rewrite Hn.
    - cbn [app check_dirs] in *. destruct (f !! (pre ++ [m])) as [[c|]|]; try discriminate Hc.
      apply IH; [exact Hc|]. rewrite <- (app_assoc pre [m] rest). exact Hn. }
  intros Hp Hn. now apply Hgen.
Qed.

Lemma resolve_parent_dirs f rest :
  forall cur q,
    check_dirs f [] cur = None -> resolve f cur rest = Ok q ->
    check_dirs f [] (parent q) = None.
Proof.
  induction rest as [|c rest IH]; intros cur q Hcur Hres; cbn [resolve] in Hres.
  - injection Hres as <-. now apply check_dirs_parent.
  - destruct (decide (c = lit "..")) as [_|_].
    + apply (IH (parent cur)); [now apply check_dirs_parent|exact Hres].
    + destruct rest as [|c' rest'].
      * injection Hres as <-. now rewrite parent_snoc.
      * destruct (f !! (cur ++ [c])) as [[x|]|] eqn:Hc; try discriminate Hres.
        apply (IH (cur ++ [c])); [now apply check_dirs_snoc_dir|exact Hres].
Qed.

Lemma resolve_without_dotdot f rest :
  lit ".." ∉ rest ->
  forall cur q, resolve f cur rest = Ok q -> q = cur ++ rest.
Proof.
  induction rest as [|c rest IH]; intros Hno cur q Hres; cbn [resolve] in Hres.
  - injection Hres as <-. now rewrite app_nil_r.
  - apply not_elem_of_cons in Hno as [Hc Hno].
    destruct (decide (c = lit "..")) as [E|_]; [now symmetry in E|].
    destruct rest as [|c' rest'].
    + now injection Hres as <-.
    + destruct (f !! (cur ++ [c])) as [[x|]|]; try discriminate Hres.
      rewrite (IH Hno _ _ Hres). now rewrite <- app_assoc.
Qed.

Lemma truediv_plain (root : list (list ascii)) n :
  plain_name n = true -> truediv root n = root ++ [n].
Proof.
  unfold plain_name. intros Hn.
  apply andb_true_iff in Hn as [Hn Hdd]. apply andb_true_iff in Hn as [Hn Hd].
  apply andb_true_iff in Hn as [Hne Hslash].
  assert (forall s : list ascii, existsb (Ascii.eqb (ascii_of_nat 47)) s = false ->
            split_on (ascii_of_nat 47) s = [s]) as Hsplit.
  { induction s as [|c s IHs]; [reflexivity|]. cbn [existsb split_on].
    intros [Hc Hs]%orb_false_iff. rewrite Ascii.eqb_sym in Hc.
    rewrite Hc, (IHs Hs). reflexivity. }
  apply negb_true_iff in Hslash.
  unfold truediv, path_parts. rewrite (Hsplit _ Hslash). cbn [List.filter].
  rewrite Hne, Hd. cbn [andb].
  destruct n as [|c n]; [discriminate Hne|].
  cbn [existsb] in Hslash. apply orb_false_iff in Hslash as [Hc _].
  assert (startswith (lit "/") (c :: n) = false) as ->; [|reflexivity].
  change (Ascii.eqb (ascii_of_nat 47) c && true = false). now rewrite Hc.
Qed.

Lemma resolve_plain_name f (root : list (list ascii)) n p :
  lit ".." ∉ root -> plain_name n = true ->
  resolve f [] (truediv root n) = Ok p -> p = root ++ [n].
Proof.
  intros Hroot Hn Hp. rewrite (truediv_plain _ _ Hn) in Hp.
  apply resolve_without_dotdot in Hp; [exact Hp|].
  rewrite elem_of_app, elem_of_cons. intros [Hin|[E|E]];
    [contradiction| |now apply elem_of_nil in E].
  rewrite <- E in Hn. vm_compute in Hn. discriminate Hn.
Qed.

Lemma open_read_holds w p q text :
  resolve (fs w) [] p = Ok q -> holds_text w q text -> open_read p w = (Ok text, w).
Proof.
  intros Hres Ht. unfold open_read, bind at 1, get_fs at 1. rewrite Hres.
  now apply read_text_holds.
Qed.

Lemma open_write_ok w p q text :
  resolve (fs w) [] p = Ok q -> isdir (fs w) q = false ->
  open_write p text w = (Ok tt, set_file q text w).
Proof.
  intros Hres Hq. unfold open_write, bind at 1, get_fs at 1. rewrite Hres.
  apply write_text_ok; [|exact Hq].
  exact (resolve_parent_dirs _ _ [] q eq_refl Hres).
Qed.


(** C8.  The claim is what the docstring of [change_params] promises: the
    parameters written [#key#] in the template are replaced.  The code
    hands ["#" + key + "#"] to [re.sub] as it is, so the key is read as a
    regular expression: with the key [a.c] and the template [#abc#], in
    which [#a.c#] does not occur, the call replaces [#abc#] by the value
    and writes [0.555] to [soils.sol]. *)
Theorem change_params_reads_key_as_pattern :
  ~ occurs (lit "#a.c#") (lit "#abc#")
  /\ @change_params ex_externals ex_self (lit "soils.sol.tpl") [(lit "a.c", lit "0.555")]
       (ex_world [(lit "soils.sol.tpl", lit "#abc#")])
     = (Ok tt,
        set_file [lit "ws"; lit "soils.sol"] (lit "0.555")
          (ex_world [(lit "soils.sol.tpl", lit "#abc#")]))
  /\ ~ Replaced_in_order (@py_str ex_externals) [(lit "a.c", lit "0.555")]
         (lit "#abc#") (lit "0.555").
Proof.
  split; [|split].
  - intros (a & b & E). destruct a as [|x a].
    + cbn in E. discriminate E.
    + apply (f_equal (@length ascii)) in E. cbn [app] in E.
      rewrite length_cons, !length_app in E. cbn in E. lia.
  - vm_compute. reflexivity.
  - intros Hr. inversion Hr as [|k v ps s s1 s2 H1 H2]; subst.
    inversion H2; subst. clear Hr H2.
    inversion H1 as [s Hno E1 E2|pre rest rest' Hleft Hrest E1 E2].
    destruct pre as [|x pre]; [discriminate E1|].
    apply (f_equal (@length ascii)) in E1. rewrite length_cons, length_app in E1.
    simpl in E1. lia.
Qed.

(** ** Batches: [run_parallel_swat] *)

(** The indexed loop over [range(len(params))] visits the elements in
    order. *)
Lemma bind_assoc {A B C} (m : M A) (k : A -> M B) (k' : B -> M C) w :
  bind (bind m k) k' w = bind m (fun a => bind (k a) k') w.
Proof. unfold bind. destruct (m w) as [[a|e] w1]; reflexivity. Qed.

Lemma bind_ret_l {A B} (a : A) (k : A -> M B) w : bind (ret a) k w = k a w.
Proof. reflexivity. Qed.

Lemma bind_ret_r {A} (m : M A) w : bind m ret w = m w.
Proof. unfold bind, ret. destruct (m w) as [[a|e] w1]; reflexivity. Qed.

Lemma for_fold_range {P R} (run : P -> M R) (ps pre : list P) (acc : list R) w :
  for_fold (seq (length pre) (length ps)) acc
    (fun results_ret i =>
       do p <- getitem (pre ++ ps) i ;
       do r <- run p ;
       ret (results_ret ++ [r])) w
  = (do rs <- run_in_order run ps ; ret (acc ++ rs)) w.
Proof.
  revert pre acc w. induction ps as [|p ps IH]; intros pre acc w; simpl.
  - rewrite bind_ret_l. unfold ret. now rewrite app_nil_r.
  - assert (Hget : (pre ++ p :: ps) !! length pre = Some p)
      by (rewrite lookup_app_r by lia; now rewrite Nat.sub_diag).
    rewrite (getitem_ok _ _ _ Hget).
    rewrite !bind_assoc, bind_ret_l, !bind_assoc.
    destruct (run p w) as [[r|e] w1] eqn:E.
    + rewrite !(bind_ok _ _ _ _ _ E). rewrite bind_ret_l.
      replace (pre ++ p :: ps) with ((pre ++ [p]) ++ ps) by now rewrite <- app_assoc.
      replace (S (length pre)) with (length (pre ++ [p]))
        by (rewrite length_app; simpl; lia).
      rewrite IH, bind_assoc.
      destruct (run_in_order run ps w1) as [[rs|e] w2] eqn:E2.
      * rewrite !(bind_ok _ _ _ _ _ E2). rewrite bind_ret_l. unfold ret.
        now rewrite <- app_assoc.
      * now rewrite !(bind_raise _ _ _ _ _ E2).
    + now rewrite !(bind_raise _ _ _ _ _ E).
Qed.

Lemma run_parallel_swat_local `{Externals} self params n_workers dir w :
  run_parallel_swat self params n_workers dir None w
  = run_in_order (fun p => copy_and_run self dir false p (TplDict []) false) params w.
Proof.
  unfold run_parallel_swat. cbv zeta.
  pose proof (for_fold_range
                (fun p => copy_and_run self dir false p (TplDict []) false) params [] [] w)
    as Hloop.
  cbn [length app] in Hloop. rewrite Hloop. apply bind_ret_r.
Qed.

(** C9.  Without an executor the batch does not depend on the number of
    workers: for any two values the call returns the same result and
    leaves the same world, those of the runs made one after the other in
    the order of the input. *)
Theorem run_parallel_swat_ignores_workers `{Externals} (self : reader)
    (params : list (list (list ascii * (list ascii
                 * list (option (list ascii) * list ascii * Value)))))
    (n1 n2 : Z) (dir : option (list (list ascii))) (w : World) :
  run_parallel_swat self params n1 dir None w
  = run_parallel_swat self params n2 dir None w
  /\ run_parallel_swat self params n1 dir None w
     = run_in_order (fun p => copy_and_run self dir false p (TplDict []) false) params w.
Proof.
  split.
  - now rewrite !run_parallel_swat_local.
  - apply run_parallel_swat_local.
Qed.

(** The task list of the executor path holds one task per parameter set,
    in the order of the input. *)
Lemma build_items {P T} (mk : P -> T) (ps pre : list P) (acc : list T) w :
  for_fold (seq (length pre) (length ps)) acc
    (fun items i => do p <- getitem (pre ++ ps) i ; ret (items ++ [mk p])) w
  = (Ok (acc ++ map mk ps), w).
Proof.
  revert pre acc. induction ps as [|p ps IH]; intros pre acc; simpl.
  - unfold ret. now rewrite app_nil_r.
  - assert (Hget : (pre ++ p :: ps) !! length pre = Some p)
      by (rewrite lookup_app_r by lia; now rewrite Nat.sub_diag).
    rewrite (getitem_ok _ _ _ Hget). rewrite bind_assoc, !bind_ret_l.
    replace (pre ++ p :: ps) with ((pre ++ [p]) ++ ps) by now rewrite <- app_assoc.
    replace (S (length pre)) with (length (pre ++ [p]))
      by (rewrite length_app; simpl; lia).
    rewrite IH. now rewrite <- app_assoc.
Qed.

Lemma client_gather_gathered {R} (futures : list (option (result R))) acc w :
  for_fold futures acc
    (fun (results : list R) (future : option (result R)) =>
       match future with
       | Some (Ok r) => ret (results ++ [r])
       | Some (Raise e) => raise e
       | None => raise (ExternalError 0)
       end) w
  = (match gathered futures with
     | Ok rs => Ok (acc ++ rs)
     | Raise e => Raise e
     end, w).
Proof.
  revert acc. induction futures as [|[[r|e]|] futures IH]; intros acc; simpl.
  - unfold ret. now rewrite app_nil_r.
  - rewrite bind_ret_l, IH. destruct (gathered futures); [|reflexivity].
    now rewrite <- app_assoc.
  - reflexivity.
  - reflexivity.
Qed.

Lemma gathered_ok {R} (futures : list (option (result R))) rs :
  gathered futures = Ok rs ->
  length rs = length futures
  /\ forall i r, rs !! i = Some r -> futures !! i = Some (Some (Ok r)).
Proof.
  revert rs. induction futures as [|[[r0|e]|] futures IH]; intros rs Hg; simpl in Hg;
    try discriminate.
  - injection Hg as <-. split; [reflexivity|]. intros i r Hr. discriminate.
  - destruct (gathered futures) as [rs1|e]; [|discriminate]. injection Hg as <-.
    destruct (IH _ eq_refl) as [Hlen Hall]. split; [simpl; lia|].
    intros [|i] r Hr; simpl in *; [congruence|now apply Hall].
Qed.

Lemma batch_trace_sound {P R} (stop : bool) (run : P -> M R) (ps : list P) order :
  forall w,
    Forall (fun e => exists p, ps !! fst (fst e) = Some p
                               /\ fst (run p (snd (fst e))) = snd e)
           (fst (batch_trace stop run ps order w)).
Proof.
  induction order as [|i order IH]; intros w; cbn [batch_trace]; [constructor|].
  destruct (ps !! i) as [p|] eqn:Hp; [|apply IH].
  destruct (run p w) as [r w1] eqn:Hrun.
  assert (exists p0, ps !! fst (fst (i, w, r)) = Some p0
                     /\ fst (run p0 (snd (fst (i, w, r)))) = snd (i, w, r)) as Hhead.
  { exists p. cbn [fst snd]. now rewrite Hrun. }
  specialize (IH w1).
  destruct r as [a|e]; [|destruct stop].
  - destruct (batch_trace stop run ps order w1) as [tr w2]. now constructor.
  - constructor; [exact Hhead|constructor].
  - destruct (batch_trace false run ps order w1) as [tr w2]. now constructor.
Qed.

Lemma batch_trace_map {P T R} (stop : bool) (fn : T -> M R) (mk : P -> T) (ps : list P) order :
  forall w,
    batch_trace stop fn (map mk ps) order w
    = batch_trace stop (fun p => fn (mk p)) ps order w.
Proof.
  induction order as [|i order IH]; intros w; cbn [batch_trace]; [reflexivity|].
  rewrite list_lookup_fmap. destruct (ps !! i) as [p|]; cbn [fmap option_fmap option_map];
    [|apply IH].
  destruct (fn (mk p) w) as [r w1]. rewrite IH. reflexivity.
Qed.

Lemma client_map_trace {T R} (fn : T -> M R) (items : list T) order :
  forall (done0 : list (nat * result R)) w,
    for_fold order done0
      (fun (done : list (nat * result R)) (i : nat) =>
         match items !! i with
         | None => ret done
         | Some t => fun w => let '(r, w') := fn t w in (Ok (done ++ [(i, r)]), w')
         end) w
    = (Ok (done0 ++ map (fun e => (fst (fst e), snd e))
                        (fst (batch_trace false fn items order w))),
       snd (batch_trace false fn items order w)).
Proof.
  induction order as [|i order IH]; intros done0 w; cbn [for_fold batch_trace].
  - cbn. now rewrite app_nil_r.
  - destruct (items !! i) as [t|].
    + unfold bind at 1. destruct (fn t w) as [r w1]. rewrite IH.
      destruct (batch_trace false fn items order w1) as [tr w2].
      destruct r as [a|e]; cbn [fst snd map]; now rewrite <- app_assoc.
    + rewrite bind_ret_l. apply IH.
Qed.

Lemma first_run_map {R} (i : nat) (tr : list (nat * World * result R)) :
  snd <$> List.find (fun d => Nat.eqb (fst d) i) (map (fun e => (fst (fst e), snd e)) tr)
  = snd <$> first_run i tr.
Proof.
  unfold first_run. induction tr as [|[[j wj] r] tr IH]; [reflexivity|].
  cbn [map List.find fst snd]. destruct (Nat.eqb j i); [reflexivity|exact IH].
Qed.

Lemma first_run_cons_ne {R} (i j : nat) wj (r : result R) tr :
  j <> i -> first_run i ((j, wj, r) :: tr) = first_run i tr.
Proof.
  intros Hne. unfold first_run. cbn [List.find fst snd].
  now rewrite (proj2 (Nat.eqb_neq j i) Hne).
Qed.

Lemma first_run_cons_eq {R} (i : nat) wi (r : result R) tr :
  first_run i ((i, wi, r) :: tr) = Some (wi, r).
Proof. unfold first_run. cbn [List.find fst snd]. now rewrite Nat.eqb_refl. Qed.

(** The local loop, as a trace. *)
Lemma run_in_order_trace {P R} (run : P -> M R) (ps : list P) :
  forall (pre : list P) w,
    run_in_order run ps w
    = (gathered (map (fun i => snd <$> first_run i
                                 (fst (batch_trace true run (pre ++ ps)
                                         (seq (length pre) (length ps)) w)))
                     (seq (length pre) (length ps))),
       snd (batch_trace true run (pre ++ ps) (seq (length pre) (length ps)) w)).
Proof.
  induction ps as [|p ps IH]; intros pre w; [reflexivity|].
  cbn [run_in_order length seq batch_trace map].
  rewrite list_lookup_middle by reflexivity.
  unfold bind at 1. destruct (run p w) as [[a|e] w1].
  - specialize (IH (pre ++ [p]) w1).
    rewrite <- app_assoc, length_app in IH. cbn [app length] in IH.
    replace (length pre + 1) with (S (length pre)) in IH by lia.
    destruct (batch_trace true run (pre ++ p :: ps) (seq (S (length pre)) (length ps)) w1)
      as [tr w2].
    cbn [fst snd] in *. rewrite first_run_cons_eq. cbn [fmap option_fmap option_map snd gathered].
    unfold bind. rewrite IH. unfold ret.
    replace (map (fun i => snd <$> first_run i ((length pre, w, Ok a) :: tr))
                 (seq (S (length pre)) (length ps)))
      with (map (fun i => snd <$> first_run i tr) (seq (S (length pre)) (length ps))).
    + now destruct (gathered _).
    + apply map_ext_in. intros i Hi. apply in_seq in Hi.
      rewrite first_run_cons_ne by lia. reflexivity.
  - cbn [fst snd]. rewrite first_run_cons_eq. reflexivity.
Qed.

Lemma gathered_raise_first {R} (futures : list (option (result R))) e :
  gathered futures = Raise e ->
  exists i,
    i < length futures
    /\ (forall j, j < i -> exists r, futures !! j = Some (Some (Ok r)))
    /\ (futures !! i = Some None /\ e = ExternalError 0
        \/ futures !! i = Some (Some (Raise e))).
Proof.
  induction futures as [|[[r|e']|] futures IH]; intros Hg; cbn [gathered] in Hg.
  - discriminate Hg.
  - destruct (gathered futures) as [rs|e''] eqn:Hg'; [discriminate Hg|].
    injection Hg as ->. destruct (IH eq_refl) as (i & Hi & Hbefore & Hat).
    exists (S i). split; [cbn; lia|]. split; [|exact Hat].
    intros [|j] Hj; [now exists r|]. apply Hbefore. lia.
  - injection Hg as ->. exists 0. split; [cbn; lia|]. split; [intros j Hj; lia|].
    now right.
  - injection Hg as <-. exists 0. split; [cbn; lia|]. split; [intros j Hj; lia|].
    now left.
Qed.

(** What the batch returns, on either backend. *)
Lemma run_parallel_swat_outcome `{Externals} (self : reader)
    (params : list (list (list ascii * (list ascii
                 * list (option (list ascii) * list ascii * Value)))))
    (n_workers : Z) (dir : option (list (list ascii))) (client : option Client)
    (w : World) :
  run_parallel_swat self params n_workers dir client w
  = (gathered
       (map (fun i =>
               snd <$> first_run i
                 (fst (batch_trace (is_None client) (run_one client self dir) params
                         (run_order client (length params)) w)))
            (seq 0 (length params))),
     snd (batch_trace (is_None client) (run_one client self dir) params
            (run_order client (length params)) w)).
Proof.
  destruct client as [c|]; cbn [is_None run_order run_one].
  - unfold run_parallel_swat. cbv zeta.
    pose proof (build_items (fun p => (dir, false, p, false)) params [] [] w) as Hitems.
    cbn [length app] in Hitems. rewrite !(bind_ok _ _ _ _ _ Hitems). clear Hitems.
    unfold client_map. rewrite bind_assoc.
    rewrite (bind_ok _ _ _ _ _ (client_map_trace _ _ _ [] w)).
    rewrite bind_ret_l. unfold client_gather. rewrite bind_ret_r, client_gather_gathered.
    cbn [app]. rewrite length_map, batch_trace_map.
    replace (map (fun i => snd <$> List.find (fun d => Nat.eqb (fst d) i) _)
                 (seq 0 (length params)))
      with (map (fun i =>
                   snd <$> first_run i
                     (fst (batch_trace false
                             (fun p => copy_and_run_star self (dir, false, p, false)) params
                             (completion c (length params)) w)))
                (seq 0 (length params)))
      by (apply map_ext; intros i; symmetry; apply first_run_map).
    now destruct (gathered _).
  - rewrite run_parallel_swat_local. apply (run_in_order_trace _ params []).
Qed.

Lemma first_run_In {R} (i : nat) (tr : list (nat * World * result R)) wi r :
  first_run i tr = Some (wi, r) -> In (i, wi, r) tr.
Proof.
  unfold first_run. destruct (List.find _ tr) as [[[j wj] rj]|] eqn:Hf; [|discriminate].
  cbn. intros E. injection E as <- <-.
  apply find_some in Hf as [Hin Hj]. cbn in Hj. apply Nat.eqb_eq in Hj. now subst j.
Qed.

(** C1.  The batch returns one path per parameter set, in the order of the
    input, whatever the order in which the runs were made.  Take the trace
    of the runs of the batch, made one after the other from the world of the
    call, in the order of the list for the local loop and in the order in
    which its workers take the tasks for an executor: every entry of the
    trace is a run of the parameter set of its index.  What the call returns
    is, index by index, the outcome of the (first) run of that index in the
    trace: when it returns a list, the list has one element for each
    parameter set and its [i]-th element is the path that the run of the
    [i]-th set returned; when it raises, the sets before some index ran
    well and the exception is that of the run of the set at that index (or
    the executor took no task for it).  The world it leaves is the one the
    last run left. *)
Theorem run_parallel_swat_results_in_order `{Externals} (self : reader)
    (params : list (list (list ascii * (list ascii
                 * list (option (list ascii) * list ascii * Value)))))
    (n_workers : Z) (dir : option (list (list ascii))) (client : option Client)
    (w : World) :
  let run := run_one client self dir in
  let tr := fst (batch_trace (is_None client) run params
                   (run_order client (length params)) w) in
  let w' := snd (batch_trace (is_None client) run params
                   (run_order client (length params)) w) in
  run_parallel_swat self params n_workers dir client w
  = (gathered (map (fun i => snd <$> first_run i tr) (seq 0 (length params))), w')
  /\ Forall (fun e => exists p, params !! fst (fst e) = Some p
                                /\ fst (run p (snd (fst e))) = snd e) tr
  /\ match run_parallel_swat self params n_workers dir client w with
     | (Ok results, _) =>
         length results = length params
         /\ forall i p, params !! i = Some p ->
              exists r wi wi',
                results !! i = Some r
                /\ first_run i tr = Some (wi, Ok r)
                /\ run p wi = (Ok r, wi')
     | (Raise e, _) =>
         exists i p,
           params !! i = Some p
           /\ (forall j, j < i -> exists r wj, first_run j tr = Some (wj, Ok r))
           /\ (first_run i tr = None /\ e = ExternalError 0
               \/ exists wi wi',
                    first_run i tr = Some (wi, Raise e) /\ run p wi = (Raise e, wi'))
     end.
Proof.
  intros run tr w'.
  pose proof (run_parallel_swat_outcome self params n_workers dir client w) as Hout.
  fold run in Hout. fold tr in Hout. fold w' in Hout.
  pose proof (batch_trace_sound (is_None client) run params
                (run_order client (length params)) w) as Hsound.
  fold tr in Hsound.
  assert (Hrun : forall i p wi r,
            params !! i = Some p -> first_run i tr = Some (wi, r) ->
            exists wi', run p wi = (r, wi')).
  { intros i p wi r Hp Hf. apply first_run_In in Hf.
    rewrite Forall_forall in Hsound.
    destruct (Hsound _ (proj2 (list_elem_of_In _ _) Hf)) as (p' & Hp' & Hr).
    cbn [fst snd] in Hp', Hr. rewrite Hp in Hp'. injection Hp' as <-.
    exists (snd (run p wi)). rewrite <- Hr. now destruct (run p wi). }
  assert (Hfut : forall i x,
            map (fun i => snd <$> first_run i tr) (seq 0 (length params)) !! i = Some x ->
            i < length params /\ x = snd <$> first_run i tr).
  { intros i x Hi. rewrite list_lookup_fmap in Hi.
    destruct (seq 0 (length params) !! i) as [k|] eqn:Hk; [|discriminate Hi].
    apply lookup_seq in Hk as [-> Hlt]. cbn in Hi. injection Hi as <-. now split. }
  split; [exact Hout|]. split; [exact Hsound|].
  rewrite Hout.
  destruct (gathered (map (fun i => snd <$> first_run i tr) (seq 0 (length params))))
    as [rs|e] eqn:Hg.
  - destruct (gathered_ok _ _ Hg) as [Hlen Hrs].
    rewrite length_map, length_seq in Hlen. split; [exact Hlen|].
    intros i p Hp.
    assert (Hlt : i < length rs) by (apply lookup_lt_Some in Hp; lia).
    destruct (lookup_lt_is_Some_2 _ _ Hlt) as [r Hr].
    destruct (Hfut _ _ (Hrs _ _ Hr)) as [_ Hx].
    destruct (first_run i tr) as [[wi r']|] eqn:Hf; [|discriminate Hx].
    cbn in Hx. injection Hx as <-.
    destruct (Hrun i p wi (Ok r) Hp Hf) as [wi' Hwi'].
    now exists r, wi, wi'.
  - destruct (gathered_raise_first _ _ Hg) as (i & Hi & Hbefore & Hat).
    rewrite length_map, length_seq in Hi.
    destruct (lookup_lt_is_Some_2 params i Hi) as [p Hp].
    exists i, p. split; [exact Hp|]. split.
    + intros j Hj. destruct (Hbefore j Hj) as [r Hr].
      destruct (Hfut _ _ Hr) as [_ Hx].
      destruct (first_run j tr) as [[wj r']|]; [|discriminate Hx].
      cbn in Hx. injection Hx as <-. now exists r, wj.
    + destruct Hat as [[Hnone ->]|Hraise].
      * left. split; [|reflexivity]. destruct (Hfut _ _ Hnone) as [_ Hx].
        destruct (first_run i tr); [discriminate Hx|reflexivity].
      * right. destruct (Hfut _ _ Hraise) as [_ Hx].
        destruct (first_run i tr) as [[wi r']|] eqn:Hf; [|discriminate Hx].
        cbn in Hx. injection Hx as <-.
        destruct (Hrun i p wi (Raise e) Hp Hf) as [wi' Hwi'].
        now exists wi, wi'.
Qed.

Lemma run_parallel_swat_results_in_order_witness :
  @run_parallel_swat ex_externals ex_self [[]; []; []] 3 (Some [lit "runs"])
    (Some (mkClient (fun n => rev (seq 0 n)))) (ex_world [])
  = (Ok [[lit "runs"; lit "tmp3"]; [lit "runs"; lit "tmp2"]; [lit "runs"; lit "tmp1"]],
     snd (batch_trace false
            (@run_one ex_externals (Some (mkClient (fun n => rev (seq 0 n)))) ex_self
               (Some [lit "runs"]))
            [[]; []; []] [2; 1; 0] (ex_world [])))
  /\ first_run 0
       (fst (batch_trace false
               (@run_one ex_externals (Some (mkClient (fun n => rev (seq 0 n)))) ex_self
                  (Some [lit "runs"]))
               [[]; []; []] [2; 1; 0] (ex_world [])))
     = Some (snd (batch_trace false
                    (@run_one ex_externals (Some (mkClient (fun n => rev (seq 0 n)))) ex_self
                       (Some [lit "runs"]))
                    [[]; []; []] [2; 1] (ex_world [])),
             Ok [lit "runs"; lit "tmp3"]).
Proof.
  pose proof (@run_parallel_swat_results_in_order ex_externals ex_self [[]; []; []] 3
                (Some [lit "runs"]) (Some (mkClient (fun n => rev (seq 0 n))))
                (ex_world [])) as [Hout _].
  split.
  - rewrite Hout. vm_compute. reflexivity.
  - vm_compute. reflexivity.
Defined.

(** ** Cloning a workspace: [copy_swat] *)

Lemma check_dirs_None_dirs f rest pre :
  check_dirs f pre rest = None ->
  forall k, 0 < k <= length rest -> f !! (pre ++ take k rest) = Some Dir.
Proof.
  revert pre. induction rest as [|n rest IH]; intros pre Hc k Hk; simpl in *; [lia|].
  destruct (f !! (pre ++ [n])) as [[c|]|] eqn:E; try discriminate.
  destruct k as [|k]; [lia|]. rewrite firstn_cons.
  destruct k as [|k]; [now rewrite take_0|].
  specialize (IH _ Hc (S k) ltac:(lia)). now rewrite <- app_assoc in IH.
Qed.

Lemma check_dirs_None_isdir f p : check_dirs f [] p = None -> isdir f p = true.
Proof.
  intros Hc. destruct p as [|n p]; [reflexivity|].
  pose proof (check_dirs_None_dirs _ _ _ Hc (length (n :: p)) ltac:(simpl; lia)) as Hd.
  rewrite firstn_all in Hd. unfold isdir, stat. simpl in *. now rewrite Hd.
Qed.

Lemma isdir_exists f p : isdir f p = true -> exists_ f p = true.
Proof. unfold isdir, exists_. now destruct (stat f p) as [[|]|]. Qed.

Lemma mkdir_exists w p :
  check_dirs (fs w) [] (parent p) = None -> exists_ (fs w) p = true ->
  mkdir p w = (Raise FileExistsError, w).
Proof.
  intros Hd He. unfold mkdir, bind, get_fs. now rewrite Hd, He.
Qed.

(** [os.makedirs] on a regular file raises [FileExistsError], [exist_ok]
    notwithstanding. *)
Lemma makedirs_on_file w d text :
  holds_text w d text -> makedirs d w = (Raise FileExistsError, w).
Proof.
  intros [Hd Hs]. unfold makedirs.
  destruct (rev d) as [|n rhead] eqn:Hrev.
  { apply (f_equal (@rev _)) in Hrev. rewrite rev_involutive in Hrev. subst d.
    discriminate. }
  assert (Ed : d = rev rhead ++ [n]).
  { apply (f_equal (@rev _)) in Hrev. now rewrite rev_involutive in Hrev. }
  rewrite Ed, parent_snoc in Hd.
  assert (Hfile : isdir (fs w) (rev rhead ++ [n]) = false)
    by (unfold isdir; rewrite <- Ed, Hs; reflexivity).
  assert (Hex : exists_ (fs w) (rev rhead ++ [n]) = true)
    by (unfold exists_; rewrite <- Ed, Hs; reflexivity).
  cbn [makedirs_rev rev].
  rewrite bind_assoc. unfold bind at 1, get_fs at 1.
  rewrite (isdir_exists _ _ (check_dirs_None_isdir _ _ Hd)). cbn [negb].
  rewrite bind_ret_l. unfold try_except.
  rewrite mkdir_exists by (rewrite ?parent_snoc; assumption).
  unfold bind, get_fs. now rewrite Hfile.
Qed.

(** *** No branch of [copy_swat] raises a [TypeError] for a given target *)

Lemma no_TypeError_ret {A} (a : A) : no_TypeError (ret a).
Proof. intros w msg w'. discriminate. Qed.

Lemma no_TypeError_raise {A} e :
  (forall msg, e <> TypeError msg) -> no_TypeError (@raise A e).
Proof. intros He w msg w' E. injection E as E _. now apply (He msg). Qed.

Lemma no_TypeError_bind {A B} (m : M A) (k : A -> M B) :
  no_TypeError m -> (forall a, no_TypeError (k a)) -> no_TypeError (bind m k).
Proof.
  intros Hm Hk w msg w'. unfold bind. destruct (m w) as [[a|e] w1] eqn:E.
  - apply Hk.
  - intros E2. injection E2 as -> ->. now apply (Hm w msg w').
Qed.

(** A handler is entered only with an exception of the body. *)
Lemma no_TypeError_try {A} (m : M A) handler :
  no_TypeError m ->
  (forall e h, (forall msg, e <> TypeError msg) -> handler e = Some h -> no_TypeError h) ->
  no_TypeError (try_except m handler).
Proof.
  intros Hm Hh w msg w'. unfold try_except. destruct (m w) as [[a|e] w1] eqn:E.
  - discriminate.
  - assert (He : forall msg0, e <> TypeError msg0).
    { intros msg0 ->. now apply (Hm w msg0 w1). }
    destruct (handler e) as [h|] eqn:Eh.
    + now apply (Hh e h).
    + intros E2. injection E2 as -> ->. now apply (He msg).
Qed.

Lemma no_TypeError_for_each {A} (l : list A) (body : A -> M unit) :
  (forall x, no_TypeError (body x)) -> no_TypeError (for_each l body).
Proof.
  intros Hb. induction l as [|x l IH]; simpl.
  - apply no_TypeError_ret.
  - apply no_TypeError_bind; [apply Hb|intros _; exact IH].
Qed.

Lemma no_TypeError_get_fs : no_TypeError get_fs.
Proof. intros w msg w'. discriminate. Qed.

Lemma no_TypeError_put_fs f : no_TypeError (put_fs f).
Proof. intros w msg w'. discriminate. Qed.

Lemma no_TypeError_print line : no_TypeError (print line).
Proof. intros w msg w'. discriminate. Qed.

Lemma check_dirs_exn f rest pre e :
  check_dirs f pre rest = Some e -> forall msg, e <> TypeError msg.
Proof.
  revert pre. induction rest as [|n rest IH]; intros pre Hc msg; simpl in Hc.
  - discriminate.
  - destruct (f !! (pre ++ [n])) as [[c|]|].
    + injection Hc as <-. discriminate.
    + now apply (IH _ Hc).
    + injection Hc as <-. discriminate.
Qed.

Create HintDb no_type_error.
#[local] Hint Resolve no_TypeError_ret no_TypeError_get_fs no_TypeError_put_fs
  no_TypeError_print : no_type_error.

(** One step of a proof that a computation raises no [TypeError]. *)
Ltac no_type_error_step :=
  match goal with
  | |- no_TypeError (bind _ _) => apply no_TypeError_bind; [|intros ?]
  | |- no_TypeError (for_each _ _) => apply no_TypeError_for_each; intros ?
  | |- no_TypeError (raise ?e) =>
      apply no_TypeError_raise;
      first [ assumption | intros ?; discriminate | eapply check_dirs_exn; eassumption ]
  | |- no_TypeError (match check_dirs ?f ?a ?b with _ => _ end) =>
      let E := fresh "E" in destruct (check_dirs f a b) eqn:E
  | |- no_TypeError (if ?b then _ else _) => destruct b
  | |- no_TypeError (match ?x with _ => _ end) => destruct x
  | |- no_TypeError _ => solve [auto with no_type_error]
  end.

Lemma no_TypeError_listdir p : no_TypeError (listdir p).
Proof. unfold listdir. repeat no_type_error_step. Qed.

Lemma no_TypeError_mkdir p : no_TypeError (mkdir p).
Proof. unfold mkdir. repeat no_type_error_step. Qed.

Lemma no_TypeError_remove p : no_TypeError (remove p).
Proof. unfold remove. repeat no_type_error_step. Qed.

Lemma no_TypeError_read_text p : no_TypeError (read_text p).
Proof. unfold read_text. repeat no_type_error_step. Qed.

Lemma no_TypeError_write_text p text : no_TypeError (write_text p text).
Proof. unfold write_text. repeat no_type_error_step. Qed.

#[local] Hint Resolve no_TypeError_listdir no_TypeError_mkdir no_TypeError_remove
  no_TypeError_read_text no_TypeError_write_text : no_type_error.

Lemma no_TypeError_copy2 src dst : no_TypeError (copy2 src dst).
Proof. unfold copy2. repeat no_type_error_step. Qed.

Lemma no_TypeError_makedirs name : no_TypeError (makedirs name).
Proof.
  unfold makedirs. induction (rev name) as [|n rhead IH]; cbn [makedirs_rev].
  - no_type_error_step; [no_type_error_step|].
    apply no_TypeError_try; [no_type_error_step|].
    intros e h He [= <-]. repeat no_type_error_step.
  - no_type_error_step.
    + no_type_error_step; [no_type_error_step|].
      destruct (negb _); [|no_type_error_step].
      apply no_TypeError_try; [exact IH|].
      intros e h He Hh. destruct e; try discriminate. injection Hh as <-.
      no_type_error_step.
    + apply no_TypeError_try; [no_type_error_step|].
      intros e h He [= <-]. repeat no_type_error_step.
Qed.

Lemma no_TypeError_mkdtemp candidate tempdir d :
  no_TypeError (mkdtemp candidate tempdir d).
Proof.
  unfold mkdtemp. generalize (match d with Some p => p | None => tempdir end) as p.
  intros p. induction TMP_MAX as [|tries IH]; cbn [mkdtemp_loop].
  - no_type_error_step.
  - no_type_error_step; [intros w msg w'; discriminate|].
    apply no_TypeError_try; [repeat no_type_error_step|].
    intros e h He Hh. destruct e; try discriminate. injection Hh as <-. exact IH.
Qed.

#[local] Hint Resolve no_TypeError_copy2 no_TypeError_makedirs no_TypeError_mkdtemp
  : no_type_error.

Lemma no_TypeError_copy_swat `{Externals} self d overwrite :
  no_TypeError (copy_swat self (Some d) overwrite).
Proof.
  unfold copy_swat. destruct overwrite; cbn [is_None negb orb andb as_path].
  - repeat no_type_error_step.
    apply no_TypeError_try; [repeat no_type_error_step|].
    intros e h He [= <-]. no_type_error_step.
  - no_type_error_step; [|repeat no_type_error_step].
    apply no_TypeError_try; [no_type_error_step|].
    intros e h He Hh. destruct e; try discriminate. injection Hh as <-.
    repeat no_type_error_step.
Qed.

(** C2, on the code.  With [overwrite] set and a target that is an
    existing regular file, [copy_swat] fails with the [FileExistsError] of
    [os.makedirs], in the world it started from; and whatever the target
    and [overwrite], it raises no [TypeError]: neither
    [TypeError("dir must be a folder")] nor
    [TypeError("option not recognized")] is ever reached. *)
Theorem copy_swat_overwrite_onto_file `{Externals} (self : reader)
    (d : list (list ascii)) (w : World) (text : list ascii) :
  holds_text w d text ->
  copy_swat self (Some d) true w = (Raise FileExistsError, w)
  /\ forall d' overwrite, no_TypeError (copy_swat self (Some d') overwrite).
Proof.
  intros Ht. split; [|intros d' overwrite; apply no_TypeError_copy_swat].
  unfold copy_swat. cbn [is_None negb orb andb as_path].
  apply bind_raise. rewrite bind_ret_l. unfold bind at 1, get_fs at 1.
  assert (Hfile : isdir (fs w) d = false)
    by (destruct Ht as [_ Hs]; unfold isdir; now rewrite Hs).
  rewrite Hfile. apply bind_raise. eapply makedirs_on_file, Ht.
Qed.

Lemma copy_swat_overwrite_onto_file_witness :
  @copy_swat ex_externals ex_self (Some [lit "ws"; lit "notes.txt"]) true
    (ex_world [(lit "notes.txt", lit "a regular file")])
  = (Raise FileExistsError, ex_world [(lit "notes.txt", lit "a regular file")]).
Proof.
  refine (proj1 (@copy_swat_overwrite_onto_file ex_externals ex_self
                   [lit "ws"; lit "notes.txt"]
                   (ex_world [(lit "notes.txt", lit "a regular file")])
                   (lit "a regular file") _)).
  split; vm_compute; reflexivity.
Defined.

(** *** Well-formed file systems *)

Lemma wf_fs_parent f p n :
  wf_fs f = true -> f !! p = Some n -> p <> [] /\ isdir f (parent p) = true.
Proof.
  intros Hwf Hp. unfold wf_fs in Hwf. rewrite forallb_forall in Hwf.
  specialize (Hwf (p, n)). simpl in Hwf.
  assert (Hin : In (p, n) (map_to_list f))
    by now apply list_elem_of_In, elem_of_map_to_list.
  specialize (Hwf Hin). destruct p; [discriminate|]. split; [discriminate|exact Hwf].
Qed.

Lemma check_dirs_app f pre a b :
  check_dirs f pre (a ++ b)
  = match check_dirs f pre a with
    | None => check_dirs f (pre ++ a) b
    | Some e => Some e
    end.
Proof.
  revert pre. induction a as [|n a IH]; intros pre; simpl.
  - now rewrite app_nil_r.
  - destruct (f !! (pre ++ [n])) as [[c|]|]; try reflexivity.
    rewrite IH. now rewrite <- app_assoc.
Qed.

Lemma isdir_snoc_lookup f p n : isdir f (p ++ [n]) = true -> f !! (p ++ [n]) = Some Dir.
Proof.
  unfold isdir, stat. destruct (p ++ [n]) eqn:E; [now destruct p|].
  now destruct (f !! (l :: l0)) as [[|]|].
Qed.

Lemma wf_check_dirs f p :
  wf_fs f = true -> isdir f p = true -> check_dirs f [] p = None.
Proof.
  intros Hwf. induction p as [|n p IH] using rev_ind; intros Hp; [reflexivity|].
  apply isdir_snoc_lookup in Hp.
  destruct (wf_fs_parent _ _ _ Hwf Hp) as [_ Hpar]. rewrite parent_snoc in Hpar.
  rewrite check_dirs_app, (IH Hpar). simpl. now rewrite Hp.
Qed.

(** Nothing lies below a path that does not exist. *)
Lemma wf_nothing_below f d q :
  wf_fs f = true -> exists_ f d = false -> f !! (d ++ q) = None.
Proof.
  intros Hwf Hd. induction q as [|n q IH] using rev_ind.
  - rewrite app_nil_r. unfold exists_, stat in Hd. destruct d; [discriminate|].
    now destruct (f !! (l :: d)).
  - destruct (f !! (d ++ q ++ [n])) as [x|] eqn:E; [|reflexivity]. exfalso.
    rewrite app_assoc in E. destruct (wf_fs_parent _ _ _ Hwf E) as [_ Hpar].
    rewrite parent_snoc in Hpar. unfold isdir, stat in Hpar.
    destruct (d ++ q) eqn:Edq.
    + apply app_eq_nil in Edq as [-> _]. discriminate.
    + rewrite IH in Hpar. discriminate.
Qed.

Lemma no_file_on_path_take f d k :
  no_file_on_path f d = true -> isfile f (take k d) = false.
Proof.
  intros Hn. unfold no_file_on_path in Hn. rewrite forallb_forall in Hn.
  destruct (le_lt_dec k (length d)) as [Hk|Hk].
  - apply negb_true_iff, Hn, in_seq. lia.
  - rewrite take_ge by lia. rewrite <- (firstn_all d).
    apply negb_true_iff, Hn, in_seq. lia.
Qed.

(** Where no regular file is in the way, resolving a path succeeds or
    finds a directory missing. *)
Lemma check_dirs_no_file f rest pre :
  (forall k, isfile f (pre ++ take k rest) = false) ->
  check_dirs f pre rest = None \/ check_dirs f pre rest = Some FileNotFoundError.
Proof.
  revert pre. induction rest as [|n rest IH]; intros pre Hn; simpl; [now left|].
  destruct (f !! (pre ++ [n])) as [[c|]|] eqn:E.
  - specialize (Hn 1). rewrite firstn_cons, take_0 in Hn.
    unfold isfile, stat in Hn. destruct (pre ++ [n]) eqn:E2; [now destruct pre|].
    rewrite E in Hn. discriminate.
  - apply IH. intros k. specialize (Hn (S k)). rewrite firstn_cons in Hn.
    now rewrite <- app_assoc.
  - now right.
Qed.

Lemma check_dirs_missing f d :
  no_file_on_path f d = true -> exists_ f d = false ->
  check_dirs f [] d = Some FileNotFoundError.
Proof.
  intros Hn Hd.
  destruct (check_dirs_no_file f d [] (fun k => no_file_on_path_take f d k Hn))
    as [Hc|Hc]; [|exact Hc].
  apply check_dirs_None_isdir, isdir_exists in Hc. congruence.
Qed.

Lemma check_dirs_all_dirs f rest pre :
  (forall k, 0 < k <= length rest -> f !! (pre ++ take k rest) = Some Dir) ->
  check_dirs f pre rest = None.
Proof.
  revert pre. induction rest as [|n rest IH]; intros pre Hd; simpl; [reflexivity|].
  pose proof (Hd 1 ltac:(simpl; lia)) as H1. rewrite firstn_cons, take_0 in H1.
  rewrite H1. apply IH. intros k Hk.
  specialize (Hd (S k) ltac:(simpl; lia)). rewrite firstn_cons in Hd.
  now rewrite <- app_assoc.
Qed.

(** *** [os.makedirs] *)

Lemma exists_not_file_isdir f p :
  exists_ f p = true -> isfile f p = false -> isdir f p = true.
Proof. unfold exists_, isfile, isdir. now destruct (stat f p) as [[|]|]. Qed.

Lemma stat_snoc f (p : list (list ascii)) n : stat f (p ++ [n]) = f !! (p ++ [n]).
Proof. unfold stat. destruct (p ++ [n]) eqn:E; [now destruct p|reflexivity]. Qed.

Lemma try_except_ok {A} (m : M A) handler w a w' :
  m w = (Ok a, w') -> try_except m handler w = (Ok a, w').
Proof. intros E. unfold try_except. now rewrite E. Qed.

Lemma mkdir_new w p n :
  check_dirs (fs w) [] p = None -> fs w !! (p ++ [n]) = None ->
  mkdir (p ++ [n]) w
  = (Ok tt, mkWorld (<[p ++ [n] := Dir]> (fs w)) (rng w) (cwd w) (stdout w)).
Proof.
  intros Hd Hn. unfold mkdir, bind, get_fs. rewrite parent_snoc, Hd.
  unfold exists_. now rewrite stat_snoc, Hn.
Qed.

(** On a well-formed file system with no regular file on the way,
    [os.makedirs] succeeds: afterwards every directory on the path exists,
    and nothing else has changed. *)
Lemma makedirs_rev_ok rname w :
  wf_fs (fs w) = true ->
  (forall k, isfile (fs w) (take k (rev rname)) = false) ->
  exists f2,
    makedirs_rev rname w = (Ok tt, mkWorld f2 (rng w) (cwd w) (stdout w))
    /\ (forall k, 0 < k <= length rname -> f2 !! take k (rev rname) = Some Dir)
    /\ (forall q, (forall k, 0 < k <= length rname -> q <> take k (rev rname)) ->
          f2 !! q = fs w !! q).
Proof.
  induction rname as [|n rhead IH]; intros Hwf Hnf.
  - exists (fs w). split; [|split].
    + cbn [makedirs_rev rev]. rewrite bind_ret_l. unfold try_except.
      rewrite mkdir_exists by reflexivity.
      unfold bind, get_fs. simpl. now rewrite world_eta.
    + simpl. lia.
    + reflexivity.
  - cbn [rev] in *. set (h := rev rhead) in *.
    assert (Hlen : length h = length rhead) by (subst h; apply length_rev).
    assert (Hnfh : forall k, isfile (fs w) (take k h) = false).
    { intros k. destruct (le_lt_dec k (length h)) as [Hk|Hk].
      - rewrite <- (take_app_le h [n]) by exact Hk. apply Hnf.
      - rewrite take_ge by lia. rewrite <- (take_app_length h [n]). apply Hnf. }
    assert (Htake : forall k, k <= length h -> take k (h ++ [n]) = take k h)
      by (intros k Hk; now apply take_app_le).
    assert (Hfull : take (S (length h)) (h ++ [n]) = h ++ [n])
      by (apply take_ge; rewrite length_app; simpl; lia).
    cbn [makedirs_rev rev]. fold h. rewrite bind_assoc.
    unfold bind at 1, get_fs at 1.
    destruct (exists_ (fs w) h) eqn:Eh; cbn [negb].
    + (* the parent exists *)
      rewrite bind_ret_l.
      assert (Hdh : isdir (fs w) h = true).
      { apply exists_not_file_isdir; [exact Eh|]. rewrite <- (firstn_all h). apply Hnfh. }
      pose proof (wf_check_dirs _ _ Hwf Hdh) as Hch.
      destruct (fs w !! (h ++ [n])) as [x|] eqn:En.
      * exists (fs w). split; [|split].
        -- unfold try_except. rewrite mkdir_exists;
             [|now rewrite parent_snoc|unfold exists_; now rewrite stat_snoc, En].
           unfold bind, get_fs.
           assert (Hdn : isdir (fs w) (h ++ [n]) = true).
           { apply exists_not_file_isdir.
             - unfold exists_. now rewrite stat_snoc, En.
             - rewrite <- Hfull. apply Hnf. }
           rewrite Hdn. unfold ret. now rewrite world_eta.
        -- intros k Hk. simpl in Hk.
           destruct (decide (k = S (length h))) as [->|Hne].
           ++ rewrite Hfull. apply isdir_snoc_lookup, exists_not_file_isdir.
              ** unfold exists_. now rewrite stat_snoc, En.
              ** rewrite <- Hfull. apply Hnf.
           ++ rewrite Htake by lia.
              apply (check_dirs_None_dirs _ _ _ Hch k). lia.
        -- reflexivity.
      * exists (<[h ++ [n] := Dir]> (fs w)). split; [|split].
        -- unfold try_except. now rewrite mkdir_new.
        -- intros k Hk. simpl in Hk.
           destruct (decide (k = S (length h))) as [->|Hne].
           ++ rewrite Hfull. apply lookup_insert_eq.
           ++ rewrite Htake by lia. rewrite lookup_insert_ne.
              ** apply (check_dirs_None_dirs _ _ _ Hch k). lia.
              ** intros E. apply (f_equal length) in E.
                 rewrite length_app, length_take in E. simpl in E. lia.
        -- intros q Hq. apply lookup_insert_ne. intros E.
           apply (Hq (S (length h))); [simpl; lia|]. now rewrite Hfull.
    + (* the parent is made first *)
      destruct (IH Hwf Hnfh) as (f1 & Hrun & Hdirs & Hsame).
      rewrite (bind_ok _ _ _ _ _ (try_except_ok _ _ _ _ _ Hrun)).
      assert (Hch : check_dirs f1 [] h = None).
      { apply check_dirs_all_dirs. intros k Hk. apply Hdirs. lia. }
      assert (Hn1 : f1 !! (h ++ [n]) = None).
      { rewrite Hsame.
        - now apply wf_nothing_below.
        - intros k Hk E. apply (f_equal length) in E.
          rewrite length_app, length_take in E. simpl in E. lia. }
      exists (<[h ++ [n] := Dir]> f1). split; [|split].
      * apply try_except_ok. now rewrite mkdir_new.
      * intros k Hk. simpl in Hk.
        destruct (decide (k = S (length h))) as [->|Hne].
        -- rewrite Hfull. apply lookup_insert_eq.
        -- rewrite Htake by lia. rewrite lookup_insert_ne.
           ++ destruct (decide (k <= length h)); [apply Hdirs; lia|lia].
           ++ intros E. apply (f_equal length) in E.
              rewrite length_app, length_take in E. simpl in E. lia.
      * intros q Hq. rewrite lookup_insert_ne.
        -- apply Hsame. intros k Hk. rewrite <- Htake by lia. apply Hq. simpl. lia.
        -- intros E. apply (Hq (S (length h))); [simpl; lia|]. now rewrite Hfull.
Qed.

Lemma makedirs_ok d w :
  wf_fs (fs w) = true -> no_file_on_path (fs w) d = true ->
  exists f2,
    makedirs d w = (Ok tt, mkWorld f2 (rng w) (cwd w) (stdout w))
    /\ (forall k, 0 < k <= length d -> f2 !! take k d = Some Dir)
    /\ (forall q, (forall k, 0 < k <= length d -> q <> take k d) -> f2 !! q = fs w !! q).
Proof.
  intros Hwf Hnf. unfold makedirs.
  destruct (makedirs_rev_ok (rev d) w Hwf) as (f2 & Hrun & Hdirs & Hsame).
  - intros k. rewrite rev_involutive. now apply no_file_on_path_take.
  - rewrite rev_involutive, length_rev in *. now exists f2.
Qed.

(** *** [tempfile.mkdtemp] and [os.listdir] *)

Lemma TMP_MAX_succ : TMP_MAX = S (Nat.pred TMP_MAX).
Proof. reflexivity. Qed.

Lemma mkdtemp_missing candidate tempdir d w :
  check_dirs (fs w) [] d = Some FileNotFoundError ->
  mkdtemp candidate tempdir (Some d) w
  = (Raise FileNotFoundError, mkWorld (fs w) (S (rng w)) (cwd w) (stdout w)).
Proof.
  intros Hd. unfold mkdtemp. rewrite TMP_MAX_succ. cbn [mkdtemp_loop].
  unfold bind at 1, next_name at 1. unfold try_except.
  assert (Hmk : mkdir (d ++ [lit "tmp" ++ candidate (rng w)])
                  (mkWorld (fs w) (S (rng w)) (cwd w) (stdout w))
                = (Raise FileNotFoundError,
                   mkWorld (fs w) (S (rng w)) (cwd w) (stdout w))).
  { unfold mkdir, bind, get_fs. cbn [fs]. now rewrite parent_snoc, Hd. }
  now rewrite (bind_raise _ _ _ _ _ Hmk).
Qed.

Lemma mkdtemp_fresh candidate tempdir d w :
  check_dirs (fs w) [] d = None ->
  fs w !! (d ++ [lit "tmp" ++ candidate (rng w)]) = None ->
  mkdtemp candidate tempdir (Some d) w
  = (Ok (d ++ [lit "tmp" ++ candidate (rng w)]),
     mkWorld (<[d ++ [lit "tmp" ++ candidate (rng w)] := Dir]> (fs w))
       (S (rng w)) (cwd w) (stdout w)).
Proof.
  intros Hd Hn. unfold mkdtemp. rewrite TMP_MAX_succ. cbn [mkdtemp_loop].
  unfold bind at 1, next_name at 1. apply try_except_ok.
  now rewrite (bind_ok _ _ _ _ _
                 (mkdir_new (mkWorld (fs w) (S (rng w)) (cwd w) (stdout w)) d _ Hd Hn)).
Qed.

Lemma child_name_spec p q n : child_name p q = Some n <-> q = p ++ [n].
Proof.
  revert q. induction p as [|a p IH]; intros q; simpl.
  - destruct q as [|b [|c q]]; split; intros E; try discriminate; congruence.
  - destruct q as [|b q]; [split; intros E; discriminate|].
    destruct (decide (a = b)) as [->|Hne].
    + rewrite IH. split; intros E; congruence.
    + split; intros E; [discriminate|congruence].
Qed.

Lemma listdir_ok w p :
  check_dirs (fs w) [] p = None ->
  exists names,
    listdir p w = (Ok names, w)
    /\ forall n, n ∈ names <-> is_Some (fs w !! (p ++ [n])).
Proof.
  intros Hd.
  exists (omap (fun '(q, _) => child_name p q) (map_to_list (fs w))). split.
  - unfold listdir, bind, get_fs. now rewrite Hd.
  - intros n. rewrite list_elem_of_omap. split.
    + intros ([q x] & Hin & Hc). apply elem_of_map_to_list in Hin.
      apply child_name_spec in Hc as ->. now exists x.
    + intros [x Hx]. exists (p ++ [n], x). split.
      * now apply elem_of_map_to_list.
      * now apply child_name_spec.
Qed.

(** *** The copy loop *)

Lemma copy2_file w src dst n c :
  check_dirs (fs w) [] src = None -> check_dirs (fs w) [] dst = None ->
  fs w !! (src ++ [n]) = Some (File c) ->
  fs w !! (dst ++ [n]) <> Some Dir ->
  copy2 (src ++ [n]) (dst ++ [n]) w = (Ok tt, set_file (dst ++ [n]) c w).
Proof.
  intros Hs Hd Hn Hnd.
  assert (Hdir : isdir (fs w) (dst ++ [n]) = false).
  { unfold isdir. rewrite stat_snoc. now destruct (fs w !! (dst ++ [n])) as [[|]|]. }
  unfold copy2. unfold bind at 1, get_fs at 1. rewrite Hdir.
  assert (Ht : holds_text w (src ++ [n]) c)
    by (split; [now rewrite parent_snoc|now rewrite stat_snoc]).
  rewrite (bind_ok _ _ _ _ _ (read_text_holds _ _ _ Ht)).
  apply write_text_ok; [now rewrite parent_snoc|exact Hdir].
Qed.

Lemma copy_loop src dst names :
  src <> dst ->
  forall w,
    check_dirs (fs w) [] src = None -> check_dirs (fs w) [] dst = None ->
    (forall n, n ∈ names -> exists c, fs w !! (src ++ [n]) = Some (File c)) ->
    (forall n, fs w !! (dst ++ [n]) <> Some Dir) ->
    exists f',
      for_each names
        (fun file =>
           if negb (is_output_file file)
           then copy2 (src ++ [file]) (dst ++ [file])
           else ret tt) w
      = (Ok tt, mkWorld f' (rng w) (cwd w) (stdout w))
      /\ (forall q, (forall n, q <> dst ++ [n]) -> f' !! q = fs w !! q)
      /\ (forall n,
            f' !! (dst ++ [n])
            = if decide (n ∈ names /\ is_output_file n = false)
              then fs w !! (src ++ [n]) else fs w !! (dst ++ [n])).
Proof.
  intros Hne. induction names as [|x names IH]; intros w Hs Hd Hfiles Hnd.
  - exists (fs w). split; [|split].
    + simpl. unfold ret. now rewrite world_eta.
    + reflexivity.
    + intros n. destruct (decide _) as [[Hin _]|_]; [|reflexivity].
      now apply elem_of_nil in Hin.
  - cbn [for_each]. destruct (is_output_file x) eqn:Ex; cbn [negb].
    + rewrite bind_ret_l.
      destruct (IH w Hs Hd) as (f' & Hrun & Hout & Hin); [|exact Hnd|].
      { intros n Hn. apply Hfiles. now apply elem_of_cons; right. }
      exists f'. split; [exact Hrun|]. split; [exact Hout|].
      intros n. rewrite Hin.
      destruct (decide (n ∈ names /\ _)) as [[H1 H2]|H1];
        destruct (decide (n ∈ x :: names /\ _)) as [[H3 H4]|H3]; try reflexivity.
      * exfalso. apply H3. split; [now apply elem_of_cons; right|exact H2].
      * exfalso. apply elem_of_cons in H3 as [->|H3]; [congruence|].
        apply H1. now split.
    + destruct (Hfiles x ltac:(apply list_elem_of_here)) as [c Hc].
      rewrite (bind_ok _ _ _ _ _ (copy2_file w src dst x c Hs Hd Hc (Hnd x))).
      assert (Hs1 : check_dirs (fs (set_file (dst ++ [x]) c w)) [] src = None).
      { rewrite <- Hs. apply check_dirs_ext. intros k Hk Hk0. simpl.
        apply lookup_insert_ne. intros E.
        apply (Hnd x). rewrite E.
        apply (check_dirs_None_dirs _ _ _ Hs k). lia. }
      assert (Hd1 : check_dirs (fs (set_file (dst ++ [x]) c w)) [] dst = None)
        by (simpl; now rewrite check_dirs_insert_snoc).
      destruct (IH (set_file (dst ++ [x]) c w) Hs1 Hd1) as (f' & Hrun & Hout & Hin).
      { intros n Hn. simpl. rewrite lookup_insert_ne.
        - apply Hfiles. now apply elem_of_cons; right.
        - intros E. apply app_inj_tail in E as [E _]. congruence. }
      { intros n. simpl. destruct (decide (n = x)) as [->|Hnx].
        - rewrite lookup_insert_eq. discriminate.
        - rewrite lookup_insert_ne; [apply Hnd|].
          intros E. apply app_inj_tail in E as [_ E]. congruence. }
      exists f'. split; [exact Hrun|]. split.
      * intros q Hq. rewrite Hout by exact Hq. simpl.
        apply lookup_insert_ne. intros E. now apply (Hq x).
      * intros n. rewrite Hin. simpl.
        assert (Hsrc : <[dst ++ [x] := File c]> (fs w) !! (src ++ [n])
                       = fs w !! (src ++ [n])).
        { apply lookup_insert_ne. intros E. apply app_inj_tail in E as [E _]. congruence. }
        destruct (decide (n ∈ names /\ _)) as [[H1 H2]|H1];
          destruct (decide (n ∈ x :: names /\ _)) as [[H3 H4]|H3].
        -- exact Hsrc.
        -- exfalso. apply H3. split; [now apply elem_of_cons; right|exact H2].
        -- apply elem_of_cons in H3 as [->|H3].
           ++ now rewrite lookup_insert_eq.
           ++ exfalso. apply H1. now split.
        -- apply lookup_insert_ne. intros E. apply app_inj_tail in E as [_ <-].
           apply H3. split; [apply list_elem_of_here|exact Ex].
Qed.

Lemma only_files_spec f root n x :
  only_files f root = true -> f !! (root ++ [n]) = Some x -> exists c, x = File c.
Proof.
  intros Ho Hx. unfold only_files in Ho. rewrite forallb_forall in Ho.
  specialize (Ho (root ++ [n], x)). simpl in Ho.
  assert (Hc : child_name root (root ++ [n]) = Some n) by now apply child_name_spec.
  rewrite Hc in Ho. destruct x as [c|]; [now exists c|].
  discriminate Ho. now apply list_elem_of_In, elem_of_map_to_list.
Qed.

Lemma path_prefix_take (d : list (list ascii)) j : path_prefix (take j d) d = true.
Proof.
  revert j. induction d as [|a d IH]; intros [|j]; simpl; try reflexivity.
  rewrite decide_True by reflexivity. apply IH.
Qed.

(** A child of [root] is no directory on the way to [d] unless [root] is
    itself on the way. *)
Lemma child_not_on_path (root d : list (list ascii)) n k :
  path_prefix root d = false -> root ++ [n] <> take k d.
Proof.
  intros Hp E. assert (Er : root = take (length root) d).
  { rewrite <- (take_app_length root [n]) at 1. rewrite E, take_take.
    assert (Hk : length (root ++ [n]) = length (take k d)) by now rewrite E.
    rewrite length_app, length_take in Hk. simpl in Hk.
    f_equal. lia. }
  rewrite Er, path_prefix_take in Hp. discriminate.
Qed.

(** C10, as the code has it.  Let the file system be well formed, the
    workspace a directory of regular files, and [d] a path that does not
    exist, with no regular file above it, outside the workspace.  Then
    [copy_swat] with [overwrite] unset succeeds: every directory of [d] is
    made, a directory with the next temporary name, which did not exist,
    is made in [d], every regular file of the workspace that is no output
    file is copied into it, and its path is returned. *)
Theorem copy_swat_creates_missing_target `{Externals} (self : reader)
    (d : list (list ascii)) (w : World) :
  wf_fs (fs w) = true ->
  exists_ (fs w) d = false ->
  no_file_on_path (fs w) d = true ->
  isdir (fs w) (root_folder self) = true ->
  only_files (fs w) (root_folder self) = true ->
  path_prefix (root_folder self) d = false ->
  exists w',
    copy_swat self (Some d) false w
    = (Ok (d ++ [lit "tmp" ++ tmp_candidate (S (rng w))]), w')
    /\ (forall k, isdir (fs w') (take k d) = true)
    /\ exists_ (fs w) (d ++ [lit "tmp" ++ tmp_candidate (S (rng w))]) = false
    /\ isdir (fs w') (d ++ [lit "tmp" ++ tmp_candidate (S (rng w))]) = true
    /\ forall n c,
         stat (fs w) (root_folder self ++ [n]) = Some (File c) ->
         stat (fs w') ((d ++ [lit "tmp" ++ tmp_candidate (S (rng w))]) ++ [n])
         = if is_output_file n then None else Some (File c).
Proof.
  intros Hwf Hmiss Hnf Hroot Honly Hout.
  set (root := root_folder self) in *.
  set (dst := d ++ [lit "tmp" ++ tmp_candidate (S (rng w))]).
  (* the first attempt finds the directory missing *)
  pose proof (check_dirs_missing _ _ Hnf Hmiss) as Hfnf.
  pose proof (mkdtemp_missing tmp_candidate gettempdir d w Hfnf) as Hfirst.
  set (w1 := mkWorld (fs w) (S (rng w)) (cwd w) (stdout w)) in *.
  (* the directories are made *)
  destruct (makedirs_ok d w1 Hwf Hnf) as (f2 & Hmk & Hdirs & Hsame).
  cbn [fs rng cwd stdout w1] in Hmk, Hsame.
  set (w2 := mkWorld f2 (S (rng w)) (cwd w) (stdout w)) in *.
  assert (Hbelow : forall q, fs w !! ((d ++ q)) = None)
    by (intros q; now apply wf_nothing_below).
  assert (Hd2 : check_dirs f2 [] d = None) by now apply check_dirs_all_dirs.
  assert (Hdst2 : f2 !! dst = None).
  { rewrite Hsame; [apply Hbelow|]. intros k Hk E. apply (f_equal length) in E.
    subst dst. rewrite length_app, length_take in E. simpl in E. lia. }
  pose proof (mkdtemp_fresh tmp_candidate gettempdir d w2 Hd2 Hdst2) as Hsecond.
  cbn [fs rng cwd stdout w2] in Hsecond. fold dst in Hsecond.
  set (w3 := mkWorld (<[dst := Dir]> f2) (S (S (rng w))) (cwd w) (stdout w)) in *.
  (* the workspace is as it was *)
  pose proof (wf_check_dirs _ _ Hwf Hroot) as Hr0.
  assert (Hne : root <> dst).
  { intros E. pose proof (Hbelow [lit "tmp" ++ tmp_candidate (S (rng w))]) as Hb.
    fold dst in Hb. rewrite <- E in Hb.
    unfold isdir, stat in Hroot. destruct root; [|now rewrite Hb in Hroot].
    subst dst. now destruct d. }
  assert (Hpre3 : forall k, 0 < k <= length root -> fs w3 !! take k root = Some Dir).
  { intros k Hk. pose proof (check_dirs_None_dirs _ _ _ Hr0 k Hk) as Hk0. simpl in Hk0.
    cbn [fs w3]. rewrite lookup_insert_ne.
    - destruct (decide (k <= length d /\ take k root = take k d)) as [[Hkd ->]|Hno].
      + apply Hdirs. lia.
      + rewrite Hsame; [exact Hk0|]. intros k' Hk' E. apply Hno.
        assert (k = k').
        { apply (f_equal length) in E. rewrite !length_take in E. lia. }
        subst k'. split; [lia|exact E].
    - intros E. rewrite <- E in Hk0. unfold dst in Hk0. rewrite Hbelow in Hk0.
      discriminate. }
  assert (Hr3 : check_dirs (fs w3) [] root = None) by now apply check_dirs_all_dirs.
  assert (Hchild3 : forall n, fs w3 !! (root ++ [n]) = fs w !! (root ++ [n])).
  { intros n. cbn [fs w3]. rewrite lookup_insert_ne.
    - apply Hsame. intros k _. now apply child_not_on_path.
    - subst dst. intros E. apply app_inj_tail in E as [E _].
      rewrite <- E in Hroot. apply isdir_exists in Hroot. congruence. }
  destruct (listdir_ok w3 root Hr3) as (names & Hlist & Hnames).
  assert (Hd3 : check_dirs (fs w3) [] dst = None).
  { subst dst. rewrite check_dirs_app. cbn [fs w3].
    rewrite check_dirs_ext with (f := f2).
    - rewrite Hd2. simpl. now rewrite lookup_insert_eq.
    - intros k Hk Hk0. simpl. apply lookup_insert_ne. intros E.
      apply (f_equal length) in E. rewrite length_app, length_take in E. simpl in E. lia. }
  assert (Hkids3 : forall n, fs w3 !! (dst ++ [n]) = None).
  { intros n. cbn [fs w3]. rewrite lookup_insert_ne.
    - rewrite Hsame; [subst dst; rewrite <- app_assoc; apply Hbelow|].
      intros k Hk E. apply (f_equal length) in E.
      subst dst. rewrite !length_app, length_take in E. simpl in E. lia.
    - intros E. apply (f_equal length) in E. rewrite length_app in E. simpl in E. lia. }
  destruct (copy_loop root dst names Hne w3 Hr3 Hd3) as (f' & Hcopy & Hrest & Hcopied).
  { intros n Hn. apply Hnames in Hn as [x Hx]. rewrite Hchild3 in Hx.
    destruct (only_files_spec _ _ _ _ Honly Hx) as [c ->]. exists c.
    now rewrite Hchild3. }
  { intros n. now rewrite Hkids3. }
  cbn [fs rng cwd stdout w3] in Hcopy.
  exists (mkWorld f' (S (S (rng w))) (cwd w) (stdout w)). split; [|split; [|split; [|split]]].
  - unfold copy_swat. cbn [is_None negb orb andb]. fold root.
    assert (Htemp : try_except (mkdtemp tmp_candidate gettempdir (Some d))
                      (fun e =>
                         match e with
                         | FileNotFoundError =>
                             Some (do d0 <- as_path (Some d) ;
                                   makedirs d0 ;;
                                   mkdtemp tmp_candidate gettempdir (Some d))
                         | _ => None
                         end) w
                    = (Ok dst, w3)).
    { unfold try_except. rewrite Hfirst. cbn [as_path]. rewrite bind_ret_l.
      now rewrite (bind_ok _ _ _ _ _ Hmk). }
    rewrite (bind_ok _ _ _ _ _ Htemp), (bind_ok _ _ _ _ _ Hlist).
    now rewrite (bind_ok _ _ _ _ _ Hcopy).
  - intros k. cbn [fs].
    destruct (decide (k = 0)) as [->|Hk0]; [now rewrite take_0|].
    assert (Hk : exists k', 0 < k' <= length d /\ take k d = take k' d).
    { destruct (le_lt_dec k (length d)).
      - exists k. split; [lia|reflexivity].
      - exists (length d). split.
        + destruct d; [discriminate Hmiss|simpl; lia].
        + rewrite firstn_all. apply take_ge. lia. }
    destruct Hk as (k' & Hk' & ->).
    unfold isdir, stat. destruct (take k' d) eqn:Et; [reflexivity|]. rewrite <- Et.
    rewrite Hrest.
    + cbn [fs w3]. rewrite lookup_insert_ne; [now rewrite Hdirs|].
      intros E. apply (f_equal length) in E. subst dst.
      rewrite length_app, length_take in E. simpl in E. lia.
    + intros n E. apply (f_equal length) in E. subst dst.
      rewrite !length_app, length_take in E. simpl in E. lia.
  - unfold exists_. subst dst. rewrite stat_snoc. now rewrite Hbelow.
  - cbn [fs]. unfold isdir. subst dst. rewrite stat_snoc.
    rewrite Hrest.
    + cbn [fs w3]. now rewrite lookup_insert_eq.
    + intros n E. apply (f_equal length) in E. rewrite !length_app in E. simpl in E. lia.
  - intros n c Hn. cbn [fs]. rewrite stat_snoc in *. rewrite Hcopied, Hchild3, Hkids3, Hn.
    assert (Hin : n ∈ names) by (apply Hnames; rewrite Hchild3, Hn; eauto).
    destruct (is_output_file n) eqn:Eo.
    + destruct (decide _) as [[_ H1]|_]; [discriminate|reflexivity].
    + destruct (decide _) as [_|H1]; [reflexivity|]. exfalso. apply H1. now split.
Qed.

Lemma copy_swat_creates_missing_target_witness :
  fst (@copy_swat ex_externals ex_self (Some [lit "runs"; lit "batch1"]) false
         (ex_world [(lit "print.prt", unlines ["print.prt"]);
                    (lit "channel_day.csv", unlines ["old output"])]))
  = Ok ([lit "runs"; lit "batch1"] ++ [lit "tmp" ++ @tmp_candidate ex_externals 1]).
Proof.
  destruct (@copy_swat_creates_missing_target ex_externals ex_self
              [lit "runs"; lit "batch1"]
              (ex_world [(lit "print.prt", unlines ["print.prt"]);
                         (lit "channel_day.csv", unlines ["old output"])]))
    as (w' & Hrun & _).
  - vm_compute. reflexivity.
  - vm_compute. reflexivity.
  - vm_compute. reflexivity.
  - vm_compute. reflexivity.
  - vm_compute. reflexivity.
  - vm_compute. reflexivity.
  - rewrite Hrun. reflexivity.
Defined.

(** C10, as stated, fails: a missing target inside the workspace is made,
    and is then met by the copy loop as an entry of the workspace that is
    no regular file. *)
Lemma copy_swat_missing_target_counterexample :
  exists_ (fs (ex_world [])) [lit "ws"; lit "out"] = false
  /\ fst (@copy_swat ex_externals ex_self (Some [lit "ws"; lit "out"]) false (ex_world []))
     = Raise IsADirectoryError.
Proof. split; vm_compute; reflexivity. Qed.

(* ===================================================================== *)
(** * Part III.  Further properties of the methods                        *)
(* ===================================================================== *)

(** ** The print lines of [print.prt] *)

Lemma ljust_long n (s : list ascii) : n <= length s -> ljust n s = s.
Proof.
  intros Hn. unfold ljust. replace (n - length s) with 0 by lia.
  cbn. apply app_nil_r.
Qed.

Lemma ljust_length n (s : list ascii) : length s <= n -> length (ljust n s) = n.
Proof. intros Hn. unfold ljust. rewrite length_app, repeat_length. lia. Qed.

Lemma startswith_app_cancel (o a b : list ascii) :
  startswith (o ++ a) (o ++ b) = startswith a b.
Proof.
  induction o as [|c o IH]; [reflexivity|].
  cbn. now rewrite Ascii.eqb_refl, IH.
Qed.

Lemma carries_built o d m y a :
  length o < 29 -> carries o (_build_line_to_add o d m y a) = true.
Proof.
  intros Hlen. rewrite build_line_columns. unfold carries, ljust.
  destruct (29 - length o) as [|k] eqn:E; [lia|].
  cbn [repeat]. rewrite <- app_assoc.
  rewrite startswith_app_cancel. cbn. now rewrite Ascii.eqb_refl.
Qed.

Lemma carries_built_long o d m y a :
  29 <= length o -> carries o (_build_line_to_add o d m y a) = false.
Proof.
  intros Hlen. rewrite build_line_columns, ljust_long by exact Hlen.
  unfold carries. rewrite startswith_app_cancel. now destruct d.
Qed.

Lemma Forall_complete_proper ls : Forall complete ls -> proper ls.
Proof.
  induction 1 as [|l ls Hl _ IH]; [constructor|].
  now apply proper_cons.
Qed.

Lemma patched_lines_complete o d m y a ls :
  nl ∉ o -> Forall complete ls -> Forall complete (patched_lines o d m y a ls).
Proof.
  intros Ho Hls. unfold patched_lines. apply Forall_app. split.
  - apply Forall_fmap. eapply Forall_impl; [exact Hls|].
    intros l Hl. cbn. destruct (carries o l); [now apply build_line_complete|exact Hl].
  - destruct (existsb (carries o) ls); [constructor|].
    constructor; [now apply build_line_complete|constructor].
Qed.

Lemma existsb_carries_patched o d m y a ls :
  length o < 29 -> existsb (carries o) (patched_lines o d m y a ls) = true.
Proof.
  intros Hlen. unfold patched_lines. rewrite existsb_app.
  destruct (existsb (carries o) ls) eqn:E.
  - apply orb_true_iff. left.
    apply existsb_exists in E as (l & Hin & Hl).
    apply existsb_exists. exists (_build_line_to_add o d m y a). split.
    + apply in_map_iff. exists l. now rewrite Hl.
    + now apply carries_built.
  - apply orb_true_iff. right. cbn [existsb]. now rewrite carries_built.
Qed.

Lemma patched_lines_idem o d m y a ls :
  length o < 29 ->
  patched_lines o d m y a (patched_lines o d m y a ls) = patched_lines o d m y a ls.
Proof.
  intros Hlen. unfold patched_lines at 1.
  rewrite existsb_carries_patched by exact Hlen. rewrite app_nil_r.
  unfold patched_lines. rewrite map_app. f_equal.
  - rewrite map_map. apply map_ext. intros l.
    destruct (carries o l) eqn:E; [now rewrite carries_built|now rewrite E].
  - destruct (existsb (carries o) ls); [reflexivity|].
    cbn [map]. now rewrite carries_built.
Qed.

(** X2: whenever the object name has at most 29 characters, the line built
    for it has 73 characters: the name at the start, the four flags at the
    columns 29, 43, 57 and 71 (counted from 0), and the newline last. *)
Theorem build_line_fixed_columns (o : list ascii) (daily monthly yearly avann : bool) :
  length o <= 29 ->
  length (_build_line_to_add o daily monthly yearly avann) = 73
  /\ take (length o) (_build_line_to_add o daily monthly yearly avann) = o
  /\ _build_line_to_add o daily monthly yearly avann !! 29 = Some (yn daily)
  /\ _build_line_to_add o daily monthly yearly avann !! 43 = Some (yn monthly)
  /\ _build_line_to_add o daily monthly yearly avann !! 57 = Some (yn yearly)
  /\ _build_line_to_add o daily monthly yearly avann !! 71 = Some (yn avann)
  /\ _build_line_to_add o daily monthly yearly avann !! 72 = Some nl.
Proof.
  intros Hlen. rewrite build_line_columns.
  pose proof (ljust_length 29 o Hlen) as H29.
  split; [|split].
  - rewrite length_app, H29. cbn. reflexivity.
  - unfold ljust. rewrite <- app_assoc. now rewrite take_app_length.
  - assert (forall k, k < 44 ->
            (ljust 29 o ++ yn daily :: repeat sp 13 ++ yn monthly :: repeat sp 13
               ++ yn yearly :: repeat sp 13 ++ [yn avann; nl]) !! (29 + k)
            = (yn daily :: repeat sp 13 ++ yn monthly :: repeat sp 13
               ++ yn yearly :: repeat sp 13 ++ [yn avann; nl]) !! k) as Hk.
    { intros k _. rewrite lookup_app_r by lia. f_equal. lia. }
    repeat split.
    + apply (Hk 0). lia.
    + apply (Hk 14). lia.
    + apply (Hk 28). lia.
    + apply (Hk 42). lia.
    + apply (Hk 43). lia.
Qed.

Lemma build_line_fixed_columns_witness :
  length (_build_line_to_add (lit "basin_wb") true false true false) = 73
  /\ _build_line_to_add (lit "basin_wb") true false true false !! 43 = Some (yn false).
Proof.
  pose proof (build_line_fixed_columns (lit "basin_wb") true false true false
                ltac:(cbn; lia)) as (H1 & _ & _ & H2 & _).
  split; [exact H1|exact H2].
Defined.

(** X3: on a file whose lines all end in a newline, and for an object name
    of fewer than 29 characters without a newline, enabling the object a
    second time with the same flags changes nothing: the call is
    idempotent. *)
Theorem enable_object_idempotent (self : reader) (obj : list ascii)
    (daily monthly yearly avann : bool) (w : World) (text : list ascii) :
  holds_text w (print_prt_path self) text ->
  Forall complete (readlines text) ->
  nl ∉ object_name obj ->
  length (object_name obj) < 29 ->
  (enable_object_in_print_prt self obj daily monthly yearly avann ;;
   enable_object_in_print_prt self obj daily monthly yearly avann) w
  = enable_object_in_print_prt self obj daily monthly yearly avann w.
Proof.
  intros Hh Hc Ho Hlen.
  pose proof (enable_object_in_print_prt_spec self obj daily monthly yearly avann w text Hh)
    as E1.
  rewrite (bind_ok _ _ _ _ _ E1), E1.
  unfold print_prt_path in *.
  rewrite (enable_object_in_print_prt_spec self obj daily monthly yearly avann _ _
             (holds_text_set_file _ _ _ _ _ Hh)).
  unfold print_prt_path. rewrite set_file_twice.
  rewrite readlines_of_concat
    by (apply Forall_complete_proper, patched_lines_complete; assumption).
  now rewrite patched_lines_idem.
Qed.

Lemma enable_object_idempotent_witness :
  (enable_object_in_print_prt ex_self (lit "basin_wb") true false true false ;;
   enable_object_in_print_prt ex_self (lit "basin_wb") true false true false)
    (ex_world [(lit "print.prt", unlines ["name  daily"; "basin_wb  n  n  n  n"])])
  = enable_object_in_print_prt ex_self (lit "basin_wb") true false true false
      (ex_world [(lit "print.prt", unlines ["name  daily"; "basin_wb  n  n  n  n"])]).
Proof.
  apply (enable_object_idempotent ex_self (lit "basin_wb") true false true false _
           (unlines ["name  daily"; "basin_wb  n  n  n  n"])).
  - split; vm_compute; reflexivity.
  - apply (readlines_terminated (lit "name  daily" ++ [nl] ++ lit "basin_wb  n  n  n  n")).
  - vm_compute. intros Hin. repeat (apply elem_of_cons in Hin as [Hin|Hin]; [discriminate Hin|]).
    inversion Hin.
  - vm_compute. lia.
Defined.

(** X4: an object name of 29 characters or more fills the name column, so
    the line written for it does not begin with the name and a space, and
    the next call does not find it: on a file of terminated lines none of
    which carries the name, two calls append the line twice. *)
Theorem enable_object_long_name_duplicates (self : reader) (obj : list ascii)
    (daily monthly yearly avann : bool) (w : World) (text : list ascii) :
  holds_text w (print_prt_path self) text ->
  Forall complete (readlines text) ->
  nl ∉ object_name obj ->
  29 <= length (object_name obj) ->
  existsb (carries (object_name obj)) (readlines text) = false ->
  (enable_object_in_print_prt self obj daily monthly yearly avann ;;
   enable_object_in_print_prt self obj daily monthly yearly avann) w
  = (Ok tt,
     set_file (print_prt_path self)
       (text ++ _build_line_to_add (object_name obj) daily monthly yearly avann
             ++ _build_line_to_add (object_name obj) daily monthly yearly avann) w).
Proof.
  intros Hh Hc Ho Hlen Hno.
  pose proof (enable_object_in_print_prt_spec self obj daily monthly yearly avann w text Hh)
    as E1.
  rewrite (bind_ok _ _ _ _ _ E1).
  unfold print_prt_path in *.
  rewrite (enable_object_in_print_prt_spec self obj daily monthly yearly avann _ _
             (holds_text_set_file _ _ _ _ _ Hh)).
  unfold print_prt_path. rewrite set_file_twice. do 2 f_equal.
  rewrite readlines_of_concat
    by (apply Forall_complete_proper, patched_lines_complete; assumption).
  assert (forall ls, existsb (carries (object_name obj)) ls = false ->
            map (fun l => if carries (object_name obj) l
                          then _build_line_to_add (object_name obj) daily monthly yearly avann
                          else l) ls = ls) as Hmap.
  { induction ls as [|l ls IH]; [reflexivity|]. cbn [map existsb].
    intros [E1' E2']%orb_false_iff. now rewrite E1', IH. }
  assert (existsb (carries (object_name obj))
            [_build_line_to_add (object_name obj) daily monthly yearly avann] = false) as Hb.
  { cbn [existsb]. now rewrite carries_built_long. }
  assert (patched_lines (object_name obj) daily monthly yearly avann (readlines text)
          = readlines text
            ++ [_build_line_to_add (object_name obj) daily monthly yearly avann]) as Hp1.
  { unfold patched_lines. now rewrite Hno, (Hmap _ Hno). }
  rewrite Hp1. unfold patched_lines.
  assert (existsb (carries (object_name obj))
            (readlines text
             ++ [_build_line_to_add (object_name obj) daily monthly yearly avann]) = false)
    as Hno2 by (rewrite existsb_app, Hno; exact Hb).
  rewrite Hno2, (Hmap _ Hno2).
  rewrite !concat_app. cbn [concat]. rewrite !app_nil_r, readlines_concat.
  now rewrite <- app_assoc.
Qed.

Lemma enable_object_long_name_duplicates_witness :
  (enable_object_in_print_prt ex_self (lit "hydrologic_response_unit_lte_wb") true false true false ;;
   enable_object_in_print_prt ex_self (lit "hydrologic_response_unit_lte_wb") true false true false)
    (ex_world [(lit "print.prt", unlines ["name  daily"])])
  = (Ok tt,
     set_file (print_prt_path ex_self)
       (unlines ["name  daily"]
        ++ _build_line_to_add (object_name (lit "hydrologic_response_unit_lte_wb"))
             true false true false
        ++ _build_line_to_add (object_name (lit "hydrologic_response_unit_lte_wb"))
             true false true false)
       (ex_world [(lit "print.prt", unlines ["name  daily"])])).
Proof.
  apply (enable_object_long_name_duplicates ex_self (lit "hydrologic_response_unit_lte_wb")
           true false true false _ (unlines ["name  daily"])).
  - split; vm_compute; reflexivity.
  - apply (readlines_terminated (lit "name  daily")).
  - vm_compute. intros Hin. repeat (apply elem_of_cons in Hin as [Hin|Hin]; [discriminate Hin|]).
    inversion Hin.
  - vm_compute. lia.
  - vm_compute. reflexivity.
Defined.

(** X5: when one or more lines of [print.prt] carry the object, every one of
    them is replaced by the built line, at its position; the other lines
    are kept and no line is added. *)
Theorem enable_object_replaces_every_carrier (self : reader) (obj : list ascii)
    (daily monthly yearly avann : bool) (w : World) (text : list ascii) :
  holds_text w (print_prt_path self) text ->
  existsb (carries (object_name obj)) (readlines text) = true ->
  exists text',
    enable_object_in_print_prt self obj daily monthly yearly avann w
    = (Ok tt, set_file (print_prt_path self) text' w)
    /\ readlines text'
       = map (fun l => if carries (object_name obj) l
                       then _build_line_to_add (object_name obj) daily monthly yearly avann
                       else l)
             (readlines text).
Proof.
  intros Hh Hex. eexists. split.
  - apply enable_object_in_print_prt_spec, Hh.
  - unfold patched_lines. rewrite Hex, app_nil_r.
    apply readlines_of_concat, proper_map_patch; [apply readlines_proper|].
    apply build_line_complete.
    apply existsb_exists in Hex as (l & Hin & Hl).
    apply list_elem_of_In, list_elem_of_lookup in Hin as [i Hi].
    exact (carries_no_newline _ _ _ _ (readlines_proper text) Hi Hl).
Qed.

Lemma enable_object_replaces_every_carrier_witness :
  exists text',
    enable_object_in_print_prt ex_self (lit "basin_wb") true true false false
      (ex_world [(lit "print.prt",
                  unlines ["basin_wb  n  n  n  n"; "lsunit_wb  n  n"; "basin_wb  y  y  y  y"])])
    = (Ok tt, set_file (print_prt_path ex_self) text'
                (ex_world [(lit "print.prt",
                            unlines ["basin_wb  n  n  n  n"; "lsunit_wb  n  n";
                                     "basin_wb  y  y  y  y"])]))
    /\ readlines text'
       = [_build_line_to_add (lit "basin_wb") true true false false;
          lit "lsunit_wb  n  n" ++ [nl];
          _build_line_to_add (lit "basin_wb") true true false false].
Proof.
  apply (enable_object_replaces_every_carrier ex_self (lit "basin_wb") true true false false _
           (unlines ["basin_wb  n  n  n  n"; "lsunit_wb  n  n"; "basin_wb  y  y  y  y"])).
  - split; vm_compute; reflexivity.
  - vm_compute. reflexivity.
Defined.

(** ** The CSV switch, again *)

(** X6: on a print configuration with at least seven lines, of two
    successive settings of the CSV switch the last one wins: the file is
    what the second call alone would have written.  In particular each
    setting is idempotent. *)
Theorem csv_print_last_setting_wins (self : reader) (e1 e2 : bool) (w : World)
    (text l7 : list ascii) :
  holds_text w (print_prt_path self) text ->
  readlines text !! 6 = Some l7 ->
  (_enable_disable_csv_print self e1 ;; _enable_disable_csv_print self e2) w
  = _enable_disable_csv_print self e2 w.
Proof.
  intros Hh H7.
  destruct (seventh_line_split text l7 H7) as (x & t & -> & Htext & Hlen & Hpre).
  rewrite Htext in Hh.
  rewrite (bind_ok _ _ _ _ _ (csv_print_spec self e1 w _ x _ Hh Hlen Hpre)).
  rewrite (csv_print_spec self e2 w _ x _ Hh Hlen Hpre).
  unfold print_prt_path in *.
  rewrite (csv_print_spec self e2 _ _ (yn e1) _ (holds_text_set_file _ _ _ _ _ Hh) Hlen Hpre).
  unfold print_prt_path. now rewrite set_file_twice.
Qed.

Lemma csv_print_last_setting_wins_witness :
  (_enable_disable_csv_print ex_self false ;; _enable_disable_csv_print ex_self true)
    (ex_world [(lit "print.prt",
                unlines ["print.prt"; "nyskip"; "1"; "aa_int_cnt"; "0"; "csvout  dbout"; "n  n"])])
  = _enable_disable_csv_print ex_self true
      (ex_world [(lit "print.prt",
                  unlines ["print.prt"; "nyskip"; "1"; "aa_int_cnt"; "0"; "csvout  dbout"; "n  n"])]).
Proof.
  apply (csv_print_last_setting_wins ex_self false true _
           (unlines ["print.prt"; "nyskip"; "1"; "aa_int_cnt"; "0"; "csvout  dbout"; "n  n"])
           (lit "n  n" ++ [nl])).
  - split; vm_compute; reflexivity.
  - vm_compute. reflexivity.
Defined.

(** X7: on a print configuration with fewer than seven lines both settings
    of the CSV switch raise [IndexError], and the file is not written. *)
Theorem csv_print_short_file (self : reader) (enable : bool) (w : World) (text : list ascii) :
  holds_text w (print_prt_path self) text ->
  length (readlines text) < 7 ->
  _enable_disable_csv_print self enable w = (Raise IndexError, w).
Proof.
  intros Hh Hlen. unfold _enable_disable_csv_print. fold (print_prt_path self).
  rewrite (bind_ok _ _ _ _ _ (read_text_holds _ _ _ Hh)).
  change (7 - 1) with 6.
  assert (readlines text !! 6 = None) as Hn by (apply lookup_ge_None; lia).
  destruct enable; unfold getitem; rewrite Hn; reflexivity.
Qed.

Lemma csv_print_short_file_witness :
  _enable_disable_csv_print ex_self true
    (ex_world [(lit "print.prt", unlines ["print.prt"; "nyskip"; "1"])])
  = (Raise IndexError, ex_world [(lit "print.prt", unlines ["print.prt"; "nyskip"; "1"])]).
Proof.
  apply (csv_print_short_file ex_self true _ (unlines ["print.prt"; "nyskip"; "1"])).
  - split; vm_compute; reflexivity.
  - vm_compute. lia.
Defined.

(** ** Numbers, words and fields *)

Lemma string_of_uint_nonspace u :
  Forall (fun c => isspace c = false) (lit (NilEmpty.string_of_uint u)).
Proof. induction u; cbn; constructor; auto. Qed.

Lemma str_of_int_word z : word (str_of_int z).
Proof.
  unfold str_of_int. destruct (Z.to_int z) as [u|u]; cbn [NilZero.string_of_int].
  - destruct u; split; try (cbn; discriminate);
      try apply string_of_uint_nonspace.
    cbn. constructor; [reflexivity|constructor].
  - split; [cbn; discriminate|].
    cbn [lit list_ascii_of_string]. constructor; [reflexivity|].
    destruct u; try apply string_of_uint_nonspace.
    cbn. constructor; [reflexivity|constructor].
Qed.

Lemma nonspace_no_nl (s : list ascii) : Forall (fun c => isspace c = false) s -> nl ∉ s.
Proof.
  intros Hs Hin. rewrite Forall_forall in Hs. apply Hs in Hin. discriminate Hin.
Qed.

Lemma split_from_nonspace (s cur rest : list ascii) :
  Forall (fun c => isspace c = false) s ->
  split_from cur (s ++ rest) = split_from (rev s ++ cur) rest.
Proof.
  revert cur. induction s as [|c s IH]; intros cur Hs; [reflexivity|].
  inversion Hs as [|? ? Hc Hs']; subst. cbn [app split_from]. rewrite Hc.
  rewrite IH by exact Hs'. cbn [rev]. now rewrite <- app_assoc.
Qed.

Lemma split_from_spaces n (rest : list ascii) :
  split_from [] (repeat sp n ++ rest) = split_from [] rest.
Proof. induction n as [|n IH]; [reflexivity|exact IH]. Qed.

Lemma split_word_spaces (s : list ascii) n rest :
  word s ->
  split_from [] (s ++ repeat sp n ++ sp :: rest) = s :: split_from [] rest.
Proof.
  intros [Hne Hs]. rewrite split_from_nonspace by exact Hs. rewrite app_nil_r.
  assert (rev s <> []) as Hr.
  { intros E. apply Hne. now rewrite <- (rev_involutive s), E. }
  destruct n as [|n].
  - cbn [repeat app split_from]. change (isspace sp) with true. cbn match.
    destruct (rev s) eqn:E; [contradiction|]. rewrite <- E, rev_involutive. reflexivity.
  - cbn [repeat app split_from]. change (isspace sp) with true. cbn match.
    destruct (rev s) eqn:E; [contradiction|]. rewrite <- E, rev_involutive.
    f_equal. rewrite split_from_spaces. cbn [split_from]. change (isspace sp) with true.
    reflexivity.
Qed.

Lemma split_rjust n (s rest : list ascii) :
  word s -> split_from [] (rjust n s ++ sp :: rest) = s :: split_from [] rest.
Proof.
  intros Hs. unfold rjust. rewrite <- app_assoc, split_from_spaces.
  exact (split_word_spaces s 0 rest Hs).
Qed.

Lemma split_ljust n (s rest : list ascii) :
  word s -> split_from [] (ljust n s ++ sp :: rest) = s :: split_from [] rest.
Proof.
  intros Hs. unfold ljust. rewrite <- app_assoc. now apply split_word_spaces.
Qed.

Lemma split_time_sim_line d1 d2 step :
  split (time_sim_line d1 d2 step)
  = [str_of_int (tm_yday d1); str_of_int (tm_year d1); str_of_int (tm_yday d2);
     str_of_int (tm_year d2); str_of_int step].
Proof.
  unfold split, time_sim_line. cbn [app].
  repeat (rewrite split_rjust by apply str_of_int_word; f_equal).
Qed.

Lemma nl_notin_rjust n (s : list ascii) : word s -> nl ∉ rjust n s.
Proof.
  intros [_ Hs]. unfold rjust. rewrite elem_of_app. intros [Hin|Hin].
  - now apply nl_notin_spaces in Hin.
  - now apply nonspace_no_nl in Hin.
Qed.

Lemma nl_notin_ljust n (s : list ascii) : word s -> nl ∉ ljust n s.
Proof.
  intros [_ Hs]. unfold ljust. rewrite elem_of_app. intros [Hin|Hin].
  - now apply nonspace_no_nl in Hin.
  - now apply nl_notin_spaces in Hin.
Qed.

Lemma nl_notin_field (f rest : list ascii) : nl ∉ f -> nl ∉ rest -> nl ∉ f ++ sp :: rest.
Proof.
  intros Hf Hr. rewrite elem_of_app, elem_of_cons. intros [Hin|[Hin|Hin]]; auto.
  discriminate Hin.
Qed.

Lemma time_sim_line_complete d1 d2 step : complete (time_sim_line d1 d2 step).
Proof.
  exists (rjust 8 (str_of_int (tm_yday d1)) ++ [sp] ++ rjust 10 (str_of_int (tm_year d1)) ++ [sp]
          ++ rjust 10 (str_of_int (tm_yday d2)) ++ [sp] ++ rjust 10 (str_of_int (tm_year d2))
          ++ [sp] ++ rjust 10 (str_of_int step) ++ [sp]).
  split.
  - unfold time_sim_line. now repeat (rewrite <- app_assoc || rewrite <- app_comm_cons).
  - cbn [app]. repeat (apply nl_notin_field; [apply nl_notin_rjust, str_of_int_word|]).
    apply not_elem_of_nil.
Qed.

(** ** The simulation window, again *)

Lemma strptime_ok s d : strptime_ymd s = Some d -> strptime s = ret d.
Proof. intros E. unfold strptime. now rewrite E. Qed.

Lemma set_simulation_time_spec self start_date end_date step w text line3 d1 d2 :
  strptime_ymd start_date = Some d1 -> strptime_ymd end_date = Some d2 ->
  holds_text w (time_sim_path self) text ->
  readlines text !! 2 = Some line3 ->
  5 <= length (split line3) ->
  set_simulation_time self start_date end_date step w
  = (Ok tt, set_file (time_sim_path self)
              (concat (<[2 := time_sim_line d1 d2 step]> (readlines text))) w).
Proof.
  intros E1 E2 Ht H3 Hlen.
  unfold set_simulation_time. fold (time_sim_path self).
  rewrite (strptime_ok _ _ E1), (strptime_ok _ _ E2).
  unfold bind at 1 2. unfold ret at 1 2.
  rewrite (bind_ok _ _ _ _ _ (read_text_holds _ _ _ Ht)).
  change (3 - 1) with 2.
  rewrite (getitem_ok _ _ _ H3). unfold bind at 1, ret at 1.
  destruct (split line3) as [|e0 [|e1 [|e2 [|e3 [|e4 rest]]]]]; simpl in Hlen; try lia.
  repeat (rewrite setitem_ok by (simpl; lia); unfold bind at 1, ret at 1).
  cbn [map list_insert insert format_time_sim].
  unfold bind at 1, ret at 1.
  rewrite setitem_ok by (eapply lookup_lt_Some, H3).
  unfold bind at 1, ret at 1.
  rewrite (write_text_holds _ _ _ _ Ht). reflexivity.
Qed.

Lemma readlines_insert_complete text i l :
  i < length (readlines text) -> complete l ->
  readlines (concat (<[i := l]> (readlines text))) = <[i := l]> (readlines text).
Proof.
  intros Hi Hl. apply readlines_of_concat, proper_insert; [apply readlines_proper| |]; assumption.
Qed.

(** X8: for any two valid dates and any step, on a time configuration
    whose third line has at least five fields, [set_simulation_time] makes
    the third line the right-justified day of year and year of the start,
    day of year and year of the end, and the step; the other lines stay;
    and the new line splits into exactly these five numbers. *)
Theorem set_simulation_time_writes_window (self : reader) (start_date end_date : list ascii)
    (step : Z) (w : World) (text line3 : list ascii) (d1 d2 : date) :
  strptime_ymd start_date = Some d1 ->
  strptime_ymd end_date = Some d2 ->
  holds_text w (time_sim_path self) text ->
  readlines text !! 2 = Some line3 ->
  5 <= length (split line3) ->
  exists text',
    set_simulation_time self start_date end_date step w
    = (Ok tt, set_file (time_sim_path self) text' w)
    /\ readlines text' = <[2 := time_sim_line d1 d2 step]> (readlines text)
    /\ (forall j, j <> 2 -> readlines text' !! j = readlines text !! j)
    /\ split (time_sim_line d1 d2 step)
       = [str_of_int (tm_yday d1); str_of_int (tm_year d1); str_of_int (tm_yday d2);
          str_of_int (tm_year d2); str_of_int step].
Proof.
  intros E1 E2 Ht H3 Hlen. eexists. split; [|split; [|split]].
  - now apply (set_simulation_time_spec self start_date end_date step w text line3 d1 d2).
  - apply readlines_insert_complete; [eapply lookup_lt_Some, H3|apply time_sim_line_complete].
  - intros j Hj. rewrite readlines_insert_complete
      by (try apply time_sim_line_complete; eapply lookup_lt_Some, H3).
    apply list_lookup_insert_ne. congruence.
  - apply split_time_sim_line.
Qed.

Lemma set_simulation_time_writes_window_witness :
  exists text',
    set_simulation_time ex_self (lit "2012-02-29") (lit "2013-03-01") 24
      (ex_world [(lit "time.sim",
                  unlines ["time.sim"; "day_start  yrc_start  day_end  yrc_end  step";
                           "       0       2001         0      2020         0"])])
    = (Ok tt,
       set_file (time_sim_path ex_self) text'
         (ex_world [(lit "time.sim",
                     unlines ["time.sim"; "day_start  yrc_start  day_end  yrc_end  step";
                              "       0       2001         0      2020         0"])]))
    /\ readlines text'
       = [lit "time.sim" ++ [nl];
          lit "day_start  yrc_start  day_end  yrc_end  step" ++ [nl];
          lit "      60       2012         60       2013         24 " ++ [nl]].
Proof.
  destruct (set_simulation_time_writes_window ex_self (lit "2012-02-29") (lit "2013-03-01") 24
              (ex_world [(lit "time.sim",
                          unlines ["time.sim"; "day_start  yrc_start  day_end  yrc_end  step";
                                   "       0       2001         0      2020         0"])])
              (unlines ["time.sim"; "day_start  yrc_start  day_end  yrc_end  step";
                        "       0       2001         0      2020         0"])
              (lit "       0       2001         0      2020         0" ++ [nl])
              {| tm_year := 2012; tm_mon := 2; tm_mday := 29 |}
              {| tm_year := 2013; tm_mon := 3; tm_mday := 1 |}
              ltac:(vm_compute; reflexivity) ltac:(vm_compute; reflexivity)
              ltac:(split; vm_compute; reflexivity) ltac:(vm_compute; reflexivity)
              ltac:(vm_compute; lia)) as (text' & H1 & H2 & _).
  exists text'. split; [exact H1|exact H2].
Defined.

(** X9: [set_simulation_time] fails without writing.  A date that is not a
    valid [YYYY-MM-DD] date raises [ValueError] before the file is opened;
    with valid dates, a file of fewer than three lines and a third line of
    fewer than five fields raise [IndexError]; in every case the world is
    left as it was. *)
Theorem set_simulation_time_fails_clean (self : reader) (start_date end_date : list ascii)
    (step : Z) (w : World) (text : list ascii) :
  holds_text w (time_sim_path self) text ->
  strptime_ymd start_date = None \/ strptime_ymd end_date = None
  \/ length (readlines text) < 3
  \/ (exists line3, readlines text !! 2 = Some line3 /\ length (split line3) < 5) ->
  set_simulation_time self start_date end_date step w
  = (Raise (match strptime_ymd start_date, strptime_ymd end_date with
            | Some _, Some _ => IndexError
            | _, _ => ValueError
            end), w).
Proof.
  intros Ht Hcase. unfold set_simulation_time. fold (time_sim_path self).
  unfold strptime.
  destruct (strptime_ymd start_date) as [d1|]; [|reflexivity].
  destruct (strptime_ymd end_date) as [d2|]; [|reflexivity].
  unfold bind at 1 2. unfold ret at 1 2.
  rewrite (bind_ok _ _ _ _ _ (read_text_holds _ _ _ Ht)).
  change (3 - 1) with 2.
  destruct Hcase as [E|[E|[Hlen|(line3 & H3 & Hlen)]]]; try discriminate E.
  - unfold getitem. rewrite (proj2 (lookup_ge_None _ _)) by lia. reflexivity.
  - rewrite (getitem_ok _ _ _ H3). unfold bind at 1, ret at 1.
    destruct (split line3) as [|e0 [|e1 [|e2 [|e3 [|e4 rest]]]]]; simpl in Hlen; try lia;
      reflexivity.
Qed.

Lemma set_simulation_time_fails_clean_witness :
  set_simulation_time ex_self (lit "2011-02-29") (lit "2011-12-31") 0
    (ex_world [(lit "time.sim", unlines ["time.sim"; "header"; "0 2001 0 2020 0"])])
  = (Raise ValueError,
     ex_world [(lit "time.sim", unlines ["time.sim"; "header"; "0 2001 0 2020 0"])]).
Proof.
  apply (set_simulation_time_fails_clean ex_self (lit "2011-02-29") (lit "2011-12-31") 0 _
           (unlines ["time.sim"; "header"; "0 2001 0 2020 0"])).
  - split; vm_compute; reflexivity.
  - left. vm_compute. reflexivity.
Defined.

(** X10: of two successive calls of [set_simulation_time] with valid dates
    the last one wins: the line the first call writes has the five fields
    the second call needs, and the file is what the second call alone would
    have written. *)
Theorem set_simulation_time_last_call_wins (self : reader)
    (start1 end1 start2 end2 : list ascii) (step1 step2 : Z)
    (w : World) (text line3 : list ascii) :
  is_Some (strptime_ymd start1) -> is_Some (strptime_ymd end1) ->
  is_Some (strptime_ymd start2) -> is_Some (strptime_ymd end2) ->
  holds_text w (time_sim_path self) text ->
  readlines text !! 2 = Some line3 ->
  5 <= length (split line3) ->
  (set_simulation_time self start1 end1 step1 ;;
   set_simulation_time self start2 end2 step2) w
  = set_simulation_time self start2 end2 step2 w.
Proof.
  intros [a1 A1] [b1 B1] [a2 A2] [b2 B2] Ht H3 Hlen.
  pose proof (lookup_lt_Some _ _ _ H3) as Hlt.
  rewrite (bind_ok _ _ _ _ _
             (set_simulation_time_spec self start1 end1 step1 w text line3 a1 b1
                A1 B1 Ht H3 Hlen)).
  rewrite (set_simulation_time_spec self start2 end2 step2 w text line3 a2 b2
             A2 B2 Ht H3 Hlen).
  unfold time_sim_path in *.
  rewrite (set_simulation_time_spec self start2 end2 step2 _ _ (time_sim_line a1 b1 step1)
             a2 b2 A2 B2 (holds_text_set_file _ _ _ _ _ Ht)).
  - unfold time_sim_path. rewrite set_file_twice.
    rewrite readlines_insert_complete by (try apply time_sim_line_complete; exact Hlt).
    now rewrite list_insert_insert_eq.
  - rewrite readlines_insert_complete by (try apply time_sim_line_complete; exact Hlt).
    now apply list_lookup_insert_eq.
  - rewrite split_time_sim_line. cbn. lia.
Qed.

Lemma set_simulation_time_last_call_wins_witness :
  (set_simulation_time ex_self (lit "2001-01-01") (lit "2001-12-31") 0 ;;
   set_simulation_time ex_self (lit "2010-06-01") (lit "2012-02-29") 1)
    (ex_world [(lit "time.sim", unlines ["time.sim"; "header"; "0 2001 0 2020 0"])])
  = set_simulation_time ex_self (lit "2010-06-01") (lit "2012-02-29") 1
      (ex_world [(lit "time.sim", unlines ["time.sim"; "header"; "0 2001 0 2020 0"])]).
Proof.
  apply (set_simulation_time_last_call_wins ex_self _ _ _ _ 0 1 _
           (unlines ["time.sim"; "header"; "0 2001 0 2020 0"])
           (lit "0 2001 0 2020 0" ++ [nl])).
  - vm_compute. eauto.
  - vm_compute. eauto.
  - vm_compute. eauto.
  - vm_compute. eauto.
  - split; vm_compute; reflexivity.
  - vm_compute. reflexivity.
  - vm_compute. lia.
Defined.

(** ** The print window: [set_print_time] *)

Lemma split_print_time_line a b c d e f :
  split (print_time_line a b c d e f)
  = [str_of_int a; str_of_int b; str_of_int c; str_of_int d; str_of_int e; str_of_int f].
Proof.
  unfold split, print_time_line. cbn [app].
  repeat (rewrite split_ljust by apply str_of_int_word; f_equal).
Qed.

Lemma print_time_line_complete a b c d e f : complete (print_time_line a b c d e f).
Proof.
  exists (ljust 12 (str_of_int a) ++ [sp] ++ ljust 11 (str_of_int b) ++ [sp]
          ++ ljust 11 (str_of_int c) ++ [sp] ++ ljust 10 (str_of_int d) ++ [sp]
          ++ ljust 10 (str_of_int e) ++ [sp] ++ ljust 10 (str_of_int f) ++ [sp]).
  split.
  - unfold print_time_line. now repeat (rewrite <- app_assoc || rewrite <- app_comm_cons).
  - cbn [app]. repeat (apply nl_notin_field; [apply nl_notin_ljust, str_of_int_word|]).
    apply not_elem_of_nil.
Qed.

Lemma set_print_time_spec self start_date end_date warmup interval w text line3 b c d e :
  print_window start_date end_date (b, c, d, e) ->
  holds_text w (print_prt_path self) text ->
  readlines text !! 2 = Some line3 ->
  6 <= length (split line3) ->
  set_print_time self start_date end_date warmup interval w
  = (Ok tt, set_file (print_prt_path self)
              (concat (<[2 := print_time_line warmup b c d e interval]> (readlines text))) w).
Proof.
  intros Hwin Ht H3 Hlen.
  unfold set_print_time. fold (print_prt_path self).
  rewrite (bind_ok _ _ _ _ _ (read_text_holds _ _ _ Ht)).
  change (3 - 1) with 2.
  rewrite (getitem_ok _ _ _ H3). unfold bind at 1, ret at 1.
  destruct (split line3) as [|e0 [|e1 [|e2 [|e3 [|e4 [|e5 rest]]]]]]; simpl in Hlen; try lia.
  do 2 (rewrite setitem_ok by (simpl; lia); unfold bind at 1, ret at 1).
  assert (forall A B (a : A) (k : A -> M B), bind (ret a) k = k a) as Hret
    by reflexivity.
  inversion Hwin as [d1 d2 Hb E1 E2 Heq|Hb Heq]; subst; rewrite Hb;
    rewrite ?(strptime_ok _ _ E1), ?(strptime_ok _ _ E2);
    repeat (rewrite Hret; cbv beta);
    cbn [map list_insert insert];
    repeat (rewrite setitem_ok by (simpl; lia); rewrite Hret; cbv beta);
    cbn [list_insert insert format_print_time];
    rewrite Hret;
    rewrite setitem_ok by (eapply lookup_lt_Some, H3);
    rewrite Hret;
    rewrite (write_text_holds _ _ _ _ Ht); reflexivity.
Qed.

(** X11: when a start date and an end date are both given and valid, and
    the third line of [print.prt] has at least six fields, [set_print_time]
    makes that line the six left-justified numbers warm-up, day of year and
    year of the start, day of year and year of the end, and interval
    (widths 12, 11, 11, 10, 10, 10); the other lines stay, and the new line
    splits into exactly these six numbers. *)
Theorem set_print_time_writes_window (self : reader) (start_date end_date : list ascii)
    (warmup interval : Z) (w : World) (text line3 : list ascii) (d1 d2 : date) :
  strptime_ymd start_date = Some d1 ->
  strptime_ymd end_date = Some d2 ->
  holds_text w (print_prt_path self) text ->
  readlines text !! 2 = Some line3 ->
  6 <= length (split line3) ->
  exists text',
    set_print_time self (Some start_date) (Some end_date) warmup interval w
    = (Ok tt, set_file (print_prt_path self) text' w)
    /\ readlines text'
       = <[2 := print_time_line warmup (tm_yday d1) (tm_year d1) (tm_yday d2) (tm_year d2)
                 interval]> (readlines text)
    /\ (forall j, j <> 2 -> readlines text' !! j = readlines text !! j)
    /\ split (print_time_line warmup (tm_yday d1) (tm_year d1) (tm_yday d2) (tm_year d2)
                interval)
       = [str_of_int warmup; str_of_int (tm_yday d1); str_of_int (tm_year d1);
          str_of_int (tm_yday d2); str_of_int (tm_year d2); str_of_int interval].
Proof.
  intros E1 E2 Ht H3 Hlen.
  assert (print_window (Some start_date) (Some end_date)
            (tm_yday d1, tm_year d1, tm_yday d2, tm_year d2)) as Hwin.
  { apply window_dates; [|exact E1|exact E2].
    destruct start_date; [discriminate E1|]. destruct end_date; [discriminate E2|].
    reflexivity. }
  eexists. split; [|split; [|split]].
  - exact (set_print_time_spec self _ _ warmup interval w text line3 _ _ _ _ Hwin Ht H3 Hlen).
  - apply readlines_insert_complete; [eapply lookup_lt_Some, H3|apply print_time_line_complete].
  - intros j Hj. rewrite readlines_insert_complete
      by (try apply print_time_line_complete; eapply lookup_lt_Some, H3).
    apply list_lookup_insert_ne. congruence.
  - apply split_print_time_line.
Qed.

Lemma set_print_time_writes_window_witness :
  exists text',
    set_print_time ex_self (Some (lit "2011-01-01")) (Some (lit "2012-12-31")) 2 1
      (ex_world [(lit "print.prt",
                  unlines ["print.prt"; "nyskip  day_start  yrc_start  day_end  yrc_end  interval";
                           "1  0  0  0  0  1"])])
    = (Ok tt,
       set_file (print_prt_path ex_self) text'
         (ex_world [(lit "print.prt",
                     unlines ["print.prt";
                              "nyskip  day_start  yrc_start  day_end  yrc_end  interval";
                              "1  0  0  0  0  1"])]))
    /\ readlines text'
       = [lit "print.prt" ++ [nl];
          lit "nyskip  day_start  yrc_start  day_end  yrc_end  interval" ++ [nl];
          lit "2            1           2011        366        2012       1          "
            ++ [nl]].
Proof.
  destruct (set_print_time_writes_window ex_self (lit "2011-01-01") (lit "2012-12-31") 2 1
              (ex_world [(lit "print.prt",
                          unlines ["print.prt";
                                   "nyskip  day_start  yrc_start  day_end  yrc_end  interval";
                                   "1  0  0  0  0  1"])])
              (unlines ["print.prt";
                        "nyskip  day_start  yrc_start  day_end  yrc_end  interval";
                        "1  0  0  0  0  1"])
              (lit "1  0  0  0  0  1" ++ [nl])
              {| tm_year := 2011; tm_mon := 1; tm_mday := 1 |}
              {| tm_year := 2012; tm_mon := 12; tm_mday := 31 |}
              ltac:(vm_compute; reflexivity) ltac:(vm_compute; reflexivity)
              ltac:(split; vm_compute; reflexivity) ltac:(vm_compute; reflexivity)
              ltac:(vm_compute; lia)) as (text' & H1 & H2 & _).
  exists text'. split; [exact H1|exact H2].
Defined.

(** X12: unless both dates are given and not empty, [set_print_time] writes
    zeros for the four date fields: a start date without an end date (or
    the reverse) is ignored, whatever it holds, and is not even parsed. *)
Theorem set_print_time_ignores_lone_date (self : reader)
    (start_date end_date : option (list ascii))
    (warmup interval : Z) (w : World) (text line3 : list ascii) :
  start_date = None \/ start_date = Some [] \/ end_date = None \/ end_date = Some [] ->
  holds_text w (print_prt_path self) text ->
  readlines text !! 2 = Some line3 ->
  6 <= length (split line3) ->
  exists text',
    set_print_time self start_date end_date warmup interval w
    = (Ok tt, set_file (print_prt_path self) text' w)
    /\ readlines text' = <[2 := print_time_line warmup 0 0 0 0 interval]> (readlines text).
Proof.
  intros Hdates Ht H3 Hlen.
  assert (print_window start_date end_date (0, 0, 0, 0)%Z) as Hwin.
  { apply window_zero.
    destruct Hdates as [ -> | [ -> | [ -> | -> ] ] ]; cbn; try reflexivity; apply andb_false_r. }
  eexists. split.
  - exact (set_print_time_spec self _ _ warmup interval w text line3 _ _ _ _ Hwin Ht H3 Hlen).
  - apply readlines_insert_complete; [eapply lookup_lt_Some, H3|apply print_time_line_complete].
Qed.

Lemma set_print_time_ignores_lone_date_witness :
  exists text',
    set_print_time ex_self (Some (lit "not a date")) None 3 1
      (ex_world [(lit "print.prt", unlines ["print.prt"; "header"; "1  5  2001  9  2002  7"])])
    = (Ok tt,
       set_file (print_prt_path ex_self) text'
         (ex_world [(lit "print.prt",
                     unlines ["print.prt"; "header"; "1  5  2001  9  2002  7"])]))
    /\ readlines text'
       = [lit "print.prt" ++ [nl]; lit "header" ++ [nl];
          lit "3            0           0           0          0          1          "
            ++ [nl]].
Proof.
  apply (set_print_time_ignores_lone_date ex_self (Some (lit "not a date")) None 3 1 _
           (unlines ["print.prt"; "header"; "1  5  2001  9  2002  7"])
           (lit "1  5  2001  9  2002  7" ++ [nl])).
  - right. right. left. reflexivity.
  - split; vm_compute; reflexivity.
  - vm_compute. reflexivity.
  - vm_compute. lia.
Defined.

(** X13: [set_print_time] fails without writing.  A file of fewer than
    three lines and a third line of fewer than six fields raise
    [IndexError]; with six fields and two non-empty dates one of which is
    not a valid date, the call raises [ValueError]; in every case the world
    is left as it was. *)
Theorem set_print_time_fails_clean (self : reader) (start_date end_date : list ascii)
    (warmup interval : Z) (w : World) (text : list ascii) :
  holds_text w (print_prt_path self) text ->
  (length (readlines text) < 3
   \/ exists line3, readlines text !! 2 = Some line3
        /\ (length (split line3) < 6
            \/ start_date <> [] /\ end_date <> []
               /\ (strptime_ymd start_date = None \/ strptime_ymd end_date = None))) ->
  set_print_time self (Some start_date) (Some end_date) warmup interval w
  = (Raise (match readlines text !! 2 with
            | Some line3 => if length (split line3) <? 6 then IndexError else ValueError
            | None => IndexError
            end), w).
Proof.
  intros Ht Hcase. unfold set_print_time. fold (print_prt_path self).
  rewrite (bind_ok _ _ _ _ _ (read_text_holds _ _ _ Ht)).
  change (3 - 1) with 2.
  destruct Hcase as [Hlen|(line3 & H3 & Hcase)].
  - unfold getitem. rewrite (proj2 (lookup_ge_None _ _)) by lia. reflexivity.
  - rewrite H3, (getitem_ok _ _ _ H3). unfold bind at 1, ret at 1.
    destruct (length (split line3) <? 6) eqn:E6.
    + apply Nat.ltb_lt in E6.
      destruct (split line3) as [|e0 [|e1 [|e2 [|e3 [|e4 [|e5 rest]]]]]]; simpl in E6; try lia;
        reflexivity.
    + apply Nat.ltb_ge in E6.
      destruct Hcase as [Hlen|(Hs & He & Hbad)]; [lia|].
      destruct (split line3) as [|e0 [|e1 [|e2 [|e3 [|e4 [|e5 rest]]]]]]; simpl in E6; try lia.
      do 2 (rewrite setitem_ok by (simpl; lia); unfold bind at 1, ret at 1).
      destruct start_date as [|c1 s1]; [contradiction|].
      destruct end_date as [|c2 s2]; [contradiction|].
      cbn [str_truthy andb str_or_empty]. unfold strptime.
      destruct (strptime_ymd (c1 :: s1)) as [d1|]; [|reflexivity].
      destruct (strptime_ymd (c2 :: s2)) as [d2|]; [|reflexivity].
      destruct Hbad as [Hbad|Hbad]; discriminate Hbad.
Qed.

Lemma set_print_time_fails_clean_witness :
  set_print_time ex_self (Some (lit "2011-01-01")) (Some (lit "2011-12-31")) 1 1
    (ex_world [(lit "print.prt", unlines ["print.prt"; "header"; "1  0  0  0  0"])])
  = (Raise IndexError,
     ex_world [(lit "print.prt", unlines ["print.prt"; "header"; "1  0  0  0  0"])]).
Proof.
  apply (set_print_time_fails_clean ex_self (lit "2011-01-01") (lit "2011-12-31") 1 1 _
           (unlines ["print.prt"; "header"; "1  0  0  0  0"])).
  - split; vm_compute; reflexivity.
  - right. exists (lit "1  0  0  0  0" ++ [nl]). split; [vm_compute; reflexivity|].
    left. vm_compute. lia.
Defined.

(** X14: the two edits of [print.prt] that work on fixed lines commute: on
    a file with at least seven lines whose third line has at least six
    fields, and with dates that [set_print_time] accepts, setting the print
    window and then the CSV switch writes the same file as setting the
    switch and then the window. *)
Theorem set_print_time_commutes_with_csv_switch (self : reader)
    (start_date end_date : option (list ascii)) (warmup interval : Z) (enable : bool)
    (w : World) (text line3 l7 : list ascii) :
  (str_truthy start_date && str_truthy end_date = true ->
   is_Some (strptime_ymd (str_or_empty start_date))
   /\ is_Some (strptime_ymd (str_or_empty end_date))) ->
  holds_text w (print_prt_path self) text ->
  readlines text !! 2 = Some line3 ->
  6 <= length (split line3) ->
  readlines text !! 6 = Some l7 ->
  (set_print_time self start_date end_date warmup interval ;;
   _enable_disable_csv_print self enable) w
  = (_enable_disable_csv_print self enable ;;
     set_print_time self start_date end_date warmup interval) w.
Proof.
  intros Hdates Ht H3 Hlen H7.
  assert (exists b c d e, print_window start_date end_date (b, c, d, e)) as (b & c & d & e & Hwin).
  { destruct (str_truthy start_date && str_truthy end_date) eqn:Hb.
    - destruct (Hdates eq_refl) as [[d1 E1] [d2 E2]].
      do 4 eexists. exact (window_dates _ _ d1 d2 Hb E1 E2).
    - do 4 eexists. exact (window_zero _ _ Hb). }
  set (line := print_time_line warmup b c d e interval).
  assert (complete line) as Hline by apply print_time_line_complete.
  destruct (seventh_line_split text l7 H7) as (x & t & -> & Htext & Hlen6 & Hpre).
  set (pre := take 6 (readlines text)) in *.
  set (r := t ++ concat (drop 7 (readlines text))) in *.
  assert (readlines text = pre ++ readlines (x :: r)) as Hls.
  { rewrite Htext at 1. now apply readlines_complete_prefix. }
  assert (2 < length pre) as Hlt by lia.
  assert (<[2 := line]> (readlines text) = <[2 := line]> pre ++ readlines (x :: r)) as Hins.
  { rewrite Hls at 1. now apply insert_app_l. }
  assert (Forall complete (<[2 := line]> pre)) as Hpre'.
  { apply Forall_insert; assumption. }
  (* window first *)
  rewrite (bind_ok _ _ _ _ _
             (set_print_time_spec self _ _ warmup interval w text line3 _ _ _ _ Hwin Ht H3 Hlen)).
  fold line. rewrite Hins, concat_app, readlines_concat.
  unfold print_prt_path in *.
  rewrite (csv_print_spec self enable _ (<[2 := line]> pre) x r
             (holds_text_set_file _ _ _ _ _ Ht)
             ltac:(rewrite length_insert; exact Hlen6) Hpre').
  (* switch first *)
  rewrite Htext in Ht.
  rewrite (bind_ok _ _ _ _ _ (csv_print_spec self enable w pre x r Ht Hlen6 Hpre)).
  unfold print_prt_path in *.
  rewrite (set_print_time_spec self _ _ warmup interval _ _ line3 _ _ _ _ Hwin
             (holds_text_set_file _ _ _ _ _ Ht)).
  - fold line. unfold print_prt_path. rewrite !set_file_twice. do 2 f_equal.
    rewrite readlines_complete_prefix by exact Hpre.
    rewrite insert_app_l by exact Hlt.
    now rewrite concat_app, readlines_concat.
  - rewrite readlines_complete_prefix by exact Hpre.
    rewrite lookup_app_l by exact Hlt.
    rewrite Hls, lookup_app_l in H3 by exact Hlt. exact H3.
  - exact Hlen.
Qed.

Lemma set_print_time_commutes_with_csv_switch_witness :
  (set_print_time ex_self (Some (lit "2011-01-01")) (Some (lit "2012-12-31")) 2 1 ;;
   _enable_disable_csv_print ex_self true)
    (ex_world [(lit "print.prt",
                unlines ["print.prt"; "header"; "1  0  0  0  0  1"; "aa_int_cnt"; "0";
                         "csvout  dbout"; "n  n"])])
  = (_enable_disable_csv_print ex_self true ;;
     set_print_time ex_self (Some (lit "2011-01-01")) (Some (lit "2012-12-31")) 2 1)
      (ex_world [(lit "print.prt",
                  unlines ["print.prt"; "header"; "1  0  0  0  0  1"; "aa_int_cnt"; "0";
                           "csvout  dbout"; "n  n"])]).
Proof.
  apply (set_print_time_commutes_with_csv_switch ex_self
           (Some (lit "2011-01-01")) (Some (lit "2012-12-31")) 2 1 true _
           (unlines ["print.prt"; "header"; "1  0  0  0  0  1"; "aa_int_cnt"; "0";
                     "csvout  dbout"; "n  n"])
           (lit "1  0  0  0  0  1" ++ [nl]) (lit "n  n" ++ [nl])).
  - intros _. split; vm_compute; eauto.
  - split; vm_compute; reflexivity.
  - vm_compute. reflexivity.
  - vm_compute. lia.
  - vm_compute. reflexivity.
Defined.

(** ** Cloning a workspace: [copy_swat], again *)

(** The copy loop of [copy_swat], from a directory of regular files into a
    directory without subdirectories. *)
Lemma copy_files_into (root dst : list (list ascii)) w :
  root <> dst ->
  check_dirs (fs w) [] root = None ->
  check_dirs (fs w) [] dst = None ->
  (forall n x, fs w !! (root ++ [n]) = Some x -> exists c, x = File c) ->
  (forall n, fs w !! (dst ++ [n]) <> Some Dir) ->
  exists f',
    (do files <- listdir root ;
     for_each files
       (fun file =>
          if negb (is_output_file file)
          then copy2 (root ++ [file]) (dst ++ [file])
          else ret tt) ;;
     ret dst) w
    = (Ok dst, mkWorld f' (rng w) (cwd w) (stdout w))
    /\ (forall q, (forall n, q <> dst ++ [n]) -> f' !! q = fs w !! q)
    /\ (forall n,
          f' !! (dst ++ [n])
          = if is_output_file n then fs w !! (dst ++ [n])
            else match fs w !! (root ++ [n]) with
                 | Some x => Some x
                 | None => fs w !! (dst ++ [n])
                 end).
Proof.
  intros Hne Hr Hd Hfiles Hnd.
  destruct (listdir_ok w root Hr) as (names & Hlist & Hnames).
  destruct (copy_loop root dst names Hne w Hr Hd) as (f' & Hcopy & Hrest & Hcopied).
  { intros n Hn. apply Hnames in Hn as [x Hx].
    destruct (Hfiles _ _ Hx) as [c ->]. now exists c. }
  { exact Hnd. }
  exists f'. split; [|split].
  - rewrite (bind_ok _ _ _ _ _ Hlist). now rewrite (bind_ok _ _ _ _ _ Hcopy).
  - exact Hrest.
  - intros n. rewrite Hcopied.
    destruct (is_output_file n) eqn:Eo.
    + destruct (decide _) as [[_ H1]|_]; [discriminate|reflexivity].
    + destruct (fs w !! (root ++ [n])) as [x|] eqn:Ex.
      * destruct (decide _) as [_|H1]; [reflexivity|].
        exfalso. apply H1. split; [|reflexivity]. apply Hnames. rewrite Ex. eauto.
      * destruct (decide _) as [[H1 _]|_]; [|reflexivity].
        apply Hnames in H1 as [x Hx]. congruence.
Qed.

Lemma mkdtemp_None candidate tempdir :
  mkdtemp candidate tempdir None = mkdtemp candidate tempdir (Some tempdir).
Proof. reflexivity. Qed.

(** X15: with [overwrite] unset and a target directory that exists (the
    default temporary directory when [dir] is [None]), [copy_swat] makes a
    new directory with the next temporary name in it, copies there every
    regular file of the workspace that is no output file, and returns its
    path; every entry that existed before is left as it was. *)
Theorem copy_swat_fresh_clone `{Externals} (self : reader)
    (dir : option (list (list ascii))) (w : World) :
  let d := match dir with Some p => p | None => gettempdir end in
  let dst := d ++ [lit "tmp" ++ tmp_candidate (rng w)] in
  wf_fs (fs w) = true ->
  isdir (fs w) d = true ->
  exists_ (fs w) dst = false ->
  isdir (fs w) (root_folder self) = true ->
  only_files (fs w) (root_folder self) = true ->
  d <> root_folder self ->
  exists f',
    copy_swat self dir false w = (Ok dst, mkWorld f' (S (rng w)) (cwd w) (stdout w))
    /\ f' !! dst = Some Dir
    /\ (forall n,
          f' !! (dst ++ [n])
          = match fs w !! (root_folder self ++ [n]) with
            | Some x => if is_output_file n then None else Some x
            | None => None
            end)
    /\ (forall q, q <> dst -> (forall n, q <> dst ++ [n]) -> f' !! q = fs w !! q).
Proof.
  intros d dst Hwf Hd Hfresh Hroot Honly Hne.
  set (root := root_folder self) in *.
  pose proof (wf_check_dirs _ _ Hwf Hd) as Hd0.
  pose proof (wf_check_dirs _ _ Hwf Hroot) as Hr0.
  assert (Hdst0 : fs w !! dst = None).
  { unfold exists_ in Hfresh. unfold dst in *. rewrite stat_snoc in Hfresh.
    now destruct (fs w !! _). }
  pose proof (mkdtemp_fresh tmp_candidate gettempdir d w Hd0 Hdst0) as Hmk.
  fold dst in Hmk.
  set (w1 := mkWorld (<[dst := Dir]> (fs w)) (S (rng w)) (cwd w) (stdout w)) in *.
  assert (Hbelow : forall q, fs w !! (dst ++ q) = None)
    by (intros q; now apply wf_nothing_below).
  assert (Hrd : root <> dst).
  { intros E. rewrite E in Hroot. apply isdir_exists in Hroot. congruence. }
  assert (Hr1 : check_dirs (fs w1) [] root = None).
  { rewrite <- Hr0. apply check_dirs_ext. intros k Hk Hk0. cbn [fs w1 app].
    apply lookup_insert_ne. intros E.
    pose proof (check_dirs_None_dirs _ _ _ Hr0 k ltac:(lia)) as Hdir. cbn [app] in Hdir.
    rewrite <- E in Hdir. congruence. }
  assert (Hd1 : check_dirs (fs w1) [] dst = None).
  { unfold dst. rewrite check_dirs_app. cbn [fs w1].
    rewrite check_dirs_ext with (f := fs w).
    - rewrite Hd0. simpl. fold dst. now rewrite lookup_insert_eq.
    - intros k Hk Hk0. simpl. apply lookup_insert_ne. intros E.
      apply (f_equal length) in E. unfold dst in E.
      rewrite length_app, length_take in E. simpl in E. lia. }
  assert (Hchild1 : forall n, fs w1 !! (root ++ [n]) = fs w !! (root ++ [n])).
  { intros n. cbn [fs w1]. apply lookup_insert_ne. unfold dst. intros E.
    apply app_inj_tail in E as [E _]. now apply Hne. }
  assert (Hkids1 : forall n, fs w1 !! (dst ++ [n]) = None).
  { intros n. cbn [fs w1]. rewrite lookup_insert_ne; [apply Hbelow|].
    intros E. apply (f_equal length) in E. rewrite length_app in E. simpl in E. lia. }
  destruct (copy_files_into root dst w1 Hrd Hr1 Hd1) as (f' & Hcopy & Hrest & Hcopied).
  { intros n x Hx. rewrite Hchild1 in Hx. exact (only_files_spec _ _ _ _ Honly Hx). }
  { intros n. now rewrite Hkids1. }
  cbn [fs rng cwd stdout w1] in Hcopy.
  exists f'. split; [|split; [|split]].
  - unfold copy_swat. fold root.
    assert (Htemp : (if is_None dir || (negb false && negb (is_None dir)) then
                       try_except (mkdtemp tmp_candidate gettempdir dir)
                         (fun e =>
                            match e with
                            | FileNotFoundError =>
                                Some (do d0 <- as_path dir ;
                                      makedirs d0 ;;
                                      mkdtemp tmp_candidate gettempdir dir)
                            | _ => None
                            end)
                     else do d0 <- as_path dir ;
                          do f <- get_fs ;
                          if negb (isdir f d0) then
                            (if isfile f d0 then raise (TypeError "dir must be a folder")
                             else ret tt) ;;
                            makedirs d0 ;;
                            ret d0
                          else raise (TypeError "option not recognized")) w
                    = (Ok dst, w1)).
    { assert (mkdtemp tmp_candidate gettempdir dir w = (Ok dst, w1)) as Hm.
      { destruct dir; [exact Hmk|]. rewrite mkdtemp_None. exact Hmk. }
      destruct dir; cbn [is_None negb orb andb]; now apply try_except_ok. }
    cbn [negb] in Htemp |- *.
    rewrite (bind_ok _ _ _ _ _ Htemp). exact Hcopy.
  - rewrite Hrest; [cbn [fs w1]; now rewrite lookup_insert_eq|].
    intros n E. apply (f_equal length) in E. rewrite length_app in E. simpl in E. lia.
  - intros n. rewrite Hcopied, Hkids1, Hchild1.
    destruct (is_output_file n), (fs w !! (root ++ [n])); reflexivity.
  - intros q Hq Hqn. rewrite Hrest by exact Hqn. cbn [fs w1].
    now apply lookup_insert_ne.
Qed.

Lemma copy_swat_fresh_clone_witness :
  fst (@copy_swat ex_externals ex_self (Some []) false
         (ex_world [(lit "print.prt", unlines ["print.prt"]);
                    (lit "channel_day.csv", unlines ["old output"])]))
  = Ok [lit "tmp0"].
Proof.
  destruct (@copy_swat_fresh_clone ex_externals ex_self (Some [])
              (ex_world [(lit "print.prt", unlines ["print.prt"]);
                         (lit "channel_day.csv", unlines ["old output"])]))
    as (f' & Hrun & _).
  - vm_compute. reflexivity.
  - vm_compute. reflexivity.
  - vm_compute. reflexivity.
  - vm_compute. reflexivity.
  - vm_compute. reflexivity.
  - discriminate.
  - rewrite Hrun. reflexivity.
Defined.

(** The deletion loop of [copy_swat]: the regular files among the listed
    entries of [d] go, everything else stays, and nothing is printed. *)
Lemma delete_loop (d : list (list ascii)) names :
  forall w,
    check_dirs (fs w) [] d = None ->
    exists f',
      for_each names
        (fun file =>
           try_except
             (do f <- get_fs ;
              if isfile f (d ++ [file]) then remove (d ++ [file]) else ret tt)
             (fun e => Some (print (str_of_exn e)))) w
      = (Ok tt, mkWorld f' (rng w) (cwd w) (stdout w))
      /\ (forall q, (forall n, n ∈ names -> q <> d ++ [n]) -> f' !! q = fs w !! q)
      /\ (forall n, n ∈ names ->
            f' !! (d ++ [n])
            = match fs w !! (d ++ [n]) with
              | Some (File _) => None
              | x => x
              end).
Proof.
  induction names as [|x names IH]; intros w Hd.
  - exists (fs w). split; [|split].
    + cbn. unfold ret. now rewrite world_eta.
    + reflexivity.
    + intros n Hn. now apply elem_of_nil in Hn.
  - cbn [for_each].
    assert (exists w1,
              try_except
                (do f <- get_fs ;
                 if isfile f (d ++ [x]) then remove (d ++ [x]) else ret tt)
                (fun e => Some (print (str_of_exn e))) w
              = (Ok tt, w1)
              /\ rng w1 = rng w /\ cwd w1 = cwd w /\ stdout w1 = stdout w
              /\ (forall q, q <> d ++ [x] -> fs w1 !! q = fs w !! q)
              /\ fs w1 !! (d ++ [x])
                 = match fs w !! (d ++ [x]) with
                   | Some (File _) => None
                   | y => y
                   end) as (w1 & Hstep & Hrng & Hcwd & Hout & Hother & Hx).
    { unfold try_except, bind at 1, get_fs at 1. unfold isfile. rewrite stat_snoc.
      destruct (fs w !! (d ++ [x])) as [[c|]|] eqn:Ex.
      - exists (mkWorld (delete (d ++ [x]) (fs w)) (rng w) (cwd w) (stdout w)).
        unfold remove, bind, get_fs. rewrite parent_snoc, Hd, stat_snoc, Ex.
        unfold put_fs. repeat split.
        + intros q Hq. cbn. now apply lookup_delete_ne.
        + cbn. now apply lookup_delete_eq.
      - exists w. unfold ret. repeat split. exact Ex.
      - exists w. unfold ret. repeat split. exact Ex. }
    rewrite (bind_ok _ _ _ _ _ Hstep).
    assert (Hd1 : check_dirs (fs w1) [] d = None).
    { rewrite <- Hd. apply check_dirs_ext. intros k Hk Hk0. cbn [app].
      apply Hother. intros E. apply (f_equal length) in E.
      rewrite length_app, length_take in E. simpl in E. lia. }
    destruct (IH w1 Hd1) as (f' & Hrun & Hrest & Hgone).
    rewrite Hrng, Hcwd, Hout in Hrun.
    exists f'. split; [exact Hrun|]. split.
    + intros q Hq. rewrite Hrest.
      * apply Hother. apply Hq, list_elem_of_here.
      * intros n Hn. apply Hq. now apply elem_of_cons; right.
    + intros n Hn.
      destruct (decide (n ∈ names)) as [Hin|Hnin].
      * rewrite (Hgone n Hin).
        destruct (decide (n = x)) as [->|Hnx].
        -- rewrite Hx. now destruct (fs w !! (d ++ [x])) as [[c|]|].
        -- rewrite Hother; [reflexivity|].
           intros E. apply app_inj_tail in E as [_ E]. congruence.
      * apply elem_of_cons in Hn as [->|Hn]; [|contradiction].
        rewrite Hrest; [exact Hx|].
        intros n Hn E. apply app_inj_tail in E as [_ <-]. contradiction.
Qed.

(** The first part of [copy_swat] in overwrite mode, on a directory that
    exists. *)
Lemma copy_swat_overwrite_prepare (d : list (list ascii)) w :
  wf_fs (fs w) = true ->
  isdir (fs w) d = true ->
  exists f1,
    (do f <- get_fs ;
     if isdir f d then
       do files <- listdir d ;
       for_each files
         (fun file =>
            let file_path := d ++ [file] in
            try_except
              (do f <- get_fs ;
               if isfile f file_path then remove file_path else ret tt)
              (fun e => Some (print (str_of_exn e)))) ;;
       ret d
     else
       makedirs d ;;
       ret d) w
    = (Ok d, mkWorld f1 (rng w) (cwd w) (stdout w))
    /\ (forall q, (forall n, q <> d ++ [n]) -> f1 !! q = fs w !! q)
    /\ (forall n,
          f1 !! (d ++ [n])
          = match fs w !! (d ++ [n]) with
            | Some (File _) => None
            | x => x
            end).
Proof.
  intros Hwf Hd. pose proof (wf_check_dirs _ _ Hwf Hd) as Hd0.
  destruct (listdir_ok w d Hd0) as (names & Hlist & Hnames).
  destruct (delete_loop d names w Hd0) as (f1 & Hdel & Hrest & Hgone).
  exists f1. split; [|split].
  - unfold bind at 1, get_fs at 1. rewrite Hd.
    rewrite (bind_ok _ _ _ _ _ Hlist). now rewrite (bind_ok _ _ _ _ _ Hdel).
  - intros q Hq. apply Hrest. intros n _. apply Hq.
  - intros n. destruct (decide (n ∈ names)) as [Hin|Hnin]; [now apply Hgone|].
    rewrite Hrest.
    + destruct (fs w !! (d ++ [n])) as [y|] eqn:Ey; [|reflexivity].
      exfalso. apply Hnin, Hnames. rewrite Ey. eauto.
    + intros n' Hn' E. apply app_inj_tail in E as [_ <-]. contradiction.
Qed.

(** X16: in overwrite mode, on a target directory that exists and holds
    regular files only, [copy_swat] leaves no stale file: afterwards the
    target holds exactly the regular files of the workspace that are no
    output files, everything outside the target is as it was, and the
    target's path is returned. *)
Theorem copy_swat_overwrite_leaves_no_stale_file `{Externals} (self : reader)
    (d : list (list ascii)) (w : World) :
  wf_fs (fs w) = true ->
  isdir (fs w) d = true ->
  only_files (fs w) d = true ->
  isdir (fs w) (root_folder self) = true ->
  only_files (fs w) (root_folder self) = true ->
  d <> root_folder self ->
  exists f',
    copy_swat self (Some d) true w = (Ok d, mkWorld f' (rng w) (cwd w) (stdout w))
    /\ (forall n,
          f' !! (d ++ [n])
          = match fs w !! (root_folder self ++ [n]) with
            | Some x => if is_output_file n then None else Some x
            | None => None
            end)
    /\ (forall q, (forall n, q <> d ++ [n]) -> f' !! q = fs w !! q).
Proof.
  intros Hwf Hd Hdonly Hroot Honly Hne.
  set (root := root_folder self) in *.
  pose proof (wf_check_dirs _ _ Hwf Hd) as Hd0.
  pose proof (wf_check_dirs _ _ Hwf Hroot) as Hr0.
  destruct (copy_swat_overwrite_prepare d w Hwf Hd) as (f1 & Hprep & Hrest1 & Hgone).
  set (w1 := mkWorld f1 (rng w) (cwd w) (stdout w)) in *.
  assert (Hkids1 : forall n, fs w1 !! (d ++ [n]) = None).
  { intros n. cbn [fs w1]. rewrite Hgone.
    destruct (fs w !! (d ++ [n])) as [y|] eqn:Ey; [|reflexivity].
    now destruct (only_files_spec _ _ _ _ Hdonly Ey) as [c ->]. }
  assert (Hsame1 : forall q, fs w !! q = Some Dir -> fs w1 !! q = Some Dir).
  { intros q Hq. cbn [fs w1]. destruct (child_name d q) as [n|] eqn:Ec.
    - apply child_name_spec in Ec as ->. now rewrite Hgone, Hq.
    - rewrite Hrest1; [exact Hq|]. intros n E.
      apply child_name_spec in E. congruence. }
  assert (Hr1 : check_dirs (fs w1) [] root = None).
  { apply check_dirs_all_dirs. intros k Hk. apply Hsame1.
    exact (check_dirs_None_dirs _ _ _ Hr0 k Hk). }
  assert (Hd1 : check_dirs (fs w1) [] d = None).
  { apply check_dirs_all_dirs. intros k Hk. apply Hsame1.
    exact (check_dirs_None_dirs _ _ _ Hd0 k Hk). }
  assert (Hchild1 : forall n, fs w1 !! (root ++ [n]) = fs w !! (root ++ [n])).
  { intros n. cbn [fs w1]. apply Hrest1. intros n' E.
    apply app_inj_tail in E as [E _]. now apply Hne. }
  destruct (copy_files_into root d w1 ltac:(congruence) Hr1 Hd1) as (f' & Hcopy & Hrest & Hcopied).
  { intros n x Hx. rewrite Hchild1 in Hx. exact (only_files_spec _ _ _ _ Honly Hx). }
  { intros n. now rewrite Hkids1. }
  cbn [fs rng cwd stdout w1] in Hcopy.
  exists f'. split; [|split].
  - unfold copy_swat. cbn [is_None negb orb andb as_path]. fold root.
    rewrite bind_assoc, bind_ret_l.
    rewrite (bind_ok _ _ _ _ _ Hprep). exact Hcopy.
  - intros n. rewrite Hcopied, Hkids1, Hchild1.
    destruct (is_output_file n), (fs w !! (root ++ [n])); reflexivity.
  - intros q Hq. rewrite Hrest by exact Hq. cbn [fs w1]. now apply Hrest1.
Qed.

Lemma copy_swat_overwrite_leaves_no_stale_file_witness :
  exists f',
    @copy_swat ex_externals ex_self (Some [lit "run"]) true
      (mkWorld (<[[lit "run"] := Dir]>
                  (<[[lit "run"; lit "stale.txt"] := File (lit "old")]>
                     (ex_fs [(lit "print.prt", lit "p")])))
               0 [] [])
    = (Ok [lit "run"], mkWorld f' 0 [] [])
    /\ f' !! [lit "run"; lit "stale.txt"] = None
    /\ f' !! [lit "run"; lit "print.prt"] = Some (File (lit "p")).
Proof.
  destruct (@copy_swat_overwrite_leaves_no_stale_file ex_externals ex_self [lit "run"]
              (mkWorld (<[[lit "run"] := Dir]>
                          (<[[lit "run"; lit "stale.txt"] := File (lit "old")]>
                             (ex_fs [(lit "print.prt", lit "p")])))
                       0 [] [])) as (f' & Hrun & Hin & _).
  - vm_compute. reflexivity.
  - vm_compute. reflexivity.
  - vm_compute. reflexivity.
  - vm_compute. reflexivity.
  - vm_compute. reflexivity.
  - discriminate.
  - exists f'. split; [exact Hrun|]. split.
    + exact (Hin (lit "stale.txt")).
    + exact (Hin (lit "print.prt")).
Defined.

(** The copy loop of [copy_swat] over entries that are directories: the
    first one that is no output name stops it, and nothing is written. *)
Lemma copy_loop_on_dirs (root : list (list ascii)) names w :
  check_dirs (fs w) [] root = None ->
  (forall n, n ∈ names -> fs w !! (root ++ [n]) = Some Dir) ->
  exists r,
    for_each names
      (fun file =>
         if negb (is_output_file file)
         then copy2 (root ++ [file]) (root ++ [file])
         else ret tt) w
    = (r, w).
Proof.
  intros Hr. induction names as [|x names IH]; intros Hdirs.
  - exists (Ok tt). reflexivity.
  - cbn [for_each]. destruct (is_output_file x); cbn [negb].
    + rewrite bind_ret_l. apply IH. intros n Hn. apply Hdirs. now apply elem_of_cons; right.
    + exists (Raise IsADirectoryError). apply bind_raise.
      unfold copy2, bind at 1, get_fs at 1. apply bind_raise.
      unfold read_text, bind, get_fs. rewrite parent_snoc, Hr, stat_snoc.
      now rewrite (Hdirs x ltac:(apply list_elem_of_here)).
Qed.

(** X17: in overwrite mode with the workspace itself as target,
    [copy_swat] deletes every regular file of the workspace and copies
    nothing back: whatever the outcome, the regular files that stood
    directly in the workspace are gone and all other entries are as they
    were; when the workspace held regular files only, the call returns
    normally, with the path of the emptied workspace. *)
Theorem copy_swat_overwrite_onto_itself `{Externals} (self : reader) (w : World) :
  wf_fs (fs w) = true ->
  isdir (fs w) (root_folder self) = true ->
  exists r f',
    copy_swat self (Some (root_folder self)) true w
    = (r, mkWorld f' (rng w) (cwd w) (stdout w))
    /\ (forall n,
          f' !! (root_folder self ++ [n])
          = match fs w !! (root_folder self ++ [n]) with
            | Some (File _) => None
            | x => x
            end)
    /\ (forall q, (forall n, q <> root_folder self ++ [n]) -> f' !! q = fs w !! q)
    /\ (only_files (fs w) (root_folder self) = true -> r = Ok (root_folder self)).
Proof.
  intros Hwf Hroot. set (root := root_folder self) in *.
  pose proof (wf_check_dirs _ _ Hwf Hroot) as Hr0.
  destruct (copy_swat_overwrite_prepare root w Hwf Hroot) as (f1 & Hprep & Hrest1 & Hgone).
  set (w1 := mkWorld f1 (rng w) (cwd w) (stdout w)) in *.
  assert (Hsame1 : forall q, fs w !! q = Some Dir -> fs w1 !! q = Some Dir).
  { intros q Hq. cbn [fs w1]. destruct (child_name root q) as [n|] eqn:Ec.
    - apply child_name_spec in Ec as ->. now rewrite Hgone, Hq.
    - rewrite Hrest1; [exact Hq|]. intros n E.
      apply child_name_spec in E. congruence. }
  assert (Hr1 : check_dirs (fs w1) [] root = None).
  { apply check_dirs_all_dirs. intros k Hk. apply Hsame1.
    exact (check_dirs_None_dirs _ _ _ Hr0 k Hk). }
  destruct (listdir_ok w1 root Hr1) as (names & Hlist & Hnames).
  assert (Hdirs : forall n, n ∈ names -> fs w1 !! (root ++ [n]) = Some Dir).
  { intros n Hn. apply Hnames in Hn as [x Hx]. rewrite Hx. cbn [fs w1] in Hx.
    rewrite Hgone in Hx. now destruct (fs w !! (root ++ [n])) as [[c|]|]. }
  destruct (copy_loop_on_dirs root names w1 Hr1 Hdirs) as [r Hloop].
  assert (Hrun : copy_swat self (Some root) true w
                 = (match r with Ok _ => Ok root | Raise e => Raise e end, w1)).
  { unfold copy_swat. cbn [is_None negb orb andb as_path]. fold root.
    rewrite bind_assoc, bind_ret_l.
    rewrite (bind_ok _ _ _ _ _ Hprep), (bind_ok _ _ _ _ _ Hlist).
    unfold bind. rewrite Hloop. now destruct r. }
  eexists _, f1. split; [exact Hrun|]. split; [exact Hgone|]. split; [exact Hrest1|].
  intros Honly.
  assert (names = []) as ->.
  { destruct names as [|n names]; [reflexivity|].
    pose proof (Hdirs n ltac:(apply list_elem_of_here)) as Hn.
    cbn [fs w1] in Hn. rewrite Hgone in Hn.
    destruct (fs w !! (root ++ [n])) as [y|] eqn:Ey; [|discriminate Hn].
    destruct (only_files_spec _ _ _ _ Honly Ey) as [c ->]. discriminate Hn. }
  cbn in Hloop. injection Hloop as <-. reflexivity.
Qed.

Lemma copy_swat_overwrite_onto_itself_witness :
  exists f',
    @copy_swat ex_externals ex_self (Some [lit "ws"]) true
      (ex_world [(lit "print.prt", unlines ["print.prt"])])
    = (Ok [lit "ws"], mkWorld f' 0 [] [])
    /\ f' !! [lit "ws"; lit "print.prt"] = None
    /\ f' !! [lit "ws"; lit "swat.exe"] = None.
Proof.
  destruct (@copy_swat_overwrite_onto_itself ex_externals ex_self
              (ex_world [(lit "print.prt", unlines ["print.prt"])])
              ltac:(vm_compute; reflexivity) ltac:(vm_compute; reflexivity))
    as (r & f' & Hrun & Hgone & _ & Hok).
  rewrite (Hok ltac:(vm_compute; reflexivity)) in Hrun.
  exists f'. split; [exact Hrun|]. split.
  - exact (Hgone (lit "print.prt")).
  - exact (Hgone (lit "swat.exe")).
Defined.

(** ** The constructor *)

Lemma init_loop_one (files : list (list ascii)) x w :
  for_fold files (1, Some x)
    (fun '(count, swat_exe) file =>
       if endswith (lit ".exe") file then
         (if count =? 0 then ret (S count, Some file)
          else raise (TypeError "More than one .exe file found in the parent folder"))
       else ret (count, swat_exe)) w
  = (match List.filter (endswith (lit ".exe")) files with
     | [] => Ok (1, Some x)
     | _ => Raise (TypeError "More than one .exe file found in the parent folder")
     end, w).
Proof.
  induction files as [|f files IH]; [reflexivity|].
  cbn [for_fold List.filter]. destruct (endswith (lit ".exe") f).
  - reflexivity.
  - rewrite bind_ret_l. apply IH.
Qed.

Lemma init_loop (files : list (list ascii)) w :
  for_fold files (0, None)
    (fun '(count, swat_exe) file =>
       if endswith (lit ".exe") file then
         (if count =? 0 then ret (S count, Some file)
          else raise (TypeError "More than one .exe file found in the parent folder"))
       else ret (count, swat_exe)) w
  = (match List.filter (endswith (lit ".exe")) files with
     | [] => Ok (0, None)
     | [exe] => Ok (1, Some exe)
     | _ => Raise (TypeError "More than one .exe file found in the parent folder")
     end, w).
Proof.
  induction files as [|f files IH]; [reflexivity|].
  cbn [for_fold List.filter]. destruct (endswith (lit ".exe") f).
  - cbn [Nat.eqb]. rewrite bind_ret_l, init_loop_one.
    now destruct (List.filter (endswith (lit ".exe")) files).
  - rewrite bind_ret_l. exact IH.
Qed.

Lemma listdir_world p w : snd (listdir p w) = w.
Proof.
  unfold listdir, bind, get_fs. now destruct (check_dirs (fs w) [] p).
Qed.

(** The outcome of the constructor. *)
Lemma init_spec path w :
  __init__ path w
  = (if negb (isdir (fs w) path) then Raise FileNotFoundError else
     match fst (listdir path w) with
     | Raise e => Raise e
     | Ok names =>
         match List.filter (endswith (lit ".exe")) names with
         | [] => Raise (TypeError ".exe not found in parent folder")
         | [exe] => Ok (mkReader path (path ++ [exe]))
         | _ => Raise (TypeError "More than one .exe file found in the parent folder")
         end
     end, w).
Proof.
  unfold __init__. unfold bind at 1, get_fs at 1.
  destruct (isdir (fs w) path); cbn [negb]; [|reflexivity].
  pose proof (listdir_world path w) as Hw.
  destruct (listdir path w) as [[names|e] w'] eqn:El; cbn [fst snd] in *; subst w'.
  - rewrite (bind_ok _ _ _ _ _ El).
    unfold bind. rewrite init_loop.
    now destruct (List.filter (endswith (lit ".exe")) names) as [|exe [|exe' l]].
  - now rewrite (bind_raise _ _ _ _ _ El).
Qed.

(** X1: the constructor accepts a folder exactly when one of the names it
    lists ends in [.exe] (in lower case; whether the entry is a file or a
    directory is not looked at).  Without such a name, and with two or
    more, it raises [TypeError]; a path that is no directory raises
    [FileNotFoundError]; the world is never changed.  On success the
    instance holds the folder and the path of that entry. *)
Theorem init_needs_exactly_one_exe (path : list (list ascii)) (w : World) :
  __init__ path w
  = (if negb (isdir (fs w) path) then Raise FileNotFoundError else
     match fst (listdir path w) with
     | Raise e => Raise e
     | Ok names =>
         match List.filter (endswith (lit ".exe")) names with
         | [] => Raise (TypeError ".exe not found in parent folder")
         | [exe] => Ok (mkReader path (path ++ [exe]))
         | _ => Raise (TypeError "More than one .exe file found in the parent folder")
         end
     end, w)
  /\ (forall self w', __init__ path w = (Ok self, w') ->
        w' = w /\ root_folder self = path
        /\ exists exe, swat_exe_path self = path ++ [exe]
                       /\ endswith (lit ".exe") exe = true
                       /\ is_Some (fs w !! (path ++ [exe]))).
Proof.
  split; [apply init_spec|].
  intros self w' Hinit. rewrite init_spec in Hinit.
  destruct (isdir (fs w) path) eqn:Hd; cbn [negb] in Hinit; [|discriminate Hinit].
  destruct (listdir path w) as [[names|e] w1] eqn:El; cbn [fst] in Hinit;
    [|discriminate Hinit].
  destruct (List.filter (endswith (lit ".exe")) names) as [|exe [|exe' l]] eqn:Ef;
    try discriminate Hinit.
  injection Hinit as <- <-. split; [reflexivity|]. split; [reflexivity|].
  exists exe. split; [reflexivity|].
  assert (In exe (List.filter (endswith (lit ".exe")) names)) as Hin
    by (rewrite Ef; now left).
  apply filter_In in Hin as [Hin Hexe]. split; [exact Hexe|].
  unfold listdir, bind, get_fs in El.
  destruct (check_dirs (fs w) [] path) eqn:Hc; [discriminate El|].
  destruct (listdir_ok w path Hc) as (names' & Hl & Hnames).
  unfold listdir, bind, get_fs in Hl. rewrite Hc in Hl.
  unfold ret in Hl, El. assert (names' = names) as -> by congruence.
  now apply Hnames, list_elem_of_In.
Qed.

(** ** Running the executable *)

(** The lines [_run_swat] prints for the output [lines] of the process. *)
Lemma print_loop (lines : list (list ascii)) (show_output : bool) w :
  for_each lines
    (fun raw_output =>
       let output := strip raw_output in
       if negb (Nat.eqb (length output) 0) && show_output then print output else ret tt) w
  = (Ok tt,
     mkWorld (fs w) (rng w) (cwd w)
       (stdout w
        ++ List.filter (fun output => negb (Nat.eqb (length output) 0) && show_output)
             (map strip lines))).
Proof.
  revert w. induction lines as [|l lines IH]; intros w.
  - cbn. unfold ret. now rewrite app_nil_r, world_eta.
  - cbn [for_each map List.filter].
    destruct (negb (length (strip l) =? 0) && show_output).
    + unfold bind at 1, print at 1. rewrite IH. cbn [fs rng cwd stdout].
      now rewrite <- app_assoc.
    + rewrite bind_ret_l. apply IH.
Qed.

Lemma _run_swat_spec `{Externals} (self : reader) (show_output : bool)
    (w w' : World) (lines : list (list ascii)) :
  check_dirs (fs w) [] (root_folder self) = None ->
  Popen (swat_exe_path self) (mkWorld (fs w) (rng w) (root_folder self) (stdout w))
  = (Ok lines, w') ->
  _run_swat self show_output w
  = (Ok tt,
     mkWorld (fs w') (rng w') (cwd w')
       (stdout w'
        ++ if show_output
           then List.filter (fun output => negb (Nat.eqb (length output) 0)) (map strip lines)
           else [])).
Proof.
  intros Hr Hp. unfold _run_swat.
  assert (chdir (root_folder self) w
          = (Ok tt, mkWorld (fs w) (rng w) (root_folder self) (stdout w))) as Hcd
    by (unfold chdir; now rewrite Hr).
  rewrite (bind_ok _ _ _ _ _ Hcd), (bind_ok _ _ _ _ _ Hp), print_loop.
  do 3 f_equal. destruct show_output.
  - apply filter_ext. intros a. apply andb_true_r.
  - induction (map strip lines) as [|a l IH]; [reflexivity|].
    cbn [List.filter]. now rewrite andb_false_r.
Qed.

(** X19: [_run_swat] moves to the workspace, starts the executable, and
    prints the lines of its output stripped of surrounding whitespace,
    leaving out those that are then empty; with [show_output] unset it
    prints nothing. *)
Theorem run_swat_prints_stripped_lines `{Externals} (self : reader) (show_output : bool)
    (w w' : World) (lines : list (list ascii)) :
  check_dirs (fs w) [] (root_folder self) = None ->
  Popen (swat_exe_path self) (mkWorld (fs w) (rng w) (root_folder self) (stdout w))
  = (Ok lines, w') ->
  _run_swat self show_output w
  = (Ok tt,
     mkWorld (fs w') (rng w') (cwd w')
       (stdout w'
        ++ if show_output
           then List.filter (fun output => negb (Nat.eqb (length output) 0)) (map strip lines)
           else [])).
Proof. apply _run_swat_spec. Qed.

Lemma run_swat_prints_stripped_lines_witness :
  @_run_swat (ex_externals_with [lit "  SWAT+ "; [nl]; lit "done" ++ [nl]])
    ex_self true (ex_world [])
  = (Ok tt, mkWorld (ex_fs []) 0 [lit "ws"] [lit "SWAT+"; lit "done"]).
Proof.
  apply (@run_swat_prints_stripped_lines
           (ex_externals_with [lit "  SWAT+ "; [nl]; lit "done" ++ [nl]])
           ex_self true (ex_world [])
           (mkWorld (ex_fs []) 0 [lit "ws"] [])
           [lit "  SWAT+ "; [nl]; lit "done" ++ [nl]]).
  - vm_compute. reflexivity.
  - reflexivity.
Defined.

Lemma bind_Ok_inv {A B} (m : M A) (k : A -> M B) w b w' :
  bind m k w = (Ok b, w') -> exists a w1, m w = (Ok a, w1) /\ k a w1 = (Ok b, w').
Proof.
  unfold bind. destruct (m w) as [[a|e] w1]; [|discriminate].
  intros Hk. now exists a, w1.
Qed.

Lemma init_needs_exe_aux path w self w' :
  __init__ path w = (Ok self, w') ->
  w' = w /\ root_folder self = path
  /\ exists exe, swat_exe_path self = path ++ [exe] /\ endswith (lit ".exe") exe = true.
Proof.
  intros Hinit. rewrite init_spec in Hinit.
  destruct (negb (isdir (fs w) path)); [discriminate Hinit|].
  destruct (fst (listdir path w)) as [names|e]; [|discriminate Hinit].
  destruct (List.filter (endswith (lit ".exe")) names) as [|exe [|exe' l]] eqn:Ef;
    try discriminate Hinit.
  injection Hinit as <- <-. split; [reflexivity|]. split; [reflexivity|].
  exists exe. split; [reflexivity|].
  assert (In exe (List.filter (endswith (lit ".exe")) names)) as Hin
    by (rewrite Ef; now left).
  now apply filter_In in Hin as [_ Hexe].
Qed.

(** X18: when [copy_and_run] returns, what it returns is the path that
    [copy_swat] returned for the clone, and the run was made in that
    clone: the constructor accepted it, so it lists exactly one name that
    ends in [.exe]. *)
Theorem copy_and_run_returns_clone `{Externals} (self : reader)
    (dir : option (list (list ascii))) (overwrite : bool)
    (params : list (list ascii * (list ascii * list (option (list ascii) * list ascii * Value))))
    (tpl_params : tpl_arg Value) (show_output : bool) (w w' : World)
    (r : list (list ascii)) :
  copy_and_run self dir overwrite params tpl_params show_output w = (Ok r, w') ->
  exists w1 exe,
    copy_swat self dir overwrite w = (Ok r, w1)
    /\ __init__ r w1 = (Ok (mkReader r (r ++ [exe])), w1)
    /\ endswith (lit ".exe") exe = true.
Proof.
  intros Hrun. unfold copy_and_run in Hrun.
  destruct (copy_swat self dir overwrite w) as [[tmp_path|e] w1] eqn:Hcopy.
  2: { rewrite (bind_raise _ _ _ _ _ Hcopy) in Hrun. discriminate Hrun. }
  rewrite (bind_ok _ _ _ _ _ Hcopy) in Hrun.
  destruct (__init__ tmp_path w1) as [[rd|e] w2] eqn:Hinit.
  2: { rewrite (bind_raise _ _ _ _ _ Hinit) in Hrun. discriminate Hrun. }
  rewrite (bind_ok _ _ _ _ _ Hinit) in Hrun.
  destruct (init_needs_exe_aux tmp_path w1 rd w2 Hinit) as (-> & Hroot & exe & Hexe & Hends).
  unfold run_swat in Hrun.
  destruct (__init__ (root_folder rd) w1) as [[aux|e] w3] eqn:Hinit2.
  2: { rewrite (bind_raise _ _ _ _ _ Hinit2) in Hrun. discriminate Hrun. }
  rewrite (bind_ok _ _ _ _ _ Hinit2) in Hrun.
  apply bind_Ok_inv in Hrun as ([] & w4 & _ & Hrun).
  apply bind_Ok_inv in Hrun as ([] & w5 & _ & Hrun).
  apply bind_Ok_inv in Hrun as ([] & w6 & _ & Hrun).
  unfold ret in Hrun. injection Hrun as <- <-.
  destruct rd as [rf ep]. cbn [root_folder swat_exe_path] in *. subst rf ep.
  exists w1, exe. split; [reflexivity|]. split; [exact Hinit|exact Hends].
Qed.

Lemma copy_and_run_returns_clone_witness :
  exists w1 exe,
    @copy_swat ex_externals ex_self (Some []) false (ex_world [])
    = (Ok [lit "tmp0"], w1)
    /\ @__init__ [lit "tmp0"] w1 = (Ok (mkReader [lit "tmp0"] ([lit "tmp0"] ++ [exe])), w1)
    /\ endswith (lit ".exe") exe = true.
Proof.
  apply (@copy_and_run_returns_clone ex_externals ex_self (Some []) false [] (TplDict []) false
           (ex_world [])
           (snd (@copy_and_run ex_externals ex_self (Some []) false [] (TplDict []) false
                   (ex_world [])))
           [lit "tmp0"]).
  vm_compute. reflexivity.
Defined.

(** ** The tuple wrappers and the batch *)

Lemma _run_swat_quiet_inv `{Externals} (self : reader) w w' :
  _run_swat self false w = (Ok tt, w') ->
  exists lines,
    Popen (swat_exe_path self) (mkWorld (fs w) (rng w) (root_folder self) (stdout w))
    = (Ok lines, w')
    /\ _run_swat self true w
       = (Ok tt,
          mkWorld (fs w') (rng w') (cwd w')
            (stdout w'
             ++ List.filter (fun output => negb (Nat.eqb (length output) 0))
                  (map strip lines))).
Proof.
  intros Hrun. unfold _run_swat in Hrun.
  apply bind_Ok_inv in Hrun as ([] & w1 & Hcd & Hrun).
  apply bind_Ok_inv in Hrun as (lines & w2 & Hp & Hrun).
  unfold chdir in Hcd.
  destruct (check_dirs (fs w) [] (root_folder self)) eqn:Hr; [discriminate Hcd|].
  injection Hcd as <-.
  pose proof (_run_swat_spec self false w w2 lines Hr Hp) as Hq.
  unfold _run_swat in Hq.
  assert (chdir (root_folder self) w
          = (Ok tt, mkWorld (fs w) (rng w) (root_folder self) (stdout w))) as Hcd
    by (unfold chdir; now rewrite Hr).
  rewrite (bind_ok _ _ _ _ _ Hcd), (bind_ok _ _ _ _ _ Hp), Hrun in Hq.
  injection Hq as ->. rewrite app_nil_r, world_eta in *.
  exists lines. split; [exact Hp|].
  exact (_run_swat_spec self true w w2 lines Hr Hp).
Qed.

(** X20: a task of the executor shows the output of the executable, a run
    of the local loop does not.  When the local call of [copy_and_run]
    (empty template dictionary, [show_output] unset) returns, the call of
    [copy_and_run_star] on the tuple the executor path builds returns the
    same path and leaves the same world, but for the non-empty stripped
    lines of the process output, which it prints. *)
Theorem copy_and_run_star_shows_output `{Externals} (self : reader)
    (dir : option (list (list ascii))) (overwrite : bool)
    (params : list (list ascii * (list ascii * list (option (list ascii) * list ascii * Value))))
    (w w' : World) (r : list (list ascii)) :
  copy_and_run self dir overwrite params (TplDict []) false w = (Ok r, w') ->
  exists exe w0 lines,
    Popen exe w0 = (Ok lines, w')
    /\ copy_and_run_star self (dir, overwrite, params, false) w
       = (Ok r,
          mkWorld (fs w') (rng w') (cwd w')
            (stdout w'
             ++ List.filter (fun output => negb (Nat.eqb (length output) 0))
                  (map strip lines))).
Proof.
  intros Hrun. unfold copy_and_run_star, copy_and_run in *.
  apply bind_Ok_inv in Hrun as (tmp_path & w1 & Hcopy & Hrun).
  apply bind_Ok_inv in Hrun as (rd & w2 & Hinit & Hrun).
  rewrite (bind_ok _ _ _ _ _ Hcopy), (bind_ok _ _ _ _ _ Hinit).
  unfold run_swat in *. cbn [truthy length Nat.eqb negb] in *.
  apply bind_Ok_inv in Hrun as (aux & w3 & Hinit2 & Hrun).
  rewrite (bind_ok _ _ _ _ _ Hinit2).
  apply bind_Ok_inv in Hrun as ([] & w4 & Hedit & Hrun).
  rewrite (bind_ok _ _ _ _ _ Hedit).
  rewrite bind_ret_l in Hrun |- *.
  apply bind_Ok_inv in Hrun as ([] & w5 & Hexe & Hrun).
  unfold ret in Hrun. injection Hrun as <- <-.
  destruct (_run_swat_quiet_inv aux w4 w5 Hexe) as (lines & Hp & Hshow).
  eexists (swat_exe_path aux), _, lines. split; [exact Hp|].
  now rewrite (bind_ok _ _ _ _ _ Hshow).
Qed.

Lemma copy_and_run_star_shows_output_witness :
  exists w',
    @copy_and_run ex_externals ex_self (Some []) false [] (TplDict []) false (ex_world [])
    = (Ok [lit "tmp0"], w')
    /\ stdout w' = []
    /\ @copy_and_run_star ex_externals ex_self (Some [], false, [], false) (ex_world [])
       = (Ok [lit "tmp0"],
          mkWorld (fs w') (rng w') (cwd w') [lit "Execution successfully completed"]).
Proof.
  exists (snd (@copy_and_run ex_externals ex_self (Some []) false [] (TplDict []) false
                 (ex_world []))).
  destruct (@copy_and_run_star_shows_output ex_externals ex_self (Some []) false []
              (ex_world [])
              (snd (@copy_and_run ex_externals ex_self (Some []) false [] (TplDict []) false
                      (ex_world [])))
              [lit "tmp0"] ltac:(vm_compute; reflexivity)) as (exe & w0 & lines & Hp & Hstar).
  split; [vm_compute; reflexivity|]. split; [vm_compute; reflexivity|].
  vm_compute. reflexivity.
Defined.

(** X21: the tuple wrappers bind the last element of the tuple to
    [tpl_params], not to [show_output].  With [True] there, neither
    wrapper ever returns normally: once the parameter edits are done the
    call reads the items of a boolean. *)
Theorem star_wrappers_reject_true `{Externals} (self : reader)
    (dir : option (list (list ascii))) (overwrite : bool)
    (params : list (list ascii * (list ascii * list (option (list ascii) * list ascii * Value))))
    (w w' : World) (r : list (list ascii)) :
  run_swat_star self (params, true) w <> (Ok r, w')
  /\ copy_and_run_star self (dir, overwrite, params, true) w <> (Ok r, w').
Proof.
  assert (forall rd w0, run_swat rd params (TplBool true) true w0 <> (Ok r, w')) as Hno.
  { intros rd w0 Hrun. unfold run_swat in Hrun. cbn [truthy] in Hrun.
    apply bind_Ok_inv in Hrun as (aux & w3 & _ & Hrun).
    apply bind_Ok_inv in Hrun as ([] & w4 & _ & Hrun).
    apply bind_Ok_inv in Hrun as ([] & w5 & Hbad & _).
    discriminate Hbad. }
  split.
  - apply Hno.
  - intros Hrun. unfold copy_and_run_star, copy_and_run in Hrun.
    apply bind_Ok_inv in Hrun as (tmp_path & w1 & _ & Hrun).
    apply bind_Ok_inv in Hrun as (rd & w2 & _ & Hrun).
    exact (Hno _ _ Hrun).
Qed.

Lemma run_in_order_app {P R} (run : P -> M R) (ps1 ps2 : list P) w :
  run_in_order run (ps1 ++ ps2) w
  = (do rs1 <- run_in_order run ps1 ;
     do rs2 <- run_in_order run ps2 ;
     ret (rs1 ++ rs2)) w.
Proof.
  revert w. induction ps1 as [|p ps1 IH]; intros w.
  - cbn [app run_in_order]. rewrite bind_ret_l.
    unfold bind. destruct (run_in_order run ps2 w) as [[rs|e] w1]; reflexivity.
  - cbn [app run_in_order]. unfold bind, ret.
    destruct (run p w) as [[r|e] w1]; [|reflexivity].
    rewrite IH. unfold bind, ret.
    destruct (run_in_order run ps1 w1) as [[rs1|e] w2]; [|reflexivity].
    destruct (run_in_order run ps2 w2) as [[rs2|e] w3]; reflexivity.
Qed.

(** X22: the local loop stops at the first run that fails.  When the runs
    of the first parameter sets succeed and the next one raises, the batch
    raises that exception in the world that run left: the later sets are
    not run, and the paths of the runs already made are not returned. *)
Theorem run_parallel_swat_stops_at_first_failure `{Externals} (self : reader)
    (ps1 ps2 : list (list (list ascii * (list ascii
                  * list (option (list ascii) * list ascii * Value)))))
    (p : list (list ascii * (list ascii * list (option (list ascii) * list ascii * Value))))
    (n_workers : Z) (dir : option (list (list ascii)))
    (w w1 w2 : World) (rs : list (list (list ascii))) (e : exn) :
  run_parallel_swat self ps1 n_workers dir None w = (Ok rs, w1) ->
  copy_and_run self dir false p (TplDict []) false w1 = (Raise e, w2) ->
  run_parallel_swat self (ps1 ++ p :: ps2) n_workers dir None w = (Raise e, w2).
Proof.
  intros H1 Hp. rewrite run_parallel_swat_local in *.
  rewrite run_in_order_app, (bind_ok _ _ _ _ _ H1).
  cbn [run_in_order]. apply bind_raise. now apply bind_raise.
Qed.

Lemma run_parallel_swat_stops_at_first_failure_witness :
  @run_parallel_swat ex_externals ex_self [[]; []; []] 2 (Some [lit "ws"]) None (ex_world [])
  = (Raise IsADirectoryError,
     snd (@copy_and_run ex_externals ex_self (Some [lit "ws"]) false [] (TplDict []) false
            (ex_world []))).
Proof.
  apply (@run_parallel_swat_stops_at_first_failure ex_externals ex_self [] [[]; []] [] 2
           (Some [lit "ws"]) (ex_world []) (ex_world []) _ [] IsADirectoryError).
  - reflexivity.
  - vm_compute. reflexivity.
Defined.

(** X23: an empty batch runs nothing, on either backend: the result is the
    empty list and the world is left as it was, whatever order the client
    takes tasks in. *)
Theorem run_parallel_swat_empty_batch `{Externals} (self : reader) (n_workers : Z)
    (dir : option (list (list ascii))) (client : option Client) (w : World) :
  run_parallel_swat self [] n_workers dir client w = (Ok [], w).
Proof.
  destruct client as [c|]; [|reflexivity].
  unfold run_parallel_swat. cbn [length seq for_fold]. rewrite !bind_ret_l.
  unfold client_map. cbn [length seq map].
  assert (forall order w0,
            for_fold order []
              (fun (done : list (nat * result (list (list ascii)))) (i : nat) =>
                 match ([] : list (option (list (list ascii)) * bool
                                   * list (list ascii * (list ascii
                                       * list (option (list ascii) * list ascii * Value)))
                                   * bool)) !! i with
                 | None => ret done
                 | Some t =>
                     fun w => let '(r, w') := copy_and_run_star self t w in
                              (Ok (done ++ [(i, r)]), w')
                 end) w0
            = (Ok [], w0)) as Hloop.
  { induction order as [|i order IH]; intros w0; [reflexivity|].
    cbn [for_fold]. rewrite lookup_nil, bind_ret_l. apply IH. }
  rewrite bind_assoc, (bind_ok _ _ _ _ _ (Hloop _ w)).
  reflexivity.
Qed.

(** ** Templates: [change_params], again *)

Lemma rsplit1_head_no_sep sep (s : list ascii) : sep ∉ s -> rsplit1_head sep s = s.
Proof.
  intros Hs. unfold rsplit1_head.
  assert (before_last sep s = None) as ->; [|reflexivity].
  induction s as [|c s IH]; [reflexivity|]. simpl.
  apply not_elem_of_cons in Hs as [Hc Hs]. rewrite (IH Hs).
  destruct (Ascii.eqb_spec c sep); [congruence|reflexivity].
Qed.

Lemma occurs_found pat s :
  occurs pat s ->
  existsb (fun k => startswith pat (drop k s)) (seq 0 (S (length s))) = true.
Proof.
  intros (a & b & ->). apply existsb_exists. exists (length a). split.
  - apply in_seq. rewrite length_app. lia.
  - rewrite drop_app_length. apply startswith_app.
Qed.

Lemma Replaced_absent pat repl s s' :
  Replaced pat repl s s' -> ~ occurs pat s -> s' = s.
Proof.
  intros Hr Hno. inversion Hr as [s0 _|pre rest rest' _ _]; subst; [reflexivity|].
  exfalso. apply Hno. now exists pre, rest.
Qed.

Lemma Replaced_in_order_absent {V} (to_str : V -> list ascii) params s s' :
  Replaced_in_order to_str params s s' ->
  Forall (fun kv => ~ occurs (lit "#" ++ fst kv ++ lit "#") s) params ->
  s' = s.
Proof.
  induction 1 as [s|k v params s s1 s2 H1 _ IH]; intros Hall; [reflexivity|].
  inversion Hall as [|? ? Hk Hrest]; subst. cbn [fst] in Hk.
  pose proof (Replaced_absent _ _ _ _ H1 Hk) as ->. now apply IH.
Qed.



(** X25: a key whose token does not occur in the template is ignored
    without an error.  When no token of the mapping occurs (the names
    plain, the values without a backslash), the output file receives the
    text of the template as it is.  [q] is the file that the path of the
    template leads to and [q'] the entry that the path of the output leads
    to, which must be no directory. *)
Theorem change_params_ignores_absent_keys `{Externals} (self : reader)
    (tpl_filename : list ascii) (params : list (list ascii * Value))
    (w : World) (q q' : list (list ascii)) (text : list ascii) :
  resolve (fs w) [] (truediv (root_folder self) tpl_filename) = Ok q ->
  holds_text w q text ->
  resolve (fs w) [] (truediv (root_folder self) (rsplit1_head dot tpl_filename)) = Ok q' ->
  isdir (fs w) q' = false ->
  forallb (fun '(k, v) => token_plain k && repl_modelled (py_str v)) params = true ->
  Forall (fun kv => ~ occurs (lit "#" ++ fst kv ++ lit "#") text) params ->
  change_params self tpl_filename params w = (Ok tt, set_file q' text w).
Proof.
  intros Hres Ht Hres' Hout Hall Habs.
  unfold change_params. fold dot.
  rewrite (bind_ok _ _ _ _ _ (open_read_holds _ _ _ _ Hres Ht)).
  rewrite readlines_concat.
  rewrite (Replaced_in_order_absent _ _ _ _ (change_params_fold params text Hall) Habs).
  now apply open_write_ok.
Qed.

Lemma change_params_ignores_absent_keys_witness :
  @change_params ex_externals ex_self (lit "soils.sol.tpl") [(lit "cn2", lit "80")]
    (ex_world [(lit "soils.sol.tpl", lit "awc #awc#")])
  = (Ok tt,
     set_file [lit "ws"; lit "soils.sol"] (lit "awc #awc#")
       (ex_world [(lit "soils.sol.tpl", lit "awc #awc#")])).
Proof.
  apply (@change_params_ignores_absent_keys ex_externals ex_self (lit "soils.sol.tpl")
           [(lit "cn2", lit "80")]
           (ex_world [(lit "soils.sol.tpl", lit "awc #awc#")])
           [lit "ws"; lit "soils.sol.tpl"] [lit "ws"; lit "soils.sol"] (lit "awc #awc#")).
  - vm_compute. reflexivity.
  - split; vm_compute; reflexivity.
  - vm_compute. reflexivity.
  - vm_compute. reflexivity.
  - vm_compute. reflexivity.
  - constructor; [|constructor]. intros Hocc. apply occurs_found in Hocc.
    vm_compute in Hocc. discriminate Hocc.
Defined.

(** X29: for token names free of the operator characters of regular
    expressions and values whose [str()] holds no backslash,
    [change_params] writes, to the entry [q'] that the template name
    without its last dotted segment leads to (no directory), the template
    text in which the occurrences of each [#token#] have been replaced by
    the value's [str()], token after token in the order of the mapping, and
    nothing else changed; the template [q] is read only.  For file names
    proper in a workspace path without [..], [q] and [q'] are the entries
    of these names in the workspace.  With the one token [awc] of value
    0.555 every [#awc#] becomes [0.555]. *)
Theorem change_params_plain_tokens `{Externals} (self : reader)
    (tpl_filename : list ascii) (params : list (list ascii * Value))
    (w : World) (q q' : list (list ascii)) (text : list ascii) :
  resolve (fs w) [] (truediv (root_folder self) tpl_filename) = Ok q ->
  holds_text w q text ->
  resolve (fs w) [] (truediv (root_folder self) (rsplit1_head dot tpl_filename)) = Ok q' ->
  isdir (fs w) q' = false ->
  forallb (fun '(k, v) => token_plain k && repl_modelled (py_str v)) params = true ->
  exists text',
    change_params self tpl_filename params w = (Ok tt, set_file q' text' w)
    /\ Replaced_in_order py_str params text text'
    /\ (forall stem ext,
          tpl_filename = stem ++ dot :: ext -> dot ∉ ext ->
          rsplit1_head dot tpl_filename = stem)
    /\ (lit ".." ∉ root_folder self ->
        (plain_name tpl_filename = true -> q = root_folder self ++ [tpl_filename])
        /\ (plain_name (rsplit1_head dot tpl_filename) = true ->
            q' = root_folder self ++ [rsplit1_head dot tpl_filename]))
    /\ (forall v,
          params = [(lit "awc", v)] -> py_str v = lit "0.555" ->
          Replaced (lit "#awc#") (lit "0.555") text text').
Proof.
  intros Hres Ht Hres' Hout Hall.
  exists (fold_left
            (fun new_lines '(k, v) =>
               re_sub re_general (lit "#" ++ k ++ lit "#") (py_str v) new_lines)
            params text).
  split; [|split; [|split; [|split]]].
  - unfold change_params. fold dot.
    rewrite (bind_ok _ _ _ _ _ (open_read_holds _ _ _ _ Hres Ht)).
    rewrite readlines_concat. now apply open_write_ok.
  - now apply change_params_fold.
  - intros stem ext -> Hext. now apply rsplit1_head_last_sep.
  - intros Hroot. split; intros Hn; eapply resolve_plain_name; eassumption.
  - intros v -> Hv. pose proof (change_params_fold _ text Hall) as Hr.
    inversion Hr as [|k v' ps s s1 s2 H1 H2]; subst.
    inversion H2; subst. rewrite Hv in H1. exact H1.
Qed.

Lemma change_params_plain_tokens_witness :
  exists text',
    @change_params ex_externals ex_self (lit "soils.sol.tpl") [(lit "awc", lit "0.555")]
      (ex_world [(lit "soils.sol.tpl", unlines ["awc  #awc#  #awc#awc"; "#k#  awc#"])])
    = (Ok tt,
       set_file [lit "ws"; lit "soils.sol"] text'
         (ex_world [(lit "soils.sol.tpl", unlines ["awc  #awc#  #awc#awc"; "#k#  awc#"])]))
    /\ Replaced (lit "#awc#") (lit "0.555")
         (unlines ["awc  #awc#  #awc#awc"; "#k#  awc#"]) text'.
Proof.
  destruct (@change_params_plain_tokens ex_externals ex_self (lit "soils.sol.tpl")
              [(lit "awc", lit "0.555")]
              (ex_world [(lit "soils.sol.tpl", unlines ["awc  #awc#  #awc#awc"; "#k#  awc#"])])
              [lit "ws"; lit "soils.sol.tpl"] [lit "ws"; lit "soils.sol"]
              (unlines ["awc  #awc#  #awc#awc"; "#k#  awc#"]))
    as (text' & Hrun & _ & _ & _ & Hawc).
  - vm_compute. reflexivity.
  - split; vm_compute; reflexivity.
  - vm_compute. reflexivity.
  - vm_compute. reflexivity.
  - vm_compute. reflexivity.
  - exists text'. split; [exact Hrun|]. now apply (Hawc (lit "0.555")).
Defined.



(** ** Object names and print lines, again *)

Lemma split_word_space_char (s : list ascii) n c rest :
  word s -> isspace c = true ->
  split_from [] (s ++ repeat sp n ++ c :: rest) = s :: split_from [] rest.
Proof.
  intros [Hne Hs] Hc. rewrite split_from_nonspace by exact Hs. rewrite app_nil_r.
  assert (rev s <> []) as Hr.
  { intros E. apply Hne. now rewrite <- (rev_involutive s), E. }
  destruct n as [|n].
  - cbn [repeat app split_from]. rewrite Hc.
    destruct (rev s) eqn:E; [contradiction|]. rewrite <- E, rev_involutive. reflexivity.
  - cbn [repeat app split_from]. change (isspace sp) with true. cbn match.
    destruct (rev s) eqn:E; [contradiction|]. rewrite <- E, rev_involutive.
    f_equal. rewrite split_from_spaces. cbn [split_from]. now rewrite Hc.
Qed.

Lemma word_yn b : word [yn b].
Proof. split; [discriminate|]. constructor; [apply isspace_yn|constructor]. Qed.

(** X26: for an object name that is a word of fewer than 29 characters,
    the line built for it reads back, split at whitespace, as five fields:
    the name and the four flags. *)
Theorem build_line_reads_back (o : list ascii) (daily monthly yearly avann : bool) :
  word o ->
  length o < 29 ->
  split (_build_line_to_add o daily monthly yearly avann)
  = [o; [yn daily]; [yn monthly]; [yn yearly]; [yn avann]].
Proof.
  intros Ho Hlen. rewrite build_line_columns. unfold split, ljust.
  destruct (29 - length o) as [|k] eqn:Ek; [lia|].
  assert (forall (rest : list ascii) n, repeat sp (S n) ++ rest = repeat sp n ++ sp :: rest)
    as Hsp.
  { intros rest n. induction n as [|n IH]; [reflexivity|].
    cbn [repeat app] in *. now rewrite IH. }
  rewrite <- app_assoc, Hsp.
  rewrite split_word_space_char by (try exact Ho; reflexivity). f_equal.
  change (yn daily :: repeat sp 13 ++ ?r) with ([yn daily] ++ repeat sp 13 ++ r).
  rewrite Hsp, split_word_space_char by (try apply word_yn; reflexivity). f_equal.
  change (yn monthly :: repeat sp 13 ++ ?r) with ([yn monthly] ++ repeat sp 13 ++ r).
  rewrite Hsp, split_word_space_char by (try apply word_yn; reflexivity). f_equal.
  change (yn yearly :: repeat sp 13 ++ ?r) with ([yn yearly] ++ repeat sp 13 ++ r).
  rewrite Hsp, split_word_space_char by (try apply word_yn; reflexivity). f_equal.
  change [yn avann; nl] with ([yn avann] ++ repeat sp 0 ++ nl :: []).
  rewrite split_word_space_char by (try apply word_yn; reflexivity). reflexivity.
Qed.

Lemma build_line_reads_back_witness :
  split (_build_line_to_add (lit "basin_wb") true false true false)
  = [lit "basin_wb"; lit "y"; lit "n"; lit "y"; lit "n"].
Proof.
  apply (build_line_reads_back (lit "basin_wb") true false true false).
  - split; [discriminate|]. vm_compute. repeat constructor.
  - vm_compute. lia.
Defined.

Lemma proper_snoc_inv ls l : proper (ls ++ [l]) -> Forall complete ls.
Proof.
  intros Hp.
  pose proof (proper_take_complete (ls ++ [l]) (length ls) Hp) as Ht.
  rewrite take_app_length in Ht. apply Ht. rewrite length_app. simpl. lia.
Qed.

(** X27: on a file whose last line has no newline, the line appended for
    an object that no line carries is glued to that last line: the file
    has as many lines as before, and the last one is the old last line
    followed by the built line. *)
Theorem enable_object_glues_to_unterminated_line (self : reader) (obj : list ascii)
    (daily monthly yearly avann : bool) (w : World) (text : list ascii)
    (ls : list (list ascii)) (l : list ascii) :
  holds_text w (print_prt_path self) text ->
  readlines text = ls ++ [l] ->
  unterminated l ->
  nl ∉ object_name obj ->
  existsb (carries (object_name obj)) (readlines text) = false ->
  exists text',
    enable_object_in_print_prt self obj daily monthly yearly avann w
    = (Ok tt, set_file (print_prt_path self) text' w)
    /\ readlines text'
       = ls ++ [l ++ _build_line_to_add (object_name obj) daily monthly yearly avann].
Proof.
  intros Hh Hls [Hne Hnl] Ho Hno.
  pose proof (readlines_proper text) as Hp. rewrite Hls in Hp.
  pose proof (proper_snoc_inv _ _ Hp) as Hc.
  eexists. split; [apply enable_object_in_print_prt_spec, Hh|].
  assert (forall xs, existsb (carries (object_name obj)) xs = false ->
            map (fun l0 => if carries (object_name obj) l0
                           then _build_line_to_add (object_name obj) daily monthly yearly avann
                           else l0) xs = xs) as Hmap.
  { induction xs as [|x xs IH]; [reflexivity|]. cbn [map existsb].
    intros [E1 E2]%orb_false_iff. now rewrite E1, IH. }
  unfold patched_lines. rewrite Hno, (Hmap _ Hno), Hls.
  rewrite !concat_app. cbn [concat]. rewrite !app_nil_r, <- app_assoc.
  rewrite readlines_complete_prefix by exact Hc. f_equal.
  destruct (build_line_complete (object_name obj) daily monthly yearly avann Ho)
    as (b & -> & Hb).
  rewrite app_assoc.
  change ((l ++ b) ++ [nl]) with ((l ++ b) ++ nl :: []) at 1.
  rewrite readlines_complete_app; [reflexivity|].
  rewrite elem_of_app. now intros [?|?].
Qed.

Lemma enable_object_glues_to_unterminated_line_witness :
  exists text',
    enable_object_in_print_prt ex_self (lit "basin_wb") true false true false
      (ex_world [(lit "print.prt", lit "name  daily" ++ [nl] ++ lit "lsunit_wb  n")])
    = (Ok tt,
       set_file (print_prt_path ex_self) text'
         (ex_world [(lit "print.prt", lit "name  daily" ++ [nl] ++ lit "lsunit_wb  n")]))
    /\ readlines text'
       = [lit "name  daily" ++ [nl]]
         ++ [lit "lsunit_wb  n"
             ++ _build_line_to_add (object_name (lit "basin_wb")) true false true false].
Proof.
  apply (enable_object_glues_to_unterminated_line ex_self (lit "basin_wb")
           true false true false _ (lit "name  daily" ++ [nl] ++ lit "lsunit_wb  n")).
  - split; vm_compute; reflexivity.
  - vm_compute. reflexivity.
  - split; [discriminate|]. vm_compute. intros Hin.
    repeat (apply elem_of_cons in Hin as [Hin|Hin]; [discriminate Hin|]).
    inversion Hin.
  - vm_compute. intros Hin.
    repeat (apply elem_of_cons in Hin as [Hin|Hin]; [discriminate Hin|]).
    inversion Hin.
  - vm_compute. reflexivity.
Defined.

Lemma rfind_from_bound i c s :
  (0 <= i)%Z -> (-1 <= rfind_from i c s < i + Z.of_nat (length s))%Z.
Proof.
  revert i. induction s as [|a s IH]; intros i Hi; cbn [rfind_from length]; [lia|].
  specialize (IH (i + 1)%Z ltac:(lia)).
  destruct (0 <=? rfind_from (i + 1) c s)%Z; [lia|].
  destruct (Ascii.eqb a c); lia.
Qed.

Lemma rfind_from_notin i c s : c ∉ s -> rfind_from i c s = (-1)%Z.
Proof.
  revert i. induction s as [|a s IH]; intros i Hs; [reflexivity|].
  apply not_elem_of_cons in Hs as [Hc Hs]. cbn [rfind_from]. rewrite (IH _ Hs).
  cbn. destruct (Ascii.eqb_spec a c); [congruence|reflexivity].
Qed.

Lemma rfind_from_last i c a b :
  (0 <= i)%Z -> c ∉ b -> rfind_from i c (a ++ c :: b) = (i + Z.of_nat (length a))%Z.
Proof.
  revert i. induction a as [|x a IH]; intros i Hi Hb; cbn [app rfind_from length].
  - rewrite (rfind_from_notin _ _ _ Hb). cbn. rewrite Ascii.eqb_refl. lia.
  - rewrite (IH (i + 1)%Z ltac:(lia) Hb).
    destruct (0 <=? i + 1 + Z.of_nat (length a))%Z eqn:E; [lia|].
    apply Z.leb_gt in E. lia.
Qed.

Lemma rfind_from_app_notin i c a b :
  (0 <= i)%Z -> c ∉ b -> (rfind_from i c (a ++ b) < i + Z.of_nat (length a))%Z.
Proof.
  revert i. induction a as [|x a IH]; intros i Hi Hb; cbn [app rfind_from length].
  - rewrite (rfind_from_notin _ _ _ Hb). lia.
  - specialize (IH (i + 1)%Z ltac:(lia) Hb).
    destruct (0 <=? rfind_from (i + 1) c (a ++ b))%Z; [lia|].
    destruct (Ascii.eqb x c); lia.
Qed.

(** X28: the object a name stands for.  A name without a dot, and a name
    without an underscore (even one with an extension, which then stays),
    is taken as it is; a file name [stem_tail.ext], where [tail] and [ext]
    hold no underscore and no slash and [ext] no dot, stands for [stem]. *)
Theorem object_name_of_file_name (obj : list ascii) :
  (dot ∉ obj -> object_name obj = obj)
  /\ (ascii_of_nat 95 ∉ obj -> object_name obj = obj)
  /\ (forall stem tail ext,
        obj = stem ++ ascii_of_nat 95 :: tail ++ dot :: ext ->
        ascii_of_nat 95 ∉ tail -> ascii_of_nat 95 ∉ ext ->
        ascii_of_nat 47 ∉ tail -> ascii_of_nat 47 ∉ ext ->
        dot ∉ ext ->
        object_name obj = stem).
Proof.
  split; [|split].
  - intros Hdot. unfold object_name, splitext, rfind. fold dot.
    rewrite (rfind_from_notin 0 dot obj Hdot).
    pose proof (rfind_from_bound 0 (ascii_of_nat 47) obj ltac:(lia)) as Hb.
    destruct (rfind_from 0 (ascii_of_nat 47) obj <? -1)%Z eqn:E; [|reflexivity].
    apply Z.ltb_lt in E. lia.
  - intros Hus. unfold object_name.
    destruct (snd (splitext obj)); [reflexivity|].
    now apply rsplit1_head_no_sep.
  - intros stem tail ext -> Hut Hue Hst Hse Hde.
    assert (ascii_of_nat 95 ∉ tail ++ dot :: ext) as Hus.
    { rewrite elem_of_app, elem_of_cons. intros [?|[E|?]]; auto. discriminate E. }
    unfold object_name.
    assert (snd (splitext (stem ++ ascii_of_nat 95 :: tail ++ dot :: ext)) = dot :: ext) as ->;
      [|now apply rsplit1_head_last_sep].
    unfold splitext, rfind. fold dot.
    assert (rfind_from 0 dot (stem ++ ascii_of_nat 95 :: tail ++ dot :: ext)
            = Z.of_nat (length stem + 1 + length tail)) as Hdot.
    { replace (stem ++ ascii_of_nat 95 :: tail ++ dot :: ext)
        with ((stem ++ ascii_of_nat 95 :: tail) ++ dot :: ext)
        by (now rewrite <- app_assoc).
      rewrite (rfind_from_last 0 dot _ _ ltac:(lia) Hde).
      rewrite length_app. cbn [length]. lia. }
    assert (rfind_from 0 (ascii_of_nat 47) (stem ++ ascii_of_nat 95 :: tail ++ dot :: ext)
            < Z.of_nat (length stem))%Z as Hsep.
    { apply (rfind_from_app_notin 0 (ascii_of_nat 47) stem); [lia|].
      rewrite elem_of_cons, elem_of_app, elem_of_cons.
      intros [E|[?|[E|?]]]; auto; discriminate E. }
    pose proof (rfind_from_bound 0 (ascii_of_nat 47)
                  (stem ++ ascii_of_nat 95 :: tail ++ dot :: ext) ltac:(lia)) as Hb.
    rewrite Hdot.
    set (sepIndex := rfind_from 0 (ascii_of_nat 47)
                       (stem ++ ascii_of_nat 95 :: tail ++ dot :: ext)) in *.
    destruct (sepIndex <? Z.of_nat (length stem + 1 + length tail))%Z eqn:E;
      [|apply Z.ltb_ge in E; lia].
    rewrite Nat2Z.id.
    assert (existsb (fun ch => negb (Ascii.eqb ch dot))
              (firstn (length stem + 1 + length tail - Z.to_nat (sepIndex + 1))
                 (skipn (Z.to_nat (sepIndex + 1))
                    (stem ++ ascii_of_nat 95 :: tail ++ dot :: ext))) = true) as ->.
    { apply existsb_exists. exists (ascii_of_nat 95). split; [|reflexivity].
      apply list_elem_of_In, list_elem_of_lookup.
      exists (length stem - Z.to_nat (sepIndex + 1)).
      rewrite lookup_take_lt by lia. rewrite lookup_drop.
      replace (Z.to_nat (sepIndex + 1) + (length stem - Z.to_nat (sepIndex + 1)))
        with (length stem) by lia.
      now rewrite list_lookup_middle. }
    cbn [snd].
    replace (stem ++ ascii_of_nat 95 :: tail ++ dot :: ext)
      with ((stem ++ ascii_of_nat 95 :: tail) ++ dot :: ext)
      by (now rewrite <- app_assoc).
    replace (length stem + 1 + length tail) with (length (stem ++ ascii_of_nat 95 :: tail))
      by (rewrite length_app; cbn [length]; lia).
    apply drop_app_length.
Qed.
